(** * Offline synchronisation of expo-supabase: the sync manager over the
      local SQLite store.

    The development embeds [lib/localDb/syncManager.ts] together with the part
    of the schema of [lib/localDb/index.ts] its SQL statements run against:

    - the rows of the three managed tables and of [sync_queue];
    - the SQL statements of the sync manager as functions on the store,
      with the constraints the schema declares;
    - the methods of [SyncManager] in a state-and-exception monad (a thrown
      exception keeps the state reached so far, as in JavaScript; only
      [withTransactionAsync] rolls the store back);
    - the properties of the push loop, of the pull merge and of the
      coordinator. *)

From Stdlib Require Import ZArith List String Bool Lia Permutation Sorted.
Import ListNotations.

Open Scope string_scope.
Open Scope list_scope.
Open Scope Z_scope.

Set Implicit Arguments.

(* ------------------------------------------------------------------ *)
(** * Data model *)

(** The three managed tables ([fetchRemoteChanges], the repositories'
    [tableName]). *)
Inductive entity : Type := levels | offices | students.

(** The table name, as interpolated into [`${change.entity}: ...`]. *)
Definition entity_name (e : entity) : string :=
  match e with
  | levels => "levels"
  | offices => "offices"
  | students => "students"
  end.

(** [operation TEXT NOT NULL CHECK (operation IN ('INSERT','UPDATE','DELETE'))]:
    the check constraint leaves these three values, so the [default] branch
    of [syncChange] has no input. *)
Inductive operation : Type := INSERT | UPDATE | DELETE.

(** A row of [levels], [offices] or [students].  Columns declared
    [NOT NULL] carry a value, the others an [option] ([None] is SQL NULL).
    The five columns [birth_date .. level_id] exist in [students] only; in
    the other two tables they are absent and kept at [None]. *)
Module Row.
Record t : Type := mk {
  id : Z;
  uuid : string;
  name : string;
  birth_date : option string;
  phone : option string;
  address : option string;
  office_id : option Z;
  level_id : option Z;
  supabase_id : option Z;
  is_synced : Z;
  operation_type : option operation;
  created_at : string;
  updated_at : string;
  deleted_at : option string
}.
End Row.

(** A record as the remote backend returns it ([any] in the source): every
    field may be [null]. *)
Module RemoteItem.
Record t : Type := mk {
  id : option Z;
  uuid : option string;
  name : option string;
  birth_date : option string;
  phone : option string;
  address : option string;
  office_id : option Z;
  level_id : option Z;
  created_at : option string;
  updated_at : option string;
  deleted_at : option string
}.
End RemoteItem.

(** A row of [sync_queue].  [payload] is the stored JSON text. *)
Module Change.
Record t : Type := mk {
  id : Z;
  entity : entity;
  entity_local_id : option Z;
  entity_uuid : option string;
  entity_supabase_id : option Z;
  operation : operation;
  payload : string;
  timestamp : Z;
  retry_count : Z;
  last_error : option string;
  created_at : string
}.
End Change.

(** The local store: the three tables in rowid order, the queue, and for
    each of the four the largest rowid [AUTOINCREMENT] has handed out so
    far (its row of [sqlite_sequence]). *)
Record LocalDb : Type := mkDb {
  levels_tbl : list Row.t;
  offices_tbl : list Row.t;
  students_tbl : list Row.t;
  sync_queue : list Change.t;
  levels_seq : Z;
  offices_seq : Z;
  students_seq : Z;
  queue_seq : Z
}.

Definition table (e : entity) (d : LocalDb) : list Row.t :=
  match e with
  | levels => levels_tbl d
  | offices => offices_tbl d
  | students => students_tbl d
  end.

Definition sequence (e : entity) (d : LocalDb) : Z :=
  match e with
  | levels => levels_seq d
  | offices => offices_seq d
  | students => students_seq d
  end.

Definition set_table (e : entity) (rows : list Row.t) (d : LocalDb) : LocalDb :=
  match e with
  | levels =>
      mkDb rows (offices_tbl d) (students_tbl d) (sync_queue d)
        (levels_seq d) (offices_seq d) (students_seq d) (queue_seq d)
  | offices =>
      mkDb (levels_tbl d) rows (students_tbl d) (sync_queue d)
        (levels_seq d) (offices_seq d) (students_seq d) (queue_seq d)
  | students =>
      mkDb (levels_tbl d) (offices_tbl d) rows (sync_queue d)
        (levels_seq d) (offices_seq d) (students_seq d) (queue_seq d)
  end.

Definition set_sequence (e : entity) (k : Z) (d : LocalDb) : LocalDb :=
  match e with
  | levels =>
      mkDb (levels_tbl d) (offices_tbl d) (students_tbl d) (sync_queue d)
        k (offices_seq d) (students_seq d) (queue_seq d)
  | offices =>
      mkDb (levels_tbl d) (offices_tbl d) (students_tbl d) (sync_queue d)
        (levels_seq d) k (students_seq d) (queue_seq d)
  | students =>
      mkDb (levels_tbl d) (offices_tbl d) (students_tbl d) (sync_queue d)
        (levels_seq d) (offices_seq d) k (queue_seq d)
  end.

Definition set_queue (q : list Change.t) (d : LocalDb) : LocalDb :=
  mkDb (levels_tbl d) (offices_tbl d) (students_tbl d) q
    (levels_seq d) (offices_seq d) (students_seq d) (queue_seq d).

(** [SyncResult] of the source. *)
Record SyncResult : Type := mkResult {
  success : bool;
  synced : Z;
  failed : Z;
  errors : list string
}.

(* ------------------------------------------------------------------ *)
(** * JavaScript values *)

Definition opt_eqb {A : Type} (eqb : A -> A -> bool) (x y : option A) : bool :=
  match x, y with
  | Some a, Some b => eqb a b
  | None, None => true
  | _, _ => false
  end.

(** Truthiness of a string-or-null: [null] and the empty string are falsy. *)
Definition truthy_str (x : option string) : bool :=
  match x with
  | None => false
  | Some s => negb (String.eqb s EmptyString)
  end.

(** Truthiness of an integer-or-null: [null] and [0] are falsy. *)
Definition truthy_int (x : option Z) : bool :=
  match x with
  | None => false
  | Some n => negb (n =? 0)
  end.

(** [a || b] on strings-or-null. *)
Definition js_or (a b : option string) : option string :=
  if truthy_str a then a else b.

(** [a > b] on the results of [getTime()]: [None] is NaN, and every
    comparison with NaN is false. *)
Definition time_gt (a b : option Z) : bool :=
  match a, b with
  | Some x, Some y => y <? x
  | _, _ => false
  end.

(* ------------------------------------------------------------------ *)
(** * The schema's constraints *)

(** [deleted_at IS NULL OR deleted_at = ''], the filter of every read of
    active rows. *)
Definition active (r : Row.t) : bool :=
  match Row.deleted_at r with
  | None => true
  | Some s => String.eqb s EmptyString
  end.

(** Two rows that cannot both be in table [e]: same primary key, same
    [uuid] ([UNIQUE NOT NULL]) or same non-null [supabase_id] ([UNIQUE];
    NULLs never collide).  The three tables declare the same constraints.

    The [CREATE TABLE] statements of [initDb] also carry
    [UNIQUE(name) WHERE deleted_at IS NULL] (for students
    [UNIQUE(name, office_id, level_id) WHERE ...]).  SQLite has no [WHERE]
    on a table constraint (partial uniqueness exists for [CREATE INDEX]
    only) and refuses the clause, so no table holds this constraint: the
    model takes the tables with the constraints above, and names are
    checked by [checkDuplicates] alone. *)
Definition conflict (e : entity) (a b : Row.t) : bool :=
  (Row.id a =? Row.id b)
  || String.eqb (Row.uuid a) (Row.uuid b)
  || match Row.supabase_id a, Row.supabase_id b with
     | Some x, Some y => x =? y
     | _, _ => false
     end.

Fixpoint distinct_by {A : Type} (c : A -> A -> bool) (l : list A) : bool :=
  match l with
  | [] => true
  | x :: t => forallb (fun y => negb (c x y)) t && distinct_by c t
  end.

Definition table_ok (e : entity) (rows : list Row.t) : bool :=
  distinct_by (conflict e) rows.

Definition has_supabase_id (k : Z) (rows : list Row.t) : bool :=
  existsb (fun p => opt_eqb Z.eqb (Row.supabase_id p) (Some k)) rows.

(** [office_id INTEGER NOT NULL], [level_id INTEGER NOT NULL] and the two
    foreign keys of [students] into [offices(supabase_id)] and
    [levels(supabase_id)] ([PRAGMA foreign_keys = ON]). *)
Definition fk_ok (d : LocalDb) : bool :=
  forallb (fun s =>
    match Row.office_id s, Row.level_id s with
    | Some o, Some l =>
        has_supabase_id o (offices_tbl d) && has_supabase_id l (levels_tbl d)
    | _, _ => false
    end) (students_tbl d).

(** The largest rowid present in a table. *)
Definition largest_id (rows : list Row.t) : Z :=
  fold_right (fun r m => Z.max (Row.id r) m) 0 rows.

(** The rowid [AUTOINCREMENT] hands out: one more than the largest of the
    table's counter and the rowids present. *)
Definition next_rowid (e : entity) (d : LocalDb) : Z :=
  1 + Z.max (sequence e d) (largest_id (table e d)).

(* ------------------------------------------------------------------ *)
(** * Outcomes and the SQL statements *)

Inductive outcome (A : Type) : Type :=
| Ok (a : A)
| Threw (message : string).
Arguments Threw {A} message.

(** [UPDATE t SET ... WHERE ...] row by row; [None] when an assignment puts
    NULL into a [NOT NULL] column of a row the [WHERE] selects. *)
Fixpoint update_rows (where_ : Row.t -> bool) (set_ : Row.t -> option Row.t)
    (rows : list Row.t) : option (list Row.t) :=
  match rows with
  | [] => Some []
  | r :: rest =>
      match update_rows where_ set_ rest with
      | None => None
      | Some rest' =>
          if where_ r then
            match set_ r with
            | Some r' => Some (r' :: rest')
            | None => None
            end
          else Some (r :: rest')
      end
  end.

(** An [UPDATE] of table [e].  The statement fails as a whole, leaving the
    store as it was, when a written row breaks a constraint; a statement
    whose [WHERE] selects no row does nothing.  The store satisfies its
    constraints before every statement, so checking the table after the
    assignments is the engine's check of the rows it wrote. *)
Definition sql_update (e : entity) (where_ : Row.t -> bool)
    (set_ : Row.t -> option Row.t) (d : LocalDb) : outcome LocalDb :=
  if existsb where_ (table e d) then
    match update_rows where_ set_ (table e d) with
    | None => Threw "NOT NULL constraint failed"
    | Some rows' =>
        let d' := set_table e rows' d in
        if table_ok e rows' && fk_ok d' then Ok d'
        else Threw "constraint failed"
    end
  else Ok d.

(** [INSERT OR IGNORE INTO e ...]: [row] builds the new row from the
    rowid, [None] when a [NOT NULL] column would receive NULL.  A
    [NOT NULL] or uniqueness conflict skips the row silently; the rowid
    taken for it is used up all the same (the counter advances).  A
    foreign-key violation is not covered by [OR IGNORE] and fails the
    statement. *)
Definition sql_insert_or_ignore (e : entity) (row : Z -> option Row.t)
    (d : LocalDb) : outcome LocalDb :=
  let k := next_rowid e d in
  match row k with
  | None => Ok (set_sequence e k d)
  | Some r =>
      if existsb (conflict e r) (table e d) then Ok (set_sequence e k d)
      else
        let d' := set_sequence e k (set_table e (table e d ++ [r]) d) in
        if fk_ok d' then Ok d' else Threw "FOREIGN KEY constraint failed"
  end.

(* ------------------------------------------------------------------ *)
(** * The state-and-exception monad *)

(** A computation over a state of type [S]: it returns or throws, and in
    both cases hands on the state it reached. *)
Definition M (S A : Type) : Type := S -> outcome A * S.

Definition ret {S A : Type} (a : A) : M S A := fun s => (Ok a, s).

Definition throw {S A : Type} (e : string) : M S A := fun s => (Threw e, s).

Definition bind {S A B : Type} (m : M S A) (k : A -> M S B) : M S B :=
  fun s =>
    match m s with
    | (Ok a, s') => k a s'
    | (Threw e, s') => (Threw e, s')
    end.

(** [try { m } catch (error) { h error.message }]. *)
Definition try_catch {S A : Type} (m : M S A) (h : string -> M S A) : M S A :=
  fun s =>
    match m s with
    | (Ok a, s') => (Ok a, s')
    | (Threw e, s') => h e s'
    end.

Declare Scope monad_scope.
Delimit Scope monad_scope with monad.
Notation "x <- c1 ;; c2" := (bind c1 (fun x => c2))
  (at level 61, c1 at next level, right associativity) : monad_scope.
Notation "c1 ;; c2" := (bind c1 (fun _ => c2))
  (at level 61, right associativity) : monad_scope.
Open Scope monad_scope.

(** [for (const x of l) { await body(x) }]. *)
Fixpoint forEach {S A : Type} (l : list A) (body : A -> M S unit) : M S unit :=
  match l with
  | [] => ret tt
  | x :: rest => body x ;; forEach rest body
  end.

(* ------------------------------------------------------------------ *)
(** * The platform *)

(** What the sync manager calls and does not define: the Supabase client,
    [JSON.parse], [Date] parsing and the order in which SQLite returns the
    rows of [ORDER BY timestamp ASC].  A remote call yields the [error]'s
    message or its data, and the next state of the backend. *)
Record Platform : Type := mkPlatform {
  Remote : Type;
  Payload : Type;
  JSON_parse : string -> string + Payload;
  supabase_insert : entity -> Payload -> Remote -> (string + Z) * Remote;
  supabase_update : entity -> Payload -> Z -> Remote -> option string * Remote;
  supabase_soft_delete : entity -> Z -> Remote -> option string * Remote;
  supabase_select : entity -> Remote -> (string + list RemoteItem.t) * Remote;
  Date_parse : string -> option Z;
  order_by_timestamp : list Change.t -> list Change.t
}.

(** The contract of [ORDER BY timestamp ASC]: the same rows, by
    non-decreasing [timestamp].  SQL leaves the order of rows with equal
    keys to the engine. *)
Definition timestamp_le (a b : Change.t) : Prop :=
  Change.timestamp a <= Change.timestamp b.

Record OrderByContract (sort : list Change.t -> list Change.t) : Prop := {
  order_perm : forall q, Permutation (sort q) q;
  order_sorted : forall q, StronglySorted timestamp_le (sort q)
}.

(* ------------------------------------------------------------------ *)
(** * Row assignments of the UPDATE statements *)

(** [SET is_synced = 1, operation_type = NULL]. *)
Definition mark_synced (r : Row.t) : Row.t :=
  Row.mk (Row.id r) (Row.uuid r) (Row.name r) (Row.birth_date r) (Row.phone r)
    (Row.address r) (Row.office_id r) (Row.level_id r) (Row.supabase_id r)
    1 None (Row.created_at r) (Row.updated_at r) (Row.deleted_at r).

(** [SET supabase_id = ?, is_synced = 1, operation_type = NULL]. *)
Definition with_supabase_id (k : Z) (r : Row.t) : Row.t :=
  Row.mk (Row.id r) (Row.uuid r) (Row.name r) (Row.birth_date r) (Row.phone r)
    (Row.address r) (Row.office_id r) (Row.level_id r) (Some k)
    1 None (Row.created_at r) (Row.updated_at r) (Row.deleted_at r).

(** [SET deleted_at = ?, is_synced = 1, operation_type = NULL]. *)
Definition with_tombstone (t : option string) (r : Row.t) : Row.t :=
  Row.mk (Row.id r) (Row.uuid r) (Row.name r) (Row.birth_date r) (Row.phone r)
    (Row.address r) (Row.office_id r) (Row.level_id r) (Row.supabase_id r)
    1 None (Row.created_at r) (Row.updated_at r) t.

(** The assignments of [updateLocalFromRemote]: for [students]
    [name, birth_date, phone, address, office_id, level_id, updated_at,
    is_synced = 1]; for the other tables [name, updated_at, is_synced = 1].
    [None] when [name], [updated_at] (or, for students, [office_id] or
    [level_id]) would become NULL. *)
Definition assign_from_remote (e : entity) (i : RemoteItem.t) (r : Row.t)
    : option Row.t :=
  match RemoteItem.name i,
        js_or (RemoteItem.updated_at i) (RemoteItem.created_at i) with
  | Some n, Some u =>
      match e with
      | students =>
          match RemoteItem.office_id i, RemoteItem.level_id i with
          | Some o, Some l =>
              Some (Row.mk (Row.id r) (Row.uuid r) n (RemoteItem.birth_date i)
                      (RemoteItem.phone i) (RemoteItem.address i) (Some o) (Some l)
                      (Row.supabase_id r) 1 (Row.operation_type r)
                      (Row.created_at r) u (Row.deleted_at r))
          | _, _ => None
          end
      | _ =>
          Some (Row.mk (Row.id r) (Row.uuid r) n (Row.birth_date r)
                  (Row.phone r) (Row.address r) (Row.office_id r) (Row.level_id r)
                  (Row.supabase_id r) 1 (Row.operation_type r)
                  (Row.created_at r) u (Row.deleted_at r))
      end
  | _, _ => None
  end.

(** The row of [insertRemoteItem]'s [INSERT OR IGNORE]: the listed columns
    from the remote record, [is_synced = 1], and the defaults
    ([operation_type] and [deleted_at] NULL) for the columns not listed.
    [None] when a [NOT NULL] column would receive NULL. *)
Definition row_of_remote (e : entity) (i : RemoteItem.t) (rowid : Z)
    : option Row.t :=
  match RemoteItem.uuid i, RemoteItem.name i, RemoteItem.created_at i,
        js_or (RemoteItem.updated_at i) (RemoteItem.created_at i) with
  | Some u, Some n, Some c, Some up =>
      match e with
      | students =>
          match RemoteItem.office_id i, RemoteItem.level_id i with
          | Some o, Some l =>
              Some (Row.mk rowid u n (RemoteItem.birth_date i) (RemoteItem.phone i)
                      (RemoteItem.address i) (Some o) (Some l) (RemoteItem.id i)
                      1 None c up None)
          | _, _ => None
          end
      | _ =>
          Some (Row.mk rowid u n None None None None None (RemoteItem.id i)
                  1 None c up None)
      end
  | _, _, _, _ => None
  end.

(** [WHERE uuid = ?] and [WHERE id = ?]; a NULL parameter selects no row. *)
Definition uuid_is (u : option string) (r : Row.t) : bool :=
  opt_eqb String.eqb (Some (Row.uuid r)) u.

Definition id_is (k : option Z) (r : Row.t) : bool :=
  opt_eqb Z.eqb (Some (Row.id r)) k.

(* ------------------------------------------------------------------ *)
(** * The statements on [sync_queue] *)

(** [private maxRetries = 3]. *)
Definition maxRetries : Z := 3.

(** [WHERE retry_count < ?] with [maxRetries]. *)
Definition pending (c : Change.t) : bool := Change.retry_count c <? maxRetries.

(** [SET retry_count = retry_count + 1, last_error = ?]. *)
Definition bump_retry (message : string) (c : Change.t) : Change.t :=
  Change.mk (Change.id c) (Change.entity c) (Change.entity_local_id c)
    (Change.entity_uuid c) (Change.entity_supabase_id c) (Change.operation c)
    (Change.payload c) (Change.timestamp c) (Change.retry_count c + 1)
    (Some message) (Change.created_at c).

(** [UPDATE sync_queue SET retry_count = retry_count + 1, last_error = ?
    WHERE id = ?]. *)
Definition sql_record_error (changeId : Z) (message : string)
    (d : LocalDb) : outcome LocalDb :=
  Ok (set_queue
        (map (fun c => if Change.id c =? changeId then bump_retry message c else c)
             (sync_queue d)) d).

(** [DELETE FROM sync_queue WHERE id = ?]. *)
Definition sql_delete_change (changeId : Z) (d : LocalDb) : outcome LocalDb :=
  Ok (set_queue (filter (fun c => negb (Change.id c =? changeId)) (sync_queue d)) d).

(** [DELETE FROM sync_queue WHERE retry_count >= ?] with [maxRetries]. *)
Definition sql_delete_failed (d : LocalDb) : outcome LocalDb :=
  Ok (set_queue
        (filter (fun c => negb (maxRetries <=? Change.retry_count c)) (sync_queue d)) d).

(* ------------------------------------------------------------------ *)
(** * The sync manager *)

Section SyncManager.

Variable P : Platform.

(** The state the methods act on: the backend, the store handle of
    [getDb()] ([None] before [initDb]), and the two private flags. *)
Record World : Type := mkWorld {
  remote_st : Remote P;
  db : option LocalDb;
  isOnline : bool;
  syncInProgress : bool
}.

Definition set_db (d : LocalDb) (w : World) : World :=
  mkWorld (remote_st w) (Some d) (isOnline w) (syncInProgress w).

Definition set_remote (r : Remote P) (w : World) : World :=
  mkWorld r (db w) (isOnline w) (syncInProgress w).

Definition set_syncInProgress (b : bool) (w : World) : World :=
  mkWorld (remote_st w) (db w) (isOnline w) b.

(** [getDb()]: throws while the store is not initialised. *)
Definition getDb : M World LocalDb :=
  fun w =>
    match db w with
    | Some d => (Ok d, w)
    | None => (Threw "Database not initialized. Call initDb() first.", w)
    end.

(** [const db = getDb(); await db.runAsync(stmt)]. *)
Definition runAsync (stmt : LocalDb -> outcome LocalDb) : M World unit :=
  d <- getDb ;;
  match stmt d with
  | Ok d' => fun w => (Ok tt, set_db d' w)
  | Threw e => throw e
  end.

(** [db.withTransactionAsync(task)]: commit when the task returns, roll the
    store back and rethrow when it throws. *)
Definition withTransactionAsync {A : Type} (task : M World A) : M World A :=
  fun w =>
    match task w with
    | (Ok a, w') => (Ok a, w')
    | (Threw e, w') =>
        (Threw e, mkWorld (remote_st w') (db w) (isOnline w') (syncInProgress w'))
    end.

(** A call of the Supabase client. *)
Definition remote_call {A : Type} (f : Remote P -> A * Remote P) : M World A :=
  fun w => let (a, r) := f (remote_st w) in (Ok a, set_remote r w).

(** [new Date(x).getTime()] for a string-or-null [x]: [new Date(null)] is
    the epoch, the empty string is an invalid date (NaN), any other text
    goes to the platform's parser. *)
Definition Date_getTime (x : option string) : option Z :=
  match x with
  | None => Some 0
  | Some s => if String.eqb s EmptyString then None else Date_parse P s
  end.

(** ** Push *)

Definition handleInsert (e : entity) (payload : Payload P) (change : Change.t)
    : M World unit :=
  res <- remote_call (supabase_insert P e payload) ;;
  match res with
  | inl error => throw error
  | inr data_id =>
      runAsync (sql_update e (uuid_is (Change.entity_uuid change))
                  (fun r => Some (with_supabase_id data_id r)))
  end.

Definition handleUpdate (e : entity) (payload : Payload P) (change : Change.t)
    : M World unit :=
  match Change.entity_supabase_id change with
  | Some k =>
      if truthy_int (Some k) then
        res <- remote_call (supabase_update P e payload k) ;;
        match res with
        | Some error => throw error
        | None =>
            runAsync (sql_update e (id_is (Change.entity_local_id change))
                        (fun r => Some (mark_synced r)))
        end
      else throw "Cannot update: missing Supabase ID"
  | None => throw "Cannot update: missing Supabase ID"
  end.

Definition handleDelete (e : entity) (change : Change.t) : M World unit :=
  match Change.entity_supabase_id change with
  | Some k =>
      if truthy_int (Some k) then
        res <- remote_call (supabase_soft_delete P e k) ;;
        match res with
        | Some error => throw error
        | None =>
            runAsync (sql_update e (id_is (Change.entity_local_id change))
                        (fun r => Some (mark_synced r)))
        end
      else
        runAsync (sql_update e (id_is (Change.entity_local_id change))
                    (fun r => Some (mark_synced r)))
  | None =>
      runAsync (sql_update e (id_is (Change.entity_local_id change))
                  (fun r => Some (mark_synced r)))
  end.

Definition syncChange (change : Change.t) : M World unit :=
  match JSON_parse P (Change.payload change) with
  | inl error => throw error
  | inr payload =>
      match Change.operation change with
      | INSERT => handleInsert (Change.entity change) payload change
      | UPDATE => handleUpdate (Change.entity change) payload change
      | DELETE => handleDelete (Change.entity change) change
      end
  end.

Definition handleSyncError (change : Change.t) (message : string) : M World unit :=
  runAsync (sql_record_error (Change.id change) message).

Definition clearSyncChange (changeId : Z) : M World unit :=
  runAsync (sql_delete_change changeId).

(** [SELECT * FROM sync_queue WHERE retry_count < ? ORDER BY timestamp ASC]. *)
Definition select_pending (q : list Change.t) : list Change.t :=
  order_by_timestamp P (filter pending q).

(** ** Pull *)

Definition insertRemoteItem (e : entity) (remoteItem : RemoteItem.t) : M World unit :=
  runAsync (sql_insert_or_ignore e (row_of_remote e remoteItem)).

Definition updateLocalFromRemote (e : entity) (remoteItem : RemoteItem.t)
    : M World unit :=
  runAsync (sql_update e (uuid_is (RemoteItem.uuid remoteItem))
              (assign_from_remote e remoteItem)).

(** [remoteTime] and [localTime] of [fetchEntityChanges]:
    [new Date(x.updated_at || x.created_at).getTime()]. *)
Definition remoteTime (i : RemoteItem.t) : option Z :=
  Date_getTime (js_or (RemoteItem.updated_at i) (RemoteItem.created_at i)).

Definition localTime (l : Row.t) : option Z :=
  Date_getTime (js_or (Some (Row.updated_at l)) (Some (Row.created_at l))).

(** [localItems.find((l) => l.uuid === remoteItem.uuid)]. *)
Definition find_local (localItems : list Row.t) (i : RemoteItem.t) : option Row.t :=
  find (uuid_is (RemoteItem.uuid i)) localItems.

(** The condition under which the remote version is applied:
    [remoteTime > localTime && localItem.is_synced]. *)
Definition remote_wins (i : RemoteItem.t) (l : Row.t) : bool :=
  time_gt (remoteTime i) (localTime l) && truthy_int (Some (Row.is_synced l)).

(** The body of the loop of [fetchEntityChanges] for one remote record. *)
Definition mergeRemoteItem (e : entity) (localItems : list Row.t)
    (remoteItem : RemoteItem.t) : M World unit :=
  let localItem := find_local localItems remoteItem in
  if truthy_str (RemoteItem.deleted_at remoteItem) then
    match localItem with
    | Some l =>
        if negb (truthy_str (Row.deleted_at l)) then
          runAsync (sql_update e (uuid_is (RemoteItem.uuid remoteItem))
                      (fun r => Some (with_tombstone (RemoteItem.deleted_at remoteItem) r)))
        else ret tt
    | None => ret tt
    end
  else
    match localItem with
    | None => insertRemoteItem e remoteItem
    | Some l =>
        if remote_wins remoteItem l then updateLocalFromRemote e remoteItem
        else ret tt
    end.

(** [fetchEntityChanges] once the remote records are fetched: read the
    active local rows, then merge every remote record inside one
    transaction. *)
Definition mergeRemoteItems (e : entity) (remoteItems : list RemoteItem.t)
    : M World unit :=
  d <- getDb ;;
  let localItems := filter active (table e d) in
  withTransactionAsync (forEach remoteItems (mergeRemoteItem e localItems)).

Definition fetchEntityChanges (e : entity) : M World unit :=
  res <- remote_call (supabase_select P e) ;;
  match res with
  | inl error => throw error
  | inr remoteItems => mergeRemoteItems e remoteItems
  end.

Definition fetchRemoteChanges : M World unit :=
  forEach [levels; offices; students]
    (fun e => try_catch (fetchEntityChanges e) (fun _ => ret tt)).

(** ** The coordinator *)

(** The methods run on the world; the body of [syncAll] also mutates its
    [result] object, which survives a throw. *)
Definition liftW {A : Type} (m : M World A) : M (SyncResult * World) A :=
  fun s =>
    match m (snd s) with
    | (o, w') => (o, (fst s, w'))
    end.

Definition modify_result (f : SyncResult -> SyncResult) : M (SyncResult * World) unit :=
  fun s => (Ok tt, (f (fst s), snd s)).

Definition count_synced (r : SyncResult) : SyncResult :=
  mkResult (success r) (synced r + 1) (failed r) (errors r).

Definition count_failed (message : string) (r : SyncResult) : SyncResult :=
  mkResult (success r) (synced r) (failed r + 1) (errors r ++ [message]).

Definition set_success (b : bool) (r : SyncResult) : SyncResult :=
  mkResult b (synced r) (failed r) (errors r).

Definition push_error (message : string) (r : SyncResult) : SyncResult :=
  mkResult (success r) (synced r) (failed r) (errors r ++ [message]).

(** One iteration of the push loop: the inner [try]/[catch]. *)
Definition processChange (change : Change.t) : M (SyncResult * World) unit :=
  try_catch
    (liftW (syncChange change) ;;
     liftW (clearSyncChange (Change.id change)) ;;
     modify_result count_synced)
    (fun message =>
       liftW (handleSyncError change message) ;;
       modify_result
         (count_failed
            (String.append (entity_name (Change.entity change))
               (String.append ": " message)))).

(** The body of the outer [try] of [syncAll]. *)
Definition syncCycle : M (SyncResult * World) unit :=
  changes <- liftW (d <- getDb ;; ret (select_pending (sync_queue d))) ;;
  forEach changes processChange ;;
  liftW fetchRemoteChanges ;;
  modify_result (fun r => set_success (failed r =? 0) r).

Definition rejected (message : string) : SyncResult :=
  mkResult false 0 0 [message].

Definition syncAll : M World SyncResult :=
  fun w =>
    if syncInProgress w then (Ok (rejected "Sync already in progress"), w)
    else if negb (isOnline w) then (Ok (rejected "Device is offline"), w)
    else
      let w1 := set_syncInProgress true w in
      let result := mkResult true 0 0 [] in
      match syncCycle (result, w1) with
      | (Ok _, (result', w2)) => (Ok result', set_syncInProgress false w2)
      | (Threw e, (result', w2)) =>
          (Ok (push_error e (set_success false result')),
           set_syncInProgress false w2)
      end.

(** [SELECT COUNT( * ) FROM sync_queue WHERE retry_count < ?]. *)
Definition getPendingSyncCount : M World Z :=
  d <- getDb ;;
  ret (Z.of_nat (List.length (filter pending (sync_queue d)))).

Definition clearFailedSyncs : M World unit :=
  runAsync sql_delete_failed.

End SyncManager.

(* ------------------------------------------------------------------ *)
(** * Notions used to state and prove the properties *)

(** [preserves I m]: whatever [m] does, returning or throwing, a state
    satisfying [I] is left in a state satisfying [I]. *)
Definition preserves {S A : Type} (I : S -> Prop) (m : M S A) : Prop :=
  forall s o s', m s = (o, s') -> I s -> I s'.

(** A statement keeps [J]. *)
Definition stmt_keeps (J : LocalDb -> Prop) (stmt : LocalDb -> outcome LocalDb) : Prop :=
  forall d d', J d -> stmt d = Ok d' -> J d'.

(** The store is initialised and satisfies [J]. *)
Definition on_db (P : Platform) (J : LocalDb -> Prop) (w : World P) : Prop :=
  exists d, db w = Some d /\ J d.
Arguments on_db {P} J w.

(** A property of the store that the [UPDATE]s of the entity tables keep,
    and one that their [INSERT OR IGNORE]s keep as well. *)
Definition entity_blind (J : LocalDb -> Prop) : Prop :=
  forall e wh st, stmt_keeps J (sql_update e wh st).

Definition pull_blind (J : LocalDb -> Prop) : Prop :=
  entity_blind J /\ forall e row, stmt_keeps J (sql_insert_or_ignore e row).

(** The queue after [handleSyncError], and the line pushed on
    [result.errors]. *)
Definition record_error (changeId : Z) (message : string) (q : list Change.t)
    : list Change.t :=
  map (fun c => if Change.id c =? changeId then bump_retry message c else c) q.

Definition failure_line (c : Change.t) (message : string) : string :=
  String.append (entity_name (Change.entity c)) (String.append ": " message).

(** In a cycle over queue [q], entry [a] is processed before entry [b]:
    the push loop runs over [select_pending q] from left to right. *)
Definition processed_before (P : Platform) (q : list Change.t) (a b : Change.t) : Prop :=
  exists l1 l2 l3, select_pending P q = l1 ++ a :: l2 ++ b :: l3.

(** What [updateLocalFromRemote] may write: the business columns and
    [updated_at] ([is_synced] apart). *)
Definition content (r : Row.t) :
    string * option string * option string * option string
    * option Z * option Z * string :=
  (Row.name r, Row.birth_date r, Row.phone r, Row.address r,
   Row.office_id r, Row.level_id r, Row.updated_at r).

(** The statement [mergeRemoteItem] runs on the store for one remote
    record; [Ok] when it runs none. *)
Definition merge_statement (P : Platform) (e : entity) (localItems : list Row.t)
    (i : RemoteItem.t) : LocalDb -> outcome LocalDb :=
  if truthy_str (RemoteItem.deleted_at i) then
    match find_local localItems i with
    | Some l =>
        if negb (truthy_str (Row.deleted_at l)) then
          sql_update e (uuid_is (RemoteItem.uuid i))
            (fun r => Some (with_tombstone (RemoteItem.deleted_at i) r))
        else @Ok LocalDb
    | None => @Ok LocalDb
    end
  else
    match find_local localItems i with
    | None => sql_insert_or_ignore e (row_of_remote e i)
    | Some l =>
        if remote_wins P i l then
          sql_update e (uuid_is (RemoteItem.uuid i)) (assign_from_remote e i)
        else @Ok LocalDb
    end.

(** The statements of the whole loop of [mergeRemoteItems], in order. *)
Fixpoint merge_all (P : Platform) (e : entity) (localItems : list Row.t)
    (items : list RemoteItem.t) (d : LocalDb) : outcome LocalDb :=
  match items with
  | [] => Ok d
  | i :: rest =>
      match merge_statement P e localItems i d with
      | Ok d' => merge_all P e localItems rest d'
      | Threw m => Threw m
      end
  end.

(** [updateLocalFromRemote] leaves these columns of a row alone. *)
Definition same_identity (r r' : Row.t) : Prop :=
  Row.id r' = Row.id r /\ Row.uuid r' = Row.uuid r
  /\ Row.supabase_id r' = Row.supabase_id r
  /\ Row.created_at r' = Row.created_at r
  /\ Row.deleted_at r' = Row.deleted_at r
  /\ Row.operation_type r' = Row.operation_type r.

(** The student-only columns of a row. *)
Definition student_columns (r : Row.t) :
    option string * option string * option string * option Z * option Z :=
  (Row.birth_date r, Row.phone r, Row.address r, Row.office_id r, Row.level_id r).

(** Remote record [i] has nothing left to do on store [d]: every active row
    with its [uuid] has been reconciled with it, that is, [i] is no
    tombstone and does not win over the row. *)
Definition settled (P : Platform) (e : entity) (i : RemoteItem.t) (d : LocalDb) : Prop :=
  forall row,
    In row (filter (uuid_is (RemoteItem.uuid i)) (table e d)) ->
    active row = true ->
    truthy_str (RemoteItem.deleted_at i) = false /\ remote_wins P i row = false.

(** The [INSERT OR IGNORE] for remote record [i] is skipped on store [d]
    whatever rowid it is given: a [NOT NULL] column of the row is missing,
    or a row of the table holds the record's [uuid] or its remote
    identifier. *)
Definition blocked (e : entity) (i : RemoteItem.t) (d : LocalDb) : Prop :=
  forall k r,
    row_of_remote e i k = Some r ->
    exists x,
      In x (table e d)
      /\ (Row.uuid x = Row.uuid r
          \/ exists s, Row.supabase_id x = Some s /\ Row.supabase_id r = Some s).

(** Remote record [i] has found its place in store [d]: an active row
    carries its [uuid], or it is a tombstone, or its insert is blocked. *)
Definition placed (e : entity) (i : RemoteItem.t) (d : LocalDb) : Prop :=
  (exists row, In row (table e d)
               /\ uuid_is (RemoteItem.uuid i) row = true /\ active row = true)
  \/ truthy_str (RemoteItem.deleted_at i) = true
  \/ blocked e i d.

(** Store [d] holds exactly one row with the [uuid] of remote record [i],
    and it is the row [insertRemoteItem] writes for [i]. *)
Definition inserted_from_remote (e : entity) (i : RemoteItem.t) (d : LocalDb) : Prop :=
  exists k row,
    row_of_remote e i k = Some row
    /\ filter (uuid_is (RemoteItem.uuid i)) (table e d) = [row]
    /\ Row.supabase_id row = RemoteItem.id i
    /\ Row.is_synced row = 1
    /\ Row.operation_type row = None
    /\ Row.deleted_at row = None.

(* ------------------------------------------------------------------ *)
(** * The repositories: local mutations and their queue entries

    [lib/localDb/baseRepository.ts] with its three subclasses
    ([officesRepository.ts], [levelsRepository.ts], [studentsRepository.ts]). *)

(** [Partial<T>]: the fields a caller passes to [insert] and [update];
    [None] is a missing (or null) property. *)
Module Item.
Record t : Type := mk {
  name : option string;
  birth_date : option string;
  phone : option string;
  address : option string;
  office_id : option Z;
  level_id : option Z;
  supabase_id : option Z
}.
End Item.

(** The object [addToSyncQueue] hands to [JSON.stringify]:
    [{...payload, uuid, updated_at: timestamp}], where [payload] is the item
    of [insert] and [update] or [{deleted_at: now}] of [delete]. *)
Inductive payload_object : Type :=
| ItemPayload (item : Item.t) (uuid updated_at : string)
| DeletedPayload (deleted_at uuid updated_at : string).

(** The JavaScript built-ins the repositories call. *)
Record Runtime : Type := mkRuntime {
  String_trim : string -> string;
  JSON_stringify : payload_object -> string
}.

(** The clock readings SQLite fills in when [addToSyncQueue] inserts a
    row: [strftime('%s','now')] for [timestamp] and [datetime('now')] for
    [created_at]. *)
Record QueueDefaults : Type := mkQueueDefaults {
  q_timestamp : Z;
  q_created_at : string
}.

(** [x || null] on an integer-or-null. *)
Definition js_or_null (x : option Z) : option Z :=
  if truthy_int x then x else None.

(** A plain [INSERT INTO e ...]: any constraint the new row breaks fails
    the statement, which then leaves the store, the counter included, as
    it was.  Returns the store and [lastInsertRowId]. *)
Definition sql_insert (e : entity) (row : Z -> option Row.t) (d : LocalDb)
    : outcome (LocalDb * Z) :=
  let k := next_rowid e d in
  match row k with
  | None => Threw "NOT NULL constraint failed"
  | Some r =>
      if existsb (conflict e r) (table e d) then Threw "UNIQUE constraint failed"
      else
        let d' := set_sequence e k (set_table e (table e d ++ [r]) d) in
        if fk_ok d' then Ok (d', Row.id r)
        else Threw "FOREIGN KEY constraint failed"
  end.

(** The largest [id] present in the queue, and the [id] [AUTOINCREMENT]
    hands out for the next entry: one more than the largest of the queue's
    counter and the ids present (entries are deleted once pushed; their
    ids are not handed out again). *)
Definition largest_change_id (q : list Change.t) : Z :=
  fold_right (fun c m => Z.max (Change.id c) m) 0 q.

Definition next_queue_id (d : LocalDb) : Z :=
  1 + Z.max (queue_seq d) (largest_change_id (sync_queue d)).

(** [INSERT INTO sync_queue (entity, entity_local_id, entity_uuid,
    entity_supabase_id, operation, payload) VALUES (...)]; [retry_count]
    defaults to 0 and [last_error] to NULL.  Every [NOT NULL] column gets a
    value and the [id] is new, so the statement cannot fail. *)
(** The store with entry [c] appended to the queue under the [id] it was
    given. *)
Definition with_entry (c : Change.t) (d : LocalDb) : LocalDb :=
  mkDb (levels_tbl d) (offices_tbl d) (students_tbl d) (sync_queue d ++ [c])
    (levels_seq d) (offices_seq d) (students_seq d) (Change.id c).

Definition sql_enqueue (defaults : QueueDefaults) (e : entity) (localId : Z)
    (uuid : string) (supabaseId : option Z) (op : operation) (payload : string)
    (d : LocalDb) : outcome LocalDb :=
  Ok (with_entry
        (Change.mk (next_queue_id d) e (Some localId) (Some uuid) supabaseId
           op payload (q_timestamp defaults) 0 None (q_created_at defaults))
        d).

(** [SET deleted_at = ?, is_synced = 0, operation_type = "DELETE",
    updated_at = ?] of [delete]. *)
Definition soft_deleted (now : string) (r : Row.t) : Row.t :=
  Row.mk (Row.id r) (Row.uuid r) (Row.name r) (Row.birth_date r) (Row.phone r)
    (Row.address r) (Row.office_id r) (Row.level_id r) (Row.supabase_id r)
    0 (Some DELETE) (Row.created_at r) now (Some now).

(** Rows by ascending [id] ([ORDER BY id ASC]). *)
Fixpoint insert_row_by_id (x : Row.t) (l : list Row.t) : list Row.t :=
  match l with
  | [] => [x]
  | y :: rest =>
      if Row.id x <=? Row.id y then x :: l else y :: insert_row_by_id x rest
  end.

Definition order_by_id (l : list Row.t) : list Row.t :=
  fold_right insert_row_by_id [] l.

Section Repositories.

Variable P : Platform.
Variable R : Runtime.

(** [const db = getDb(); const result = await db.runAsync(INSERT ...)]
    with [result.lastInsertRowId]. *)
Definition runInsert (stmt : LocalDb -> outcome (LocalDb * Z)) : M (World P) Z :=
  d <- getDb (P:=P) ;;
  match stmt d with
  | Ok (d', rowid) => fun w => (Ok rowid, set_db d' w)
  | Threw e => throw e
  end.

(** [item.name?.trim()]. *)
Definition trimmed_name (item : Item.t) : option string :=
  option_map (String_trim R) (Item.name item).

(** The abstract methods of [BaseRepository], with [tableName] and
    [displayName]. *)
Record Repository : Type := mkRepository {
  tableName : entity;
  displayName : string;
  checkDuplicates : Item.t -> option Z -> M (World P) unit;
  performInsert : Item.t -> string -> string -> M (World P) Z;
  performUpdate : Z -> Item.t -> string -> M (World P) unit;
  insertFromRemote : RemoteItem.t -> string -> string -> M (World P) unit;
  updateFromRemote : RemoteItem.t -> M (World P) unit
}.

(** ** Offices and levels: the two repositories of named records *)

(** [AND id != ?] when [excludeId] is truthy. *)
Definition not_excluded (excludeId : option Z) (r : Row.t) : bool :=
  if truthy_int excludeId then negb (id_is excludeId r) else true.

(** [checkDuplicates] of [OfficesRepository] and [LevelsRepository]: the
    same code up to the table and the two messages. *)
Definition checkDuplicates_named (e : entity) (required duplicate : string)
    (item : Item.t) (excludeId : option Z) : M (World P) unit :=
  match trimmed_name item with
  | None => throw required
  | Some n =>
      if String.eqb n EmptyString then throw required
      else
        d <- getDb (P:=P) ;;
        match find (fun r => String.eqb (Row.name r) n
                             && not_excluded excludeId r && active r)
                   (table e d) with
        | Some _ => throw duplicate
        | None => ret tt
        end
  end.

(** The row of [performInsert]: [supabase_id || null],
    [supabase_id ? 1 : 0], [supabase_id ? null : 'INSERT'], and [now] for
    both timestamps. *)
Definition new_named_row (item : Item.t) (uuid now : string) (rowid : Z)
    : option Row.t :=
  match trimmed_name item with
  | Some n =>
      Some (Row.mk rowid uuid n None None None None None
              (js_or_null (Item.supabase_id item))
              (if truthy_int (Item.supabase_id item) then 1 else 0)
              (if truthy_int (Item.supabase_id item) then None else Some INSERT)
              now now None)
  | None => None
  end.

(** [SET name = ?, is_synced = 0, operation_type = "UPDATE",
    updated_at = ?]. *)
Definition edit_named_row (item : Item.t) (now : string) (r : Row.t)
    : option Row.t :=
  match trimmed_name item with
  | Some n =>
      Some (Row.mk (Row.id r) (Row.uuid r) n (Row.birth_date r) (Row.phone r)
              (Row.address r) (Row.office_id r) (Row.level_id r)
              (Row.supabase_id r) 0 (Some UPDATE) (Row.created_at r) now
              (Row.deleted_at r))
  | None => None
  end.

(** The row of [insertFromRemote]: [created_at || now],
    [updated_at || created_at || now], [deleted_at || null]. *)
Definition remote_named_row (i : RemoteItem.t) (now1 now2 : string) (rowid : Z)
    : option Row.t :=
  match RemoteItem.uuid i, RemoteItem.name i,
        js_or (RemoteItem.created_at i) (Some now1),
        js_or (js_or (RemoteItem.updated_at i) (RemoteItem.created_at i)) (Some now2)
  with
  | Some u, Some n, Some c, Some up =>
      Some (Row.mk rowid u n None None None None None (RemoteItem.id i) 1 None
              c up (js_or (RemoteItem.deleted_at i) None))
  | _, _, _, _ => None
  end.

(** [SET name = ?, updated_at = ?, is_synced = 1, operation_type = NULL]
    of [updateFromRemote]. *)
Definition overwrite_named_row (i : RemoteItem.t) (r : Row.t) : option Row.t :=
  match RemoteItem.name i,
        js_or (RemoteItem.updated_at i) (RemoteItem.created_at i) with
  | Some n, Some u =>
      Some (Row.mk (Row.id r) (Row.uuid r) n (Row.birth_date r) (Row.phone r)
              (Row.address r) (Row.office_id r) (Row.level_id r)
              (Row.supabase_id r) 1 None (Row.created_at r) u (Row.deleted_at r))
  | _, _ => None
  end.

Definition namedRepository (e : entity) (display required duplicate : string)
    : Repository :=
  mkRepository e display
    (checkDuplicates_named e required duplicate)
    (fun item uuid now => runInsert (sql_insert e (new_named_row item uuid now)))
    (fun id item now =>
       runAsync (sql_update e (id_is (Some id)) (edit_named_row item now)))
    (fun i now1 now2 =>
       runAsync (sql_insert_or_ignore e (remote_named_row i now1 now2)))
    (fun i =>
       runAsync (sql_update e (uuid_is (RemoteItem.uuid i)) (overwrite_named_row i))).

Definition officesRepository : Repository :=
  namedRepository offices "المركز" "يرجى إدخال اسم المركز" "اسم المركز موجود بالفعل".

Definition levelsRepository : Repository :=
  namedRepository levels "المستوى" "يرجى إدخال اسم المستوى" "اسم المستوى موجود بالفعل".

(** ** Students *)

Definition checkDuplicates_students (item : Item.t) (excludeId : option Z)
    : M (World P) unit :=
  match trimmed_name item with
  | None => throw "يرجى إدخال اسم الطالب"
  | Some n =>
      if String.eqb n EmptyString then throw "يرجى إدخال اسم الطالب"
      else if negb (truthy_int (Item.office_id item)) then throw "يرجى اختيار المركز"
      else if negb (truthy_int (Item.level_id item)) then throw "يرجى اختيار المستوى"
      else
        d <- getDb (P:=P) ;;
        match find (fun r => String.eqb (Row.name r) n
                             && opt_eqb Z.eqb (Row.office_id r) (Item.office_id item)
                             && opt_eqb Z.eqb (Row.level_id r) (Item.level_id item)
                             && not_excluded excludeId r && active r)
                   (students_tbl d) with
        | Some _ => throw "اسم الطالب موجود بالفعل في هذا المركز والمستوى"
        | None => ret tt
        end
  end.

Definition new_student_row (item : Item.t) (uuid now : string) (rowid : Z)
    : option Row.t :=
  match trimmed_name item, Item.office_id item, Item.level_id item with
  | Some n, Some o, Some l =>
      Some (Row.mk rowid uuid n (js_or (Item.birth_date item) None)
              (js_or (Item.phone item) None) (js_or (Item.address item) None)
              (Some o) (Some l)
              (js_or_null (Item.supabase_id item))
              (if truthy_int (Item.supabase_id item) then 1 else 0)
              (if truthy_int (Item.supabase_id item) then None else Some INSERT)
              now now None)
  | _, _, _ => None
  end.

Definition edit_student_row (item : Item.t) (now : string) (r : Row.t)
    : option Row.t :=
  match trimmed_name item, Item.office_id item, Item.level_id item with
  | Some n, Some o, Some l =>
      Some (Row.mk (Row.id r) (Row.uuid r) n (js_or (Item.birth_date item) None)
              (js_or (Item.phone item) None) (js_or (Item.address item) None)
              (Some o) (Some l) (Row.supabase_id r) 0 (Some UPDATE)
              (Row.created_at r) now (Row.deleted_at r))
  | _, _, _ => None
  end.

Definition remote_student_row (i : RemoteItem.t) (now1 now2 : string) (rowid : Z)
    : option Row.t :=
  match RemoteItem.uuid i, RemoteItem.name i,
        RemoteItem.office_id i, RemoteItem.level_id i with
  | Some u, Some n, Some o, Some l =>
      match js_or (RemoteItem.created_at i) (Some now1),
            js_or (js_or (RemoteItem.updated_at i) (RemoteItem.created_at i))
                  (Some now2) with
      | Some c, Some up =>
          Some (Row.mk rowid u n (RemoteItem.birth_date i) (RemoteItem.phone i)
                  (RemoteItem.address i) (Some o) (Some l) (RemoteItem.id i) 1 None
                  c up (js_or (RemoteItem.deleted_at i) None))
      | _, _ => None
      end
  | _, _, _, _ => None
  end.

Definition overwrite_student_row (i : RemoteItem.t) (r : Row.t) : option Row.t :=
  match RemoteItem.name i,
        js_or (RemoteItem.updated_at i) (RemoteItem.created_at i),
        RemoteItem.office_id i, RemoteItem.level_id i with
  | Some n, Some u, Some o, Some l =>
      Some (Row.mk (Row.id r) (Row.uuid r) n (RemoteItem.birth_date i)
              (RemoteItem.phone i) (RemoteItem.address i) (Some o) (Some l)
              (Row.supabase_id r) 1 None (Row.created_at r) u (Row.deleted_at r))
  | _, _, _, _ => None
  end.

Definition studentsRepository : Repository :=
  mkRepository students "الطالب"
    checkDuplicates_students
    (fun item uuid now => runInsert (sql_insert students (new_student_row item uuid now)))
    (fun id item now =>
       runAsync (sql_update students (id_is (Some id)) (edit_student_row item now)))
    (fun i now1 now2 =>
       runAsync (sql_insert_or_ignore students (remote_student_row i now1 now2)))
    (fun i =>
       runAsync (sql_update students (uuid_is (RemoteItem.uuid i))
                   (overwrite_student_row i))).

(** ** The methods of [BaseRepository] *)

Variable repo : Repository.

(** [SELECT * FROM t WHERE (deleted_at IS NULL OR deleted_at = '')
    ORDER BY id ASC]. *)
Definition getAll : M (World P) (list Row.t) :=
  d <- getDb (P:=P) ;;
  ret (order_by_id (filter active (table (tableName repo) d))).

Definition getById (id : Z) : M (World P) (option Row.t) :=
  d <- getDb (P:=P) ;;
  ret (find (fun r => id_is (Some id) r && active r) (table (tableName repo) d)).

Definition getByUuid (uuid : option string) : M (World P) (option Row.t) :=
  d <- getDb (P:=P) ;;
  ret (find (fun r => uuid_is uuid r && active r) (table (tableName repo) d)).

Definition addToSyncQueue (defaults : QueueDefaults) (op : operation)
    (localId : Z) (uuid : string) (supabaseId : option Z)
    (payload : payload_object) : M (World P) unit :=
  runAsync (sql_enqueue defaults (tableName repo) localId uuid
              (js_or_null supabaseId) op (JSON_stringify R payload)).

(** [insert(item)]; [now] and [newUuid] are what
    [new Date().toISOString()] and [uuidv4()] return. *)
Definition insert (item : Item.t) (now newUuid : string)
    (defaults : QueueDefaults) : M (World P) (Z * string) :=
  _ <- getDb (P:=P) ;;
  withTransactionAsync
    (checkDuplicates repo item None ;;
     insertId <- performInsert repo item newUuid now ;;
     (if negb (truthy_int (Item.supabase_id item)) then
        addToSyncQueue defaults INSERT insertId newUuid None
          (ItemPayload item newUuid now)
      else ret tt) ;;
     ret (insertId, newUuid)).

Definition not_found : string := String.append (displayName repo) " غير موجود محلياً".

Definition update (id : Z) (item : Item.t) (now : string)
    (defaults : QueueDefaults) : M (World P) unit :=
  _ <- getDb (P:=P) ;;
  withTransactionAsync
    (existing <- getById id ;;
     match existing with
     | None => throw not_found
     | Some ex =>
         checkDuplicates repo item (Some id) ;;
         performUpdate repo id item now ;;
         addToSyncQueue defaults UPDATE id (Row.uuid ex) (Row.supabase_id ex)
           (ItemPayload item (Row.uuid ex) now)
     end).

(** [delete(id)]: the soft delete. *)
Definition delete (id : Z) (now : string) (defaults : QueueDefaults)
    : M (World P) unit :=
  _ <- getDb (P:=P) ;;
  withTransactionAsync
    (existing <- getById id ;;
     match existing with
     | None => throw not_found
     | Some ex =>
         runAsync (sql_update (tableName repo) (id_is (Some id))
                     (fun r => Some (soft_deleted now r))) ;;
         addToSyncQueue defaults DELETE id (Row.uuid ex) (Row.supabase_id ex)
           (DeletedPayload now (Row.uuid ex) now)
     end).

Definition markAsSynced (id : Z) : M (World P) unit :=
  runAsync (sql_update (tableName repo) (id_is (Some id))
              (fun r => Some (mark_synced r))).

Definition updateSupabaseId (localId supabaseId : Z) : M (World P) unit :=
  runAsync (sql_update (tableName repo) (id_is (Some localId))
              (fun r => Some (with_supabase_id supabaseId r))).

(** [SELECT * FROM sync_queue WHERE entity = ? ORDER BY timestamp ASC]. *)
Definition getUnsynced : M (World P) (list Change.t) :=
  d <- getDb (P:=P) ;;
  ret (order_by_timestamp P
         (filter (fun c => String.eqb (entity_name (Change.entity c))
                             (entity_name (tableName repo)))
                 (sync_queue d))).

Definition clearSyncQueue (changeId : Z) : M (World P) unit :=
  runAsync (sql_delete_change changeId).

(** [mergeRemote(remoteItem)]; [now1] and [now2] are the two readings of
    the clock [insertFromRemote] may take. *)
Definition mergeRemote (remoteItem : RemoteItem.t) (now1 now2 : string)
    : M (World P) unit :=
  _ <- getDb (P:=P) ;;
  existing <- getByUuid (RemoteItem.uuid remoteItem) ;;
  match existing with
  | None => insertFromRemote repo remoteItem now1 now2
  | Some _ => updateFromRemote repo remoteItem
  end.

End Repositories.

(* ------------------------------------------------------------------ *)
(** * The connectivity listener *)

Section NetworkListener.

Variable P : Platform.

Definition set_isOnline (b : bool) (w : World P) : World P :=
  mkWorld P (remote_st w) (db w) b (syncInProgress w).

(** The callback of [NetInfo.addEventListener]: [isConnected] is
    [state.isConnected], null while the state is unknown.  It returns the
    result of the cycle it started, if it started one. *)
Definition onNetInfo (isConnected : option bool) : M (World P) (option SyncResult) :=
  fun w =>
    let wasOffline := negb (isOnline w) in
    let w1 := set_isOnline (match isConnected with Some b => b | None => false end) w in
    if wasOffline && isOnline w1 then
      match syncAll w1 with
      | (Ok r, w2) => (Ok (Some r), w2)
      | (Threw e, w2) => (Ok None, w2)
      end
    else (Ok None, w1).

End NetworkListener.

(* ------------------------------------------------------------------ *)
(** * Further notions used in the properties *)

(** The two private flags of the manager have these values. *)
Definition flags_are (P : Platform) (online syncing : bool) (w : World P) : Prop :=
  isOnline w = online /\ syncInProgress w = syncing.
Arguments flags_are {P} online syncing w.

(* ------------------------------------------------------------------ *)
(** * A scripted platform, to run the model on concrete stores *)

Module Scripted.

(** The calls the backend received, oldest first. *)
Inductive call : Type :=
| InsertCall (e : entity) (payload : string)
| UpdateCall (e : entity) (payload : string) (k : Z)
| DeleteCall (e : entity) (k : Z)
| SelectCall (e : entity).

(** A stand-in for [Date] parsing: the digits of an ISO-8601 text read as
    one number (the separators [-], [:], [.], [T], [Z] and the blank are
    skipped, anything else is an invalid date).  On UTC texts of one shape
    it orders as [getTime()] does. *)
Definition digit_of (c : Ascii.ascii) : option Z :=
  let n := Z.of_nat (Ascii.nat_of_ascii c) in
  if (48 <=? n) && (n <=? 57) then Some (n - 48) else None.

Definition separator (c : Ascii.ascii) : bool :=
  let n := Z.of_nat (Ascii.nat_of_ascii c) in
  (n =? 45) || (n =? 58) || (n =? 46) || (n =? 84) || (n =? 90) || (n =? 32).

Fixpoint read_digits (s : string) (acc : Z) : option Z :=
  match s with
  | EmptyString => Some acc
  | String c rest =>
      match digit_of c with
      | Some k => read_digits rest (10 * acc + k)
      | None => if separator c then read_digits rest acc else None
      end
  end.

Definition parse_date (s : string) : option Z := read_digits s 0.

(** Insertion sort by a total preorder [leb]; it is stable. *)
Fixpoint insert_by (leb : Change.t -> Change.t -> bool) (x : Change.t)
    (l : list Change.t) : list Change.t :=
  match l with
  | [] => [x]
  | y :: rest => if leb x y then x :: l else y :: insert_by leb x rest
  end.

Fixpoint sort_by (leb : Change.t -> Change.t -> bool) (l : list Change.t)
    : list Change.t :=
  match l with
  | [] => []
  | x :: rest => insert_by leb x (sort_by leb rest)
  end.

(** An engine that scans the table in rowid order and sorts on
    [timestamp] alone: rows of one second stay in rowid order. *)
Definition by_timestamp (a b : Change.t) : bool :=
  Change.timestamp a <=? Change.timestamp b.

(** An engine that serves [WHERE retry_count < ?] from
    [idx_sync_queue_retry] and then sorts on [timestamp]: rows of one
    second come out by [retry_count], then rowid. *)
Definition by_timestamp_after_retry_index (a b : Change.t) : bool :=
  (Change.timestamp a <? Change.timestamp b)
  || ((Change.timestamp a =? Change.timestamp b)
      && ((Change.retry_count a <? Change.retry_count b)
          || ((Change.retry_count a =? Change.retry_count b)
              && (Change.id a <=? Change.id b)))).

(** The platform: the backend logs every call; [fails] decides which
    calls it rejects and with what message, [rows] is what a select
    returns, an accepted insert is given the identifier
    [100 + number of earlier calls]. *)
Definition platform (fails : call -> option string)
    (rows : entity -> list RemoteItem.t)
    (leb : Change.t -> Change.t -> bool) : Platform :=
  @mkPlatform (list call) string
    (fun text => inr text)
    (fun e p log =>
       (match fails (InsertCall e p) with
        | Some m => inl m
        | None => inr (100 + Z.of_nat (List.length log))
        end, log ++ [InsertCall e p]))
    (fun e p k log => (fails (UpdateCall e p k), log ++ [UpdateCall e p k]))
    (fun e k log => (fails (DeleteCall e k), log ++ [DeleteCall e k]))
    (fun e log =>
       (match fails (SelectCall e) with
        | Some m => inl m
        | None => inr (rows e)
        end, log ++ [SelectCall e]))
    parse_date
    (sort_by leb).

Definition never_fails (c : call) : option string := None.

Definition network_down (c : call) : option string := Some "Network request failed".

Definition no_rows (e : entity) : list RemoteItem.t := [].

Definition emptyDb : LocalDb := mkDb [] [] [] [] 0 0 0 0.

(** A stand-in for [String.prototype.trim], for texts whose only white
    space is the blank. *)
Fixpoint trim_start (s : string) : string :=
  match s with
  | String c rest => if Ascii.eqb c Ascii.Space then trim_start rest else s
  | EmptyString => EmptyString
  end.

Fixpoint trim_end (s : string) : string :=
  match s with
  | EmptyString => EmptyString
  | String c rest =>
      match trim_end rest with
      | EmptyString => if Ascii.eqb c Ascii.Space then EmptyString else String c EmptyString
      | t => String c t
      end
  end.

Definition trim (s : string) : string := trim_end (trim_start s).

(** A stand-in for [JSON.stringify] on the objects of [addToSyncQueue]:
    the name, [uuid] and [updated_at], or [deleted_at], [uuid] and
    [updated_at] (the quotes are left out, as are the other fields). *)
Definition stringify (p : payload_object) : string :=
  match p with
  | ItemPayload item u t =>
      String.append "{name:"
        (String.append (match Item.name item with Some n => n | None => "null" end)
           (String.append ",uuid:"
              (String.append u (String.append ",updated_at:" (String.append t "}")))))
  | DeletedPayload del u t =>
      String.append "{deleted_at:"
        (String.append del
           (String.append ",uuid:"
              (String.append u (String.append ",updated_at:" (String.append t "}")))))
  end.

Definition runtime : Runtime := mkRuntime trim stringify.

End Scripted.

(** ** Worlds of the scenarios *)

Module Scenario.
Import Scripted.

(** A backend that accepts every call and holds no record. *)
Definition quiet : Platform := platform never_fails no_rows by_timestamp.

(** A backend out of reach: every call fails. *)
Definition unreachable : Platform := platform network_down no_rows by_timestamp.

(** An office created offline and not pushed yet, and its queue entry
    (the quotes of the JSON text are left out). *)
Definition office_U1 : Row.t :=
  Row.mk 1 "U1" "Main office" None None None None None None 0 (Some INSERT)
    "2024-01-01T10:00:00Z" "2024-01-01T10:00:00Z" None.

Definition insert_U1 : Change.t :=
  Change.mk 1 offices (Some 1) (Some "U1") None INSERT
    "{name:Main office,uuid:U1,updated_at:2024-01-01T10:00:00Z}"
    1704103200 0 None "2024-01-01 10:00:00".

(** An edit of the same office made while it still has no remote
    identifier. *)
Definition update_U1 : Change.t :=
  Change.mk 2 offices (Some 1) (Some "U1") None UPDATE
    "{name:Head office,uuid:U1,updated_at:2024-01-01T10:00:05Z}"
    1704103205 0 None "2024-01-01 10:00:05".

(** An entry that used up its retries. *)
Definition dead_U9 : Change.t :=
  Change.mk 7 levels (Some 9) (Some "U9") (Some 90) UPDATE
    "{name:Level 9,uuid:U9,updated_at:2023-12-31T08:00:00Z}"
    1704009600 3 (Some "Network request failed") "2023-12-31 08:00:00".

Definition offline_db : LocalDb :=
  mkDb [] [office_U1] [] [insert_U1; update_U1; dead_U9] 0 1 0 7.

(** A cycle is already running on an online device. *)
Definition busy_world : World quiet := mkWorld quiet [] (Some offline_db) true true.

(** The device is back online and idle; the backend accepts. *)
Definition idle_world : World quiet := mkWorld quiet [] (Some offline_db) true false.

(** The device believes it is online, but every call fails. *)
Definition cut_off_world : World unreachable :=
  mkWorld unreachable [] (Some offline_db) true false.

(** ** Pull *)

(** A pushed office, in step with the backend. *)
Definition office_U2 : Row.t :=
  Row.mk 2 "U2" "Branch" None None None None None (Some 20) 1 None
    "2024-01-01T09:00:00Z" "2024-01-02T09:00:00Z" None.

(** The backend's newer version of it. *)
Definition remote_U2 : RemoteItem.t :=
  RemoteItem.mk (Some 20) (Some "U2") (Some "Branch (renamed)") None None None
    None None (Some "2024-01-01T09:00:00Z") (Some "2024-01-03T09:00:00Z") None.

(** A remote record with the uuid of the unpushed office [U1], newer than
    the local row. *)
Definition remote_U1 : RemoteItem.t :=
  RemoteItem.mk (Some 10) (Some "U1") (Some "Main office (remote)") None None None
    None None (Some "2024-01-01T10:00:00Z") (Some "2024-01-05T10:00:00Z") None.

(** The same record, deleted on the backend. *)
Definition remote_U1_deleted : RemoteItem.t :=
  RemoteItem.mk (Some 10) (Some "U1") (Some "Main office") None None None
    None None (Some "2024-01-01T10:00:00Z") (Some "2024-01-05T10:00:00Z")
    (Some "2024-01-05T10:00:00Z").

Definition pull_db : LocalDb :=
  mkDb [] [office_U1; office_U2] [] [insert_U1] 0 2 0 1.

(** A backend that accepts every call and returns [rows] for [offices]. *)
Definition backend (rows : list RemoteItem.t) : Platform :=
  platform never_fails
    (fun e => match e with offices => rows | _ => [] end) by_timestamp.

(** The backend holds newer versions of both offices. *)
Definition newer : Platform := backend [remote_U1; remote_U2].

Definition pull_world : World newer := mkWorld newer [] (Some pull_db) true false.

(** The backend holds a tombstone for the unpushed office [U1]. *)
Definition deleted_U1 : Platform := backend [remote_U1_deleted].

Definition deleted_U1_world : World deleted_U1 :=
  mkWorld deleted_U1 [] (Some pull_db) true false.

(** Two versions of one office on the backend, both with the [uuid] [A]:
    the list a fetch returns holds the record twice. *)
Definition remote_A : RemoteItem.t :=
  RemoteItem.mk (Some 12) (Some "A") (Some "North") None None None
    None None (Some "2024-01-02T00:00:00Z") (Some "2024-01-02T00:00:00Z") None.

Definition remote_A_later : RemoteItem.t :=
  RemoteItem.mk (Some 12) (Some "A") (Some "North (renamed)") None None None
    None None (Some "2024-01-02T00:00:00Z") (Some "2024-01-03T00:00:00Z") None.

Definition twice : Platform := backend [remote_A; remote_A_later].

Definition twice_world : World twice := mkWorld twice [] (Some emptyDb) true false.

(** ** Two edits in one second *)

(** The engine serves the queue from the index on [retry_count]. *)
Definition indexed : Platform :=
  platform never_fails no_rows by_timestamp_after_retry_index.

Definition office_U2_edited : Row.t :=
  Row.mk 2 "U2" "Branch B" None None None None None (Some 20) 0 (Some UPDATE)
    "2024-01-01T09:00:00Z" "2024-01-02T10:06:40Z" None.

(** Two edits of office [U2] enqueued in the same second, [edit_A] first;
    [edit_A] has already failed once. *)
Definition edit_A : Change.t :=
  Change.mk 1 offices (Some 2) (Some "U2") (Some 20) UPDATE
    "{name:Branch A,uuid:U2,updated_at:2024-01-02T10:06:40.100Z}"
    1704190000 1 (Some "Network request failed") "2024-01-02 10:06:40".

Definition edit_B : Change.t :=
  Change.mk 2 offices (Some 2) (Some "U2") (Some 20) UPDATE
    "{name:Branch B,uuid:U2,updated_at:2024-01-02T10:06:40.900Z}"
    1704190000 0 None "2024-01-02 10:06:40".

Definition same_second_db : LocalDb :=
  mkDb [] [office_U2_edited] [] [edit_A; edit_B] 0 2 0 2.

Definition same_second_world : World indexed :=
  mkWorld indexed [] (Some same_second_db) true false.

(** The backend holds a tombstone for office [U2], which was edited
    locally and not pushed yet. *)
Definition remote_U2_deleted : RemoteItem.t :=
  RemoteItem.mk (Some 20) (Some "U2") (Some "Branch") None None None
    None None (Some "2024-01-01T09:00:00Z") (Some "2024-01-04T09:00:00Z")
    (Some "2024-01-04T09:00:00Z").

Definition deleted_U2 : Platform := backend [remote_U2_deleted].

Definition edited_world : World deleted_U2 :=
  mkWorld deleted_U2 [] (Some same_second_db) true false.

(** ** Local mutations *)

(** The clock readings SQLite fills in for the next queue entry. *)
Definition next_entry : QueueDefaults :=
  mkQueueDefaults 1704103300 "2024-01-01 10:01:40".

(** A new office typed with blanks around its name. *)
Definition annex : Item.t :=
  Item.mk (Some "  Annex ") None None None None None None.

(** An item with the name of the office [U1]. *)
Definition main_again : Item.t :=
  Item.mk (Some "Main office ") None None None None None None.

(** A new name for the office [U1]. *)
Definition head_office : Item.t :=
  Item.mk (Some "Head office") None None None None None None.

(** A student for the office and the level with the remote identifier 1. *)
Definition pupil : Item.t :=
  Item.mk (Some "Amina") None None None (Some 1) (Some 1) None.


(** The device is offline and idle. *)
Definition asleep_world : World quiet := mkWorld quiet [] (Some offline_db) false false.

(** [initDb] has not run yet. *)
Definition cold_world : World quiet := mkWorld quiet [] None true false.

(** The office [U2], soft-deleted locally after it was pushed. *)
Definition closed_U2 : Row.t :=
  Row.mk 2 "U2" "Branch" None None None None None (Some 20) 1 None
    "2024-01-01T09:00:00Z" "2024-01-02T09:00:00Z" (Some "2024-01-02T09:00:00Z").

Definition closed_db : LocalDb := mkDb [] [closed_U2] [] [] 0 2 0 0.

Definition closed_world : World newer := mkWorld newer [] (Some closed_db) true false.

End Scenario.

(* ------------------------------------------------------------------ *)
(** * Reasoning about computations *)

Lemma preserves_ret {S A : Type} (I : S -> Prop) (a : A) : preserves I (ret a).
Proof. intros s o s' H; inversion H; auto. Qed.

Lemma preserves_throw {S A : Type} (I : S -> Prop) (e : string) :
  preserves I (@throw S A e).
Proof. intros s o s' H; inversion H; auto. Qed.

Lemma preserves_bind {S A B : Type} (I : S -> Prop) (m : M S A) (k : A -> M S B) :
  preserves I m -> (forall a, preserves I (k a)) -> preserves I (bind m k).
Proof.
  intros Hm Hk s o s' H Hs. unfold bind in H.
  destruct (m s) as [[a|e] s1] eqn:E.
  - eapply Hk; eauto.
  - inversion H; subst. eapply Hm; eauto.
Qed.

Lemma preserves_try_catch {S A : Type} (I : S -> Prop) (m : M S A) h :
  preserves I m -> (forall e, preserves I (h e)) -> preserves I (try_catch m h).
Proof.
  intros Hm Hh s o s' H Hs. unfold try_catch in H.
  destruct (m s) as [[a|e] s1] eqn:E.
  - inversion H; subst. eapply Hm; eauto.
  - eapply Hh; eauto.
Qed.

Lemma preserves_forEach {S A : Type} (I : S -> Prop) (l : list A) body :
  (forall x, In x l -> preserves I (body x)) -> preserves I (forEach l body).
Proof.
  induction l as [|x rest IH]; intros Hb; simpl.
  - apply preserves_ret.
  - apply preserves_bind.
    + apply Hb; left; reflexivity.
    + intros _. apply IH. intros y Hy. apply Hb; right; exact Hy.
Qed.

(** A [forEach] whose body never throws never throws. *)
Lemma forEach_returns {S A : Type} (I : S -> Prop) (l : list A) body :
  (forall x s, In x l -> I s -> exists s', body x s = (Ok tt, s') /\ I s') ->
  forall s, I s -> exists s', forEach l body s = (Ok tt, s') /\ I s'.
Proof.
  induction l as [|x rest IH]; intros Hb s Hs; simpl.
  - exists s; split; [reflexivity | exact Hs].
  - unfold bind. destruct (Hb x s (or_introl eq_refl) Hs) as (s1 & E1 & H1).
    rewrite E1. apply IH; [|exact H1].
    intros y s2 Hy. apply Hb; right; exact Hy.
Qed.

Section Invariants.

Variable P : Platform.

Lemma runAsync_run stmt (w : World P) d :
  db w = Some d ->
  runAsync stmt w =
    match stmt d with
    | Ok d' => (Ok tt, set_db d' w)
    | Threw e => (Threw e, w)
    end.
Proof.
  intros H. unfold runAsync, bind, getDb. rewrite H.
  destruct (stmt d); reflexivity.
Qed.

Lemma preserves_getDb J : preserves (on_db J) (@getDb P).
Proof.
  intros w o w' H Hw. unfold getDb in H.
  destruct (db w); inversion H; subst; exact Hw.
Qed.

Lemma preserves_runAsync J stmt :
  stmt_keeps J stmt -> preserves (on_db J) (@runAsync P stmt).
Proof.
  intros Hk w o w' H (d & Hd & HJ).
  rewrite (runAsync_run _ _ Hd) in H.
  destruct (stmt d) as [d'|e] eqn:E; inversion H; subst.
  - exists d'; split; [reflexivity | eapply Hk; eauto].
  - exists d; auto.
Qed.

Lemma preserves_remote_call J (A : Type) (f : Remote P -> A * Remote P) :
  preserves (on_db J) (remote_call f).
Proof.
  intros w o w' H (d & Hd & HJ). unfold remote_call in H.
  destruct (f (remote_st w)) as [a r]. inversion H; subst.
  exists d; auto.
Qed.

Lemma preserves_withTransactionAsync J (A : Type) (task : M (World P) A) :
  preserves (on_db J) task -> preserves (on_db J) (withTransactionAsync task).
Proof.
  intros Ht w o w' H Hw. unfold withTransactionAsync in H.
  destruct (task w) as [[a|e] w1] eqn:E; inversion H; subst.
  - eapply Ht; eauto.
  - destruct Hw as (d & Hd & HJ). exists d; auto.
Qed.

Lemma preserves_liftW (I : World P -> Prop) (A : Type) (m : M (World P) A) :
  preserves I m -> preserves (fun s : SyncResult * World P => I (snd s)) (liftW m).
Proof.
  intros Hm [r w] o [r' w'] H Hs. unfold liftW in H. simpl in *.
  destruct (m w) as [o1 w1] eqn:E. inversion H; subst. eapply Hm; eauto.
Qed.

Lemma preserves_modify_result (I : World P -> Prop) f :
  preserves (fun s : SyncResult * World P => I (snd s)) (modify_result f).
Proof. intros [r w] o [r' w'] H Hs. inversion H; subst; exact Hs. Qed.

End Invariants.

(* ------------------------------------------------------------------ *)
(** * The scripted engines keep the contract of ORDER BY *)

Section InsertionSort.

Variable leb : Change.t -> Change.t -> bool.
Hypothesis leb_le : forall a b, leb a b = true -> timestamp_le a b.
Hypothesis leb_ge : forall a b, leb a b = false -> timestamp_le b a.

Lemma insert_by_perm x l : Permutation (Scripted.insert_by leb x l) (x :: l).
Proof.
  induction l as [|y rest IH]; simpl.
  - apply Permutation_refl.
  - destruct (leb x y).
    + apply Permutation_refl.
    + eapply Permutation_trans; [apply perm_skip, IH | apply perm_swap].
Qed.

Lemma sort_by_perm l : Permutation (Scripted.sort_by leb l) l.
Proof.
  induction l as [|x rest IH]; simpl.
  - apply perm_nil.
  - eapply Permutation_trans; [apply insert_by_perm | apply perm_skip, IH].
Qed.

Lemma insert_by_sorted x l :
  StronglySorted timestamp_le l ->
  StronglySorted timestamp_le (Scripted.insert_by leb x l).
Proof.
  induction 1 as [|y rest Hs IH Hy]; simpl.
  - constructor; constructor.
  - destruct (leb x y) eqn:E.
    + constructor; [constructor; assumption|].
      constructor; [apply leb_le; exact E|].
      eapply Forall_impl; [|exact Hy].
      intros z Hz. apply leb_le in E. unfold timestamp_le in *. lia.
    + constructor; [exact IH|].
      eapply Permutation_Forall; [apply Permutation_sym, insert_by_perm|].
      constructor; [apply leb_ge; exact E | exact Hy].
Qed.

Lemma sort_by_contract : OrderByContract (Scripted.sort_by leb).
Proof.
  split.
  - apply sort_by_perm.
  - induction q as [|x rest IH]; simpl.
    + constructor.
    + apply insert_by_sorted, IH.
Qed.

End InsertionSort.

Lemma by_timestamp_contract : OrderByContract (Scripted.sort_by Scripted.by_timestamp).
Proof.
  apply sort_by_contract; unfold Scripted.by_timestamp, timestamp_le; intros a b H.
  - apply Z.leb_le in H; exact H.
  - apply Z.leb_gt in H; lia.
Qed.

Lemma by_timestamp_after_retry_index_contract :
  OrderByContract (Scripted.sort_by Scripted.by_timestamp_after_retry_index).
Proof.
  apply sort_by_contract;
    unfold Scripted.by_timestamp_after_retry_index, timestamp_le; intros a b H.
  - apply orb_true_iff in H. destruct H as [H|H].
    + apply Z.ltb_lt in H; lia.
    + apply andb_true_iff in H. destruct H as [H _]. apply Z.eqb_eq in H; lia.
  - apply orb_false_iff in H. destruct H as [H _]. apply Z.ltb_ge in H; exact H.
Qed.

(* ------------------------------------------------------------------ *)
(** * What the statements leave alone *)

Lemma table_set_table e rows d : table e (set_table e rows d) = rows.
Proof. destruct e; reflexivity. Qed.

Lemma table_set_table_other e e' rows d :
  e' <> e -> table e' (set_table e rows d) = table e' d.
Proof. destruct e, e'; intros H; try reflexivity; congruence. Qed.

Lemma sync_queue_set_table e rows d : sync_queue (set_table e rows d) = sync_queue d.
Proof. destruct e; reflexivity. Qed.

Lemma table_set_queue e q d : table e (set_queue q d) = table e d.
Proof. destruct e; reflexivity. Qed.

Lemma table_set_sequence e e' k d : table e' (set_sequence e k d) = table e' d.
Proof. destruct e, e'; reflexivity. Qed.

Lemma sync_queue_set_sequence e k d : sync_queue (set_sequence e k d) = sync_queue d.
Proof. destruct e; reflexivity. Qed.

Lemma sql_update_queue e wh st d d' :
  sql_update e wh st d = Ok d' -> sync_queue d' = sync_queue d.
Proof.
  unfold sql_update. intros H.
  destruct (existsb wh (table e d)); [|inversion H; reflexivity].
  destruct (update_rows wh st (table e d)) as [rows'|]; [|discriminate].
  destruct (table_ok e rows' && fk_ok (set_table e rows' d)); inversion H.
  apply sync_queue_set_table.
Qed.

Lemma sql_insert_or_ignore_queue e row d d' :
  sql_insert_or_ignore e row d = Ok d' -> sync_queue d' = sync_queue d.
Proof.
  unfold sql_insert_or_ignore. intros H.
  destruct (row (next_rowid e d)) as [r|];
    [|inversion H; apply sync_queue_set_sequence].
  destruct (existsb (conflict e r) (table e d));
    [inversion H; apply sync_queue_set_sequence|].
  destruct (fk_ok _); inversion H.
  rewrite sync_queue_set_sequence. apply sync_queue_set_table.
Qed.

Lemma sql_update_other_table e e' wh st d d' :
  e' <> e -> sql_update e wh st d = Ok d' -> table e' d' = table e' d.
Proof.
  unfold sql_update. intros Hne H.
  destruct (existsb wh (table e d)); [|inversion H; reflexivity].
  destruct (update_rows wh st (table e d)) as [rows'|]; [|discriminate].
  destruct (table_ok e rows' && fk_ok (set_table e rows' d)); inversion H.
  apply table_set_table_other; exact Hne.
Qed.

Lemma sql_insert_or_ignore_other_table e e' row d d' :
  e' <> e -> sql_insert_or_ignore e row d = Ok d' -> table e' d' = table e' d.
Proof.
  unfold sql_insert_or_ignore. intros Hne H.
  destruct (row (next_rowid e d)) as [r|];
    [|inversion H; apply table_set_sequence].
  destruct (existsb (conflict e r) (table e d));
    [inversion H; apply table_set_sequence|].
  destruct (fk_ok _); inversion H.
  rewrite table_set_sequence. apply table_set_table_other; exact Hne.
Qed.

(* ------------------------------------------------------------------ *)
(** * Push: one entry at a time *)

Section Push.

Variable P : Platform.

Lemma entity_blind_queue (Q : list Change.t -> Prop) :
  entity_blind (fun d => Q (sync_queue d)).
Proof.
  intros e wh st d d' HJ H. rewrite (sql_update_queue _ _ _ _ H). exact HJ.
Qed.

Lemma preserves_syncChange J c :
  entity_blind J -> preserves (on_db (P:=P) J) (syncChange c).
Proof.
  intros HJ. unfold syncChange.
  destruct (JSON_parse P (Change.payload c)) as [err|payload];
    [apply preserves_throw|].
  destruct (Change.operation c).
  - unfold handleInsert. apply preserves_bind; [apply preserves_remote_call|].
    intros [err|k]; [apply preserves_throw | apply preserves_runAsync, HJ].
  - unfold handleUpdate. destruct (Change.entity_supabase_id c) as [k|];
      [|apply preserves_throw].
    destruct (truthy_int (Some k)); [|apply preserves_throw].
    apply preserves_bind; [apply preserves_remote_call|].
    intros [err|]; [apply preserves_throw | apply preserves_runAsync, HJ].
  - unfold handleDelete. destruct (Change.entity_supabase_id c) as [k|];
      [|apply preserves_runAsync, HJ].
    destruct (truthy_int (Some k)); [|apply preserves_runAsync, HJ].
    apply preserves_bind; [apply preserves_remote_call|].
    intros [err|]; [apply preserves_throw | apply preserves_runAsync, HJ].
Qed.

(** A failing [syncChange] leaves the whole store as it found it: each
    handler throws before its local statement, or the statement itself
    fails and writes nothing. *)
Lemma syncChange_threw_db c (w w1 : World P) message :
  syncChange c w = (Threw message, w1) -> db w1 = db w.
Proof.
  assert (RA : forall stmt (w0 w2 : World P) m,
             runAsync stmt w0 = (Threw m, w2) -> db w2 = db w0).
  { intros stmt w0 w2 m H. unfold runAsync, bind, getDb in H.
    destruct (db w0) as [d|] eqn:E; [|inversion H; subst; congruence].
    destruct (stmt d); inversion H; subst; congruence. }
  assert (RC : forall (A : Type) (f : Remote P -> A * Remote P) (w0 : World P),
             exists a r, remote_call f w0 = (Ok a, set_remote r w0)).
  { intros A f w0. unfold remote_call. destruct (f (remote_st w0)) as [a r].
    exists a, r; reflexivity. }
  unfold syncChange.
  destruct (JSON_parse P (Change.payload c)) as [err|payload];
    [intros H; inversion H; reflexivity|].
  destruct (Change.operation c).
  - unfold handleInsert, bind.
    destruct (RC _ (supabase_insert P (Change.entity c) payload) w) as (a & r & E).
    rewrite E. destruct a as [err|k]; intros H.
    + inversion H; reflexivity.
    + apply RA in H. exact H.
  - unfold handleUpdate. destruct (Change.entity_supabase_id c) as [k|];
      [|intros H; inversion H; reflexivity].
    destruct (truthy_int (Some k)); [|intros H; inversion H; reflexivity].
    unfold bind.
    destruct (RC _ (supabase_update P (Change.entity c) payload k) w) as (a & r & E).
    rewrite E. destruct a as [err|]; intros H.
    + inversion H; reflexivity.
    + apply RA in H. exact H.
  - unfold handleDelete. destruct (Change.entity_supabase_id c) as [k|];
      [|apply RA].
    destruct (truthy_int (Some k)); [|apply RA].
    unfold bind.
    destruct (RC _ (supabase_soft_delete P (Change.entity c) k) w) as (a & r & E).
    rewrite E. destruct a as [err|]; intros H.
    + inversion H; reflexivity.
    + apply RA in H. exact H.
Qed.

(** A call the backend rejects makes [syncChange] throw the error's
    message, with nothing written locally. *)
Lemma syncChange_remote_error c (w : World P) payload :
  JSON_parse P (Change.payload c) = inr payload ->
  match Change.operation c with
  | INSERT =>
      forall error r,
        supabase_insert P (Change.entity c) payload (remote_st w) = (inl error, r) ->
        syncChange c w = (Threw error, set_remote r w)
  | UPDATE =>
      forall k error r,
        Change.entity_supabase_id c = Some k -> k <> 0 ->
        supabase_update P (Change.entity c) payload k (remote_st w) = (Some error, r) ->
        syncChange c w = (Threw error, set_remote r w)
  | DELETE =>
      forall k error r,
        Change.entity_supabase_id c = Some k -> k <> 0 ->
        supabase_soft_delete P (Change.entity c) k (remote_st w) = (Some error, r) ->
        syncChange c w = (Threw error, set_remote r w)
  end.
Proof.
  intros Hp. unfold syncChange. rewrite Hp.
  destruct (Change.operation c).
  - intros error r H. unfold handleInsert, bind, remote_call. rewrite H. reflexivity.
  - intros k error r Hk Hne H. unfold handleUpdate. rewrite Hk.
    unfold truthy_int. apply Z.eqb_neq in Hne. rewrite Hne. simpl.
    unfold bind, remote_call. rewrite H. reflexivity.
  - intros k error r Hk Hne H. unfold handleDelete. rewrite Hk.
    unfold truthy_int. apply Z.eqb_neq in Hne. rewrite Hne. simpl.
    unfold bind, remote_call. rewrite H. reflexivity.
Qed.

(** One iteration whose [syncChange] throws. *)
Lemma processChange_failure c r (w w1 : World P) d message :
  db w = Some d ->
  syncChange c w = (Threw message, w1) ->
  processChange c (r, w) =
    (Ok tt, (count_failed (failure_line c message) r,
             set_db (set_queue (record_error (Change.id c) message (sync_queue d)) d) w1)).
Proof.
  intros Hd H. pose proof (syncChange_threw_db _ _ H) as Hdb.
  unfold processChange, try_catch, bind at 1, liftW at 1. simpl.
  rewrite H. unfold bind, liftW, handleSyncError. simpl.
  rewrite (runAsync_run _ w1 (d:=d)) by congruence.
  reflexivity.
Qed.

(** One iteration whose [syncChange] returns. *)
Lemma processChange_success c r (w w1 : World P) d1 :
  syncChange c w = (Ok tt, w1) ->
  db w1 = Some d1 ->
  processChange c (r, w) =
    (Ok tt, (count_synced r,
             set_db (set_queue (filter (fun x => negb (Change.id x =? Change.id c))
                                  (sync_queue d1)) d1) w1)).
Proof.
  intros H Hd.
  unfold processChange, try_catch, bind at 1, liftW at 1. simpl.
  rewrite H. unfold bind, liftW, clearSyncChange. simpl.
  rewrite (runAsync_run _ w1 Hd). reflexivity.
Qed.

(** On an initialised store an iteration never throws, and counts its
    entry once, as synced or as failed. *)
Lemma processChange_returns c r (w : World P) :
  db w <> None ->
  exists r' w',
    processChange c (r, w) = (Ok tt, (r', w')) /\ db w' <> None /\
    ((r' = count_synced r)
     \/ (exists message, r' = count_failed (failure_line c message) r)).
Proof.
  intros Hd. destruct (db w) as [d|] eqn:Ed; [clear Hd | congruence].
  destruct (syncChange c w) as [[[]|message] w1] eqn:E.
  - assert (H1 : on_db (fun _ => True) w1).
    { eapply (@preserves_syncChange (fun _ => True)); eauto.
      - intros e wh st d0 d' _ _; exact I.
      - exists d; auto. }
    destruct H1 as (d1 & Hd1 & _).
    eexists _, _. split; [eapply processChange_success; eassumption|].
    split; [discriminate | left; reflexivity].
  - eexists _, _. split; [eapply processChange_failure; eassumption|].
    split; [discriminate | right; exists message; reflexivity].
Qed.

End Push.

(* ------------------------------------------------------------------ *)
(** * Pull never throws out of [fetchRemoteChanges] *)

Section Coordinator.

Variable P : Platform.

Lemma pull_blind_queue (Q : list Change.t -> Prop) :
  pull_blind (fun d => Q (sync_queue d)).
Proof.
  split; [apply entity_blind_queue|].
  intros e row d d' HJ H. rewrite (sql_insert_or_ignore_queue _ _ _ H). exact HJ.
Qed.

Lemma preserves_mergeRemoteItem J e localItems i :
  pull_blind J -> preserves (on_db (P:=P) J) (mergeRemoteItem e localItems i).
Proof.
  intros [HU HI]. unfold mergeRemoteItem.
  destruct (truthy_str (RemoteItem.deleted_at i)).
  - destruct (find_local localItems i) as [l|]; [|apply preserves_ret].
    destruct (negb (truthy_str (Row.deleted_at l))); [|apply preserves_ret].
    apply preserves_runAsync, HU.
  - destruct (find_local localItems i) as [l|].
    + destruct (remote_wins P i l); [|apply preserves_ret].
      apply preserves_runAsync, HU.
    + apply preserves_runAsync, HI.
Qed.

Lemma preserves_mergeRemoteItems J e remoteItems :
  pull_blind J -> preserves (on_db (P:=P) J) (mergeRemoteItems e remoteItems).
Proof.
  intros HJ. unfold mergeRemoteItems.
  apply preserves_bind; [apply preserves_getDb|]. intros d.
  apply preserves_withTransactionAsync, preserves_forEach.
  intros i _. apply preserves_mergeRemoteItem, HJ.
Qed.

Lemma preserves_fetchRemoteChanges J :
  pull_blind J -> preserves (on_db (P:=P) J) (fetchRemoteChanges (P:=P)).
Proof.
  intros HJ. unfold fetchRemoteChanges. apply preserves_forEach. intros e _.
  apply preserves_try_catch; [|intros; apply preserves_ret].
  unfold fetchEntityChanges.
  apply preserves_bind; [apply preserves_remote_call|].
  intros [err|items]; [apply preserves_throw | apply preserves_mergeRemoteItems, HJ].
Qed.

(** A failure of one entity type is caught; the loop over the three types
    always returns. *)
Lemma fetchRemoteChanges_returns (w : World P) :
  exists w', fetchRemoteChanges w = (Ok tt, w').
Proof.
  destruct (@forEach_returns (World P) entity (fun _ => True)
              [levels; offices; students]
              (fun e => try_catch (fetchEntityChanges e) (fun _ => ret tt)))
    with (s := w) as (w' & E & _).
  - intros e s _ _. unfold try_catch.
    destruct (fetchEntityChanges e s) as [[[]|m] s1].
    + exists s1; auto.
    + exists s1; auto.
  - exact I.
  - exists w'; exact E.
Qed.

(** ** The push loop as a whole *)

Lemma push_loop_returns (l : list Change.t) : forall r (w : World P),
  db w <> None ->
  exists r' w',
    forEach l (processChange (P:=P)) (r, w) = (Ok tt, (r', w')) /\
    db w' <> None /\
    success r' = success r /\
    synced r <= synced r' /\ failed r <= failed r' /\
    synced r' + failed r' = synced r + failed r + Z.of_nat (List.length l) /\
    Z.of_nat (List.length (errors r')) - failed r'
      = Z.of_nat (List.length (errors r)) - failed r.
Proof.
  induction l as [|c rest IH]; intros r w Hw.
  - exists r, w. simpl. repeat split; try lia; auto.
  - destruct (@processChange_returns P c r w Hw) as (r1 & w1 & E1 & Hw1 & Hr1).
    destruct (IH r1 w1 Hw1) as (r' & w' & E & Hw' & Hs & H1 & H2 & H3 & H4).
    exists r', w'. cbn [forEach]. unfold bind at 1. rewrite E1.
    split; [exact E|]. split; [exact Hw'|].
    destruct Hr1 as [->|[m ->]]; simpl in *;
      rewrite ?length_app, ?Nat2Z.inj_add in *; simpl in *;
      repeat split; try lia; auto.
Qed.

(** ** What [synced] counts: the entries deleted from the queue *)

Lemma filter_all_kept {A : Type} (p : A -> bool) (l : list A) :
  (forall x, In x l -> p x = true) -> filter p l = l.
Proof.
  induction l as [|a t IH]; simpl; intros H; [reflexivity|].
  rewrite (H a (or_introl eq_refl)), IH; [reflexivity|].
  intros x Hx. apply H; right; exact Hx.
Qed.

(** Deleting rows from the queue keeps the ids distinct. *)
Lemma queue_ids_filter (keep : Change.t -> bool) (q : list Change.t) :
  NoDup (map Change.id q) -> NoDup (map Change.id (filter keep q)).
Proof.
  induction q as [|c rest IH]; simpl; intros Hq; [constructor|].
  apply NoDup_cons_iff in Hq. destruct Hq as [Hc Hrest].
  destruct (keep c); simpl; [|apply IH, Hrest].
  apply NoDup_cons_iff. split; [|apply IH, Hrest].
  intros Hin. apply Hc. apply in_map_iff in Hin.
  destruct Hin as (x & Hx & Hf). apply filter_In in Hf.
  apply in_map_iff. exists x. split; [exact Hx | apply Hf].
Qed.

Lemma delete_change_length (q : list Change.t) c :
  NoDup (map Change.id q) -> In c q ->
  S (List.length (filter (fun x => negb (Change.id x =? Change.id c)) q))
  = List.length q.
Proof.
  induction q as [|a t IH]; simpl; intros Hn Hc; [contradiction|].
  inversion Hn as [|? ? Ha Ht]; subst.
  destruct Hc as [->|Hc].
  - rewrite Z.eqb_refl. simpl. rewrite filter_all_kept; [reflexivity|].
    intros x Hx. apply negb_true_iff, Z.eqb_neq. intros E.
    apply Ha. rewrite <- E. apply in_map; exact Hx.
  - assert (Hne : Change.id a <> Change.id c).
    { intros E. apply Ha. rewrite E. apply in_map; exact Hc. }
    apply Z.eqb_neq in Hne. rewrite Hne. simpl. rewrite (IH Ht Hc). reflexivity.
Qed.

Lemma record_error_ids k message (q : list Change.t) :
  map Change.id (record_error k message q) = map Change.id q.
Proof.
  unfold record_error. rewrite map_map. apply map_ext.
  intros c. destruct (Change.id c =? k); reflexivity.
Qed.

(** Over entries of the queue with distinct [id]s, each entry counted as
    synced is one entry deleted from the queue, and no other entry is
    deleted. *)
Lemma push_loop_queue (l : list Change.t) : forall r (w : World P) d,
  db w = Some d ->
  NoDup (map Change.id (sync_queue d)) ->
  NoDup (map Change.id l) ->
  (forall x, In x l -> In x (sync_queue d)) ->
  exists r' w' d',
    forEach l (processChange (P:=P)) (r, w) = (Ok tt, (r', w')) /\
    db w' = Some d' /\
    Z.of_nat (List.length (sync_queue d')) + synced r'
      = Z.of_nat (List.length (sync_queue d)) + synced r.
Proof.
  induction l as [|c rest IH]; intros r w d Hd Hn Hl Hin.
  - exists r, w, d. simpl. auto.
  - inversion Hl as [|? ? Hc Hrest]; subst.
    assert (Hother : forall x, In x rest -> Change.id x <> Change.id c).
    { intros x Hx E. apply Hc. rewrite <- E. apply in_map; exact Hx. }
    cbn [forEach]. unfold bind at 1.
    destruct (syncChange c w) as [[[]|message] w1] eqn:E.
    + assert (H1 : on_db (fun d0 => sync_queue d0 = sync_queue d) w1).
      { eapply (@preserves_syncChange P (fun d0 => sync_queue d0 = sync_queue d));
          [apply (entity_blind_queue (fun q => q = sync_queue d)) | exact E |].
        exists d; auto. }
      destruct H1 as (d1 & Hd1 & Hq1).
      rewrite (@processChange_success P c r w w1 d1 E Hd1).
      edestruct IH as (r' & w' & d' & E' & Hd' & Hlen);
        [| | exact Hrest | | exists r', w', d'; split; [exact E'|]; split; [exact Hd'|]].
      * reflexivity.
      * simpl. apply queue_ids_filter. rewrite Hq1. exact Hn.
      * intros x Hx. simpl. apply filter_In. split.
        -- rewrite Hq1. apply Hin; right; exact Hx.
        -- apply negb_true_iff, Z.eqb_neq, Hother, Hx.
      * rewrite Hlen. simpl. rewrite Hq1.
        pose proof (delete_change_length (sync_queue d) c Hn (Hin c (or_introl eq_refl))).
        lia.
    + rewrite (@processChange_failure P c r w w1 d message Hd E).
      edestruct IH as (r' & w' & d' & E' & Hd' & Hlen);
        [| | exact Hrest | | exists r', w', d'; split; [exact E'|]; split; [exact Hd'|]].
      * reflexivity.
      * simpl. rewrite record_error_ids. exact Hn.
      * intros x Hx. simpl. unfold record_error. apply in_map_iff. exists x.
        split; [|apply Hin; right; exact Hx].
        destruct (Change.id x =? Change.id c) eqn:Ex; [|reflexivity].
        apply Z.eqb_eq in Ex. exfalso. exact (Hother x Hx Ex).
      * rewrite Hlen. simpl. unfold record_error. rewrite length_map. lia.
Qed.

(** The entries a cycle selects are entries of the queue below the retry
    limit. *)
Lemma select_pending_in (q : list Change.t) c :
  OrderByContract (order_by_timestamp P) ->
  In c (select_pending P q) <-> In c q /\ Change.retry_count c < maxRetries.
Proof.
  intros HO. unfold select_pending. split.
  - intros H. apply (Permutation_in _ (order_perm HO _)) in H.
    apply filter_In in H. destruct H as [H1 H2]. unfold pending in H2.
    apply Z.ltb_lt in H2. auto.
  - intros [H1 H2].
    apply (Permutation_in _ (Permutation_sym (order_perm HO _))).
    apply filter_In. split; [exact H1|]. unfold pending. apply Z.ltb_lt. exact H2.
Qed.

Lemma syncCycle_unfold r (w : World P) d :
  db w = Some d ->
  syncCycle (r, w) =
    (forEach (select_pending P (sync_queue d)) (processChange (P:=P)) ;;
     liftW (fetchRemoteChanges (P:=P)) ;;
     modify_result (fun r => set_success (failed r =? 0) r)) (r, w).
Proof.
  intros Hd. unfold syncCycle, bind at 1, liftW at 1, bind at 1, getDb. simpl.
  rewrite Hd. reflexivity.
Qed.

(** Over a queue with distinct ids, [synced] is the number of entries the
    cycle deleted. *)
Lemma syncCycle_queue r (w : World P) d :
  db w = Some d ->
  OrderByContract (order_by_timestamp P) ->
  NoDup (map Change.id (sync_queue d)) ->
  forall o r' w',
    syncCycle (r, w) = (o, (r', w')) ->
    exists d',
      db w' = Some d' /\
      Z.of_nat (List.length (sync_queue d')) + synced r'
        = Z.of_nat (List.length (sync_queue d)) + synced r.
Proof.
  intros Hd HO Hn o r' w' H.
  rewrite (syncCycle_unfold r w Hd) in H.
  assert (Hsel : NoDup (map Change.id (select_pending P (sync_queue d)))).
  { unfold select_pending.
    eapply Permutation_NoDup;
      [apply Permutation_map, Permutation_sym, (order_perm HO)|].
    apply queue_ids_filter, Hn. }
  destruct (@push_loop_queue (select_pending P (sync_queue d)) r w d Hd Hn Hsel)
    as (r1 & w1 & d1 & E1 & Hd1 & Hlen).
  { intros x Hx. apply (select_pending_in _ _ HO) in Hx. apply Hx. }
  unfold bind at 1 in H. rewrite E1 in H.
  unfold bind, liftW, modify_result in H. simpl in H.
  destruct (fetchRemoteChanges w1) as [o2 w2] eqn:E2.
  assert (H2 : on_db (fun d0 => sync_queue d0 = sync_queue d1) w2).
  { eapply (@preserves_fetchRemoteChanges (fun d0 => sync_queue d0 = sync_queue d1));
      [apply (pull_blind_queue (fun q => q = sync_queue d1)) | exact E2 |].
    exists d1; auto. }
  destruct H2 as (d2 & Hd2 & Hq2).
  destruct o2; inversion H; subst; exists d2; simpl; rewrite Hq2; auto.
Qed.

(** The cycle on an initialised store. *)
Lemma syncCycle_returns r (w : World P) d :
  db w = Some d ->
  exists r' w',
    syncCycle (r, w) = (Ok tt, (r', w')) /\
    success r' = (failed r' =? 0) /\
    synced r <= synced r' /\ failed r <= failed r' /\
    synced r' + failed r'
      = synced r + failed r + Z.of_nat (List.length (select_pending P (sync_queue d))) /\
    Z.of_nat (List.length (errors r')) - failed r'
      = Z.of_nat (List.length (errors r)) - failed r.
Proof.
  intros Hd.
  destruct (@push_loop_returns (select_pending P (sync_queue d)) r w)
    as (r1 & w1 & E1 & Hw1 & Hs & H1 & H2 & H3 & H4); [congruence|].
  destruct (@fetchRemoteChanges_returns w1) as (w2 & E2).
  exists (set_success (failed r1 =? 0) r1), w2.
  split.
  - unfold syncCycle, bind at 1, liftW at 1, bind at 1, getDb. simpl.
    rewrite Hd. simpl. unfold bind at 1. rewrite E1.
    unfold bind, liftW, modify_result. simpl. rewrite E2. reflexivity.
  - simpl. repeat split; auto.
Qed.

End Coordinator.

(* ------------------------------------------------------------------ *)
(** * The coordinator and the push reconciler: the properties *)

Lemma NoDup_map_eq {A B : Type} (f : A -> B) (l : list A) x y :
  NoDup (map f l) -> In x l -> In y l -> f x = f y -> x = y.
Proof.
  induction l as [|a rest IH]; simpl; intros Hn Hx Hy E; [contradiction|].
  inversion Hn as [|? ? Ha Hrest]; subst.
  destruct Hx as [->|Hx], Hy as [->|Hy]; auto.
  - exfalso. apply Ha. rewrite E. apply in_map; exact Hy.
  - exfalso. apply Ha. rewrite <- E. apply in_map; exact Hx.
Qed.

(** C2, single-flight discipline: a call of [syncAll] made while a cycle
    is in progress returns at once the no-op failure
    [{success: false, synced: 0, failed: 0}] and leaves the whole state (the
    queue with its retry counters, the entity tables, the backend, the
    flags) exactly as it was. *)
Theorem syncAll_single_flight (P : Platform) (w : World P) :
  syncInProgress w = true ->
  syncAll w = (Ok (mkResult false 0 0 ["Sync already in progress"]), w).
Proof.
  intros H. unfold syncAll. rewrite H. reflexivity.
Qed.

Lemma syncAll_single_flight_witness :
  syncInProgress Scenario.busy_world = true /\
  syncAll Scenario.busy_world
    = (Ok (mkResult false 0 0 ["Sync already in progress"]), Scenario.busy_world).
Proof.
  split; [reflexivity | apply syncAll_single_flight; reflexivity].
Defined.

(** C6, as stated, fails: a call rejected because a cycle is in progress
    completes with [success = false] although [failed = 0]. *)
Lemma syncAll_rejected_success_differs :
  exists r w',
    syncAll Scenario.busy_world = (Ok r, w') /\ success r <> (failed r =? 0).
Proof.
  eexists _, _. split; [reflexivity | simpl; discriminate].
Qed.

(** C6, amended: every call of [syncAll] returns a [SyncResult]; nothing
    is thrown.  A call rejected at entry (a cycle in progress, or the
    device offline) returns [success = false, synced = 0, failed = 0] and
    changes nothing.  A call that runs its cycle on an initialised store
    returns [success = (failed == 0)], where [synced + failed] is the number
    of queue entries selected for the cycle, every failed entry left one
    line in [errors], and (queue ids being distinct) [synced] is the number
    of entries the cycle deleted from the queue; when the store is not
    initialised the cycle's exception is caught and reported as
    [success = false]. *)
Theorem syncAll_result (P : Platform) (w : World P) :
  exists r w',
    syncAll w = (Ok r, w') /\
    if syncInProgress w || negb (isOnline w) then
      success r = false /\ synced r = 0 /\ failed r = 0 /\ w' = w
    else
      match db w with
      | None => success r = false /\ synced r = 0 /\ failed r = 0
      | Some d =>
          success r = (failed r =? 0) /\ 0 <= synced r /\ 0 <= failed r /\
          synced r + failed r
            = Z.of_nat (List.length (select_pending P (sync_queue d))) /\
          Z.of_nat (List.length (errors r)) = failed r /\
          (OrderByContract (order_by_timestamp P) ->
           NoDup (map Change.id (sync_queue d)) ->
           exists d',
             db w' = Some d' /\
             Z.of_nat (List.length (sync_queue d')) + synced r
               = Z.of_nat (List.length (sync_queue d)))
      end.
Proof.
  unfold syncAll.
  destruct (syncInProgress w) eqn:Es; simpl.
  { eexists _, _. split; [reflexivity | simpl; auto]. }
  destruct (isOnline w) eqn:Eo; simpl.
  2:{ eexists _, _. split; [reflexivity | simpl; auto]. }
  destruct (db w) as [d|] eqn:Ed.
  - destruct (@syncCycle_returns P (mkResult true 0 0 []) (set_syncInProgress true w) d Ed)
      as (r' & w' & E & H1 & H2 & H3 & H4 & H5).
    rewrite E. eexists _, _. split; [reflexivity|].
    simpl in *. repeat split; auto; try lia.
    intros HO Hn.
    destruct (@syncCycle_queue P (mkResult true 0 0 []) (set_syncInProgress true w) d
                Ed HO Hn _ _ _ E) as (d' & Hd' & Hlen).
    exists d'. simpl in *. split; [exact Hd' | lia].
  - unfold syncCycle, bind at 1, liftW at 1, bind at 1, getDb. simpl.
    rewrite Ed. simpl.
    eexists _, _. split; [reflexivity | simpl; auto].
Qed.

Lemma syncAll_result_witness :
  exists r w',
    syncAll Scenario.idle_world = (Ok r, w')
    /\ success r = (failed r =? 0)
    /\ synced r + failed r = 2
    /\ exists d', db w' = Some d'
                  /\ Z.of_nat (List.length (sync_queue d')) + synced r = 3.
Proof.
  destruct (syncAll_result Scenario.idle_world) as (r & w' & E & H).
  cbn [Scenario.idle_world syncInProgress isOnline db orb negb] in H.
  destruct H as (H1 & _ & _ & H4 & _ & H6).
  exists r, w'. split; [exact E|]. split; [exact H1|]. split; [exact H4|].
  destruct (H6 by_timestamp_contract) as (d' & Hd' & Hlen).
  { simpl. repeat constructor; simpl; intuition discriminate. }
  exists d'. split; [exact Hd' | exact Hlen].
Defined.

Section PushClaims.

Variable P : Platform.

(** An iteration for entry [x] keeps every entry with another [id]. *)
Lemma processChange_keeps_entry (x c : Change.t) :
  Change.id x <> Change.id c ->
  preserves (fun s : SyncResult * World P =>
               on_db (fun d => In c (sync_queue d)) (snd s))
            (processChange x).
Proof.
  intros Hne. unfold processChange.
  pose proof (entity_blind_queue (fun q => In c q)) as HB.
  apply preserves_try_catch.
  - apply preserves_bind.
    { apply preserves_liftW, preserves_syncChange, HB. }
    intros _. apply preserves_bind; [|intros; apply preserves_modify_result].
    apply preserves_liftW, preserves_runAsync.
    intros d d' HJ H. inversion H; subst. simpl.
    apply filter_In. split; [exact HJ|].
    apply negb_true_iff, Z.eqb_neq. congruence.
  - intros message. apply preserves_bind; [|intros; apply preserves_modify_result].
    apply preserves_liftW, preserves_runAsync.
    intros d d' HJ H. inversion H; subst. simpl.
    apply in_map_iff. exists c. split; [|exact HJ].
    destruct (Change.id c =? Change.id x) eqn:E; [|reflexivity].
    apply Z.eqb_eq in E. congruence.
Qed.

(** C5, dead-letter semantics: a queue entry with
    [retry_count >= maxRetries] (3) is not among the entries a cycle
    processes, is not counted by [getPendingSyncCount] (which counts the
    entries with [retry_count < maxRetries]), is still in the queue,
    unchanged, after a whole [syncAll], and [clearFailedSyncs] removes all
    and only the entries with [retry_count >= maxRetries]. *)
Theorem dead_letter_semantics (w : World P) (d : LocalDb) (c : Change.t) :
  OrderByContract (order_by_timestamp P) ->
  db w = Some d ->
  NoDup (map Change.id (sync_queue d)) ->
  In c (sync_queue d) ->
  maxRetries <= Change.retry_count c ->
  ~ In c (select_pending P (sync_queue d))
  /\ (getPendingSyncCount w
        = (Ok (Z.of_nat (List.length (filter pending (sync_queue d)))), w)
      /\ ~ In c (filter pending (sync_queue d)))
  /\ (forall r w', syncAll w = (Ok r, w') ->
        exists d', db w' = Some d' /\ In c (sync_queue d'))
  /\ (exists d'',
        clearFailedSyncs w = (Ok tt, set_db d'' w) /\
        levels_tbl d'' = levels_tbl d /\ offices_tbl d'' = offices_tbl d /\
        students_tbl d'' = students_tbl d /\
        forall x, In x (sync_queue d'')
                  <-> In x (sync_queue d) /\ Change.retry_count x < maxRetries).
Proof.
  intros HO Hd Hn Hc Hdead.
  assert (Hsel : forall x, In x (select_pending P (sync_queue d)) ->
                           Change.id x <> Change.id c).
  { intros x Hx E. apply (@select_pending_in P _ _ HO) in Hx. destruct Hx as [Hx Hlt].
    assert (x = c) by (eapply NoDup_map_eq; eauto). subst. lia. }
  split; [|split; [|split]].
  - intros H. apply (@select_pending_in P _ _ HO) in H. lia.
  - split.
    + unfold getPendingSyncCount, bind, getDb. rewrite Hd. reflexivity.
    + intros H. apply filter_In in H. destruct H as [_ H].
      unfold pending in H. apply Z.ltb_lt in H. lia.
  - intros r w'. unfold syncAll.
    destruct (syncInProgress w); [intros H; inversion H; subst; eauto|].
    destruct (negb (isOnline w)); [intros H; inversion H; subst; eauto|].
    destruct (syncCycle (mkResult true 0 0 [], set_syncInProgress true w))
      as [o [r2 w2]] eqn:E.
    assert (Hk : on_db (fun d0 => In c (sync_queue d0)) w2).
    { rewrite (@syncCycle_unfold P (mkResult true 0 0 []) (set_syncInProgress true w) d Hd) in E.
      assert (Hp : preserves
                     (fun s : SyncResult * World P =>
                        on_db (fun d0 => In c (sync_queue d0)) (snd s))
                     (forEach (select_pending P (sync_queue d)) (processChange (P:=P)) ;;
                      liftW (fetchRemoteChanges (P:=P)) ;;
                      modify_result (fun r => set_success (failed r =? 0) r))).
      { apply preserves_bind.
        { apply preserves_forEach. intros x Hx.
          apply processChange_keeps_entry, Hsel, Hx. }
        intros _. apply preserves_bind; [|intros; apply preserves_modify_result].
        apply preserves_liftW, preserves_fetchRemoteChanges.
        apply (pull_blind_queue (fun q => In c q)). }
      apply (Hp _ _ _ E). exists d; split; [exact Hd | exact Hc]. }
    destruct Hk as (d2 & Hd2 & Hin2).
    destruct o; intros H; inversion H; subst; exists d2; auto.
  - exists (set_queue
              (filter (fun x => negb (maxRetries <=? Change.retry_count x)) (sync_queue d)) d).
    split; [|split; [|split; [|split]]]; try reflexivity.
    + unfold clearFailedSyncs. rewrite (runAsync_run _ w Hd). reflexivity.
    + intros x. simpl. rewrite filter_In, negb_true_iff, Z.leb_gt. reflexivity.
Qed.

End PushClaims.

Lemma dead_letter_semantics_witness :
  (OrderByContract (order_by_timestamp Scenario.quiet)
   /\ db Scenario.idle_world = Some Scenario.offline_db
   /\ NoDup (map Change.id (sync_queue Scenario.offline_db))
   /\ In Scenario.dead_U9 (sync_queue Scenario.offline_db)
   /\ maxRetries <= Change.retry_count Scenario.dead_U9)
  /\ ~ In Scenario.dead_U9
         (select_pending Scenario.quiet (sync_queue Scenario.offline_db))
  /\ (forall r w', syncAll Scenario.idle_world = (Ok r, w') ->
        exists d', db w' = Some d' /\ In Scenario.dead_U9 (sync_queue d')).
Proof.
  assert (H1 : OrderByContract (order_by_timestamp Scenario.quiet))
    by exact by_timestamp_contract.
  assert (H2 : db Scenario.idle_world = Some Scenario.offline_db) by reflexivity.
  assert (H3 : NoDup (map Change.id (sync_queue Scenario.offline_db))).
  { simpl. repeat constructor; simpl; intuition discriminate. }
  assert (H4 : In Scenario.dead_U9 (sync_queue Scenario.offline_db))
    by (simpl; auto).
  assert (H5 : maxRetries <= Change.retry_count Scenario.dead_U9)
    by (unfold maxRetries; simpl; lia).
  pose proof (@dead_letter_semantics Scenario.quiet Scenario.idle_world
                Scenario.offline_db Scenario.dead_U9 H1 H2 H3 H4 H5) as H.
  split; [exact (conj H1 (conj H2 (conj H3 (conj H4 H5))))|].
  split; [exact (proj1 H) | exact (proj1 (proj2 (proj2 H)))].
Defined.

Section PushFailure.

Variable P : Platform.

(** C4, push failure isolation: when the push of a queue entry throws
    (network error, remote rejection, failed validation), the iteration
    records it and the loop goes on with the next entry: [failed] grows by
    one and the message is appended to [errors]; in the queue the entry is
    kept, with its [retry_count] incremented by exactly one and its
    [last_error] set to the failure message, and every other entry is
    untouched; the three entity tables, hence every record's [is_synced] and
    [operation_type], are exactly as before. *)
Theorem push_failure_isolated (c : Change.t) (rest : list Change.t)
    (r : SyncResult) (w w1 : World P) (d : LocalDb) (message : string) :
  db w = Some d ->
  NoDup (map Change.id (sync_queue d)) ->
  In c (sync_queue d) ->
  syncChange c w = (Threw message, w1) ->
  exists d',
    forEach (c :: rest) (processChange (P:=P)) (r, w)
      = forEach rest (processChange (P:=P))
          (count_failed (failure_line c message) r, set_db d' w1)
    /\ failed (count_failed (failure_line c message) r) = failed r + 1
    /\ synced (count_failed (failure_line c message) r) = synced r
    /\ levels_tbl d' = levels_tbl d /\ offices_tbl d' = offices_tbl d
    /\ students_tbl d' = students_tbl d
    /\ List.length (sync_queue d') = List.length (sync_queue d)
    /\ In (bump_retry message c) (sync_queue d')
    /\ Change.id (bump_retry message c) = Change.id c
    /\ Change.retry_count (bump_retry message c) = Change.retry_count c + 1
    /\ Change.last_error (bump_retry message c) = Some message
    /\ (forall x, In x (sync_queue d) -> x <> c -> In x (sync_queue d')).
Proof.
  intros Hd Hn Hc H.
  exists (set_queue (record_error (Change.id c) message (sync_queue d)) d).
  split.
  { cbn [forEach]. unfold bind at 1.
    rewrite (@processChange_failure P c r w w1 d message Hd H). reflexivity. }
  repeat split; try reflexivity.
  - simpl. unfold record_error. apply length_map.
  - simpl. unfold record_error. apply in_map_iff. exists c.
    rewrite Z.eqb_refl. auto.
  - intros x Hx Hne. simpl. unfold record_error. apply in_map_iff. exists x.
    split; [|exact Hx].
    destruct (Change.id x =? Change.id c) eqn:E; [|reflexivity].
    apply Z.eqb_eq in E. exfalso. apply Hne. eapply NoDup_map_eq; eauto.
Qed.

(** C7, update with a missing remote id: for a queue entry with
    [operation = UPDATE] and no [entity_supabase_id], [syncChange] throws
    without calling the backend and without touching the store (the whole
    state is returned as it was); the message is
    [Cannot update: missing Supabase ID] whenever the payload parses.  The
    iteration then counts the entry as failed and keeps it in the queue with
    [retry_count + 1] and [last_error] set, as for any other failure. *)
Theorem update_without_remote_id (c : Change.t) (r : SyncResult)
    (w : World P) (d : LocalDb) :
  db w = Some d ->
  In c (sync_queue d) ->
  Change.operation c = UPDATE ->
  Change.entity_supabase_id c = None ->
  exists message,
    syncChange c w = (Threw message, w)
    /\ (forall p, JSON_parse P (Change.payload c) = inr p ->
          message = "Cannot update: missing Supabase ID")
    /\ processChange c (r, w)
         = (Ok tt,
            (mkResult (success r) (synced r) (failed r + 1)
               (errors r ++ [failure_line c message]),
             mkWorld P (remote_st w)
               (Some (set_queue
                        (record_error (Change.id c) message (sync_queue d)) d))
               (isOnline w) (syncInProgress w)))
    /\ In (bump_retry message c)
          (record_error (Change.id c) message (sync_queue d))
    /\ Change.retry_count (bump_retry message c) = Change.retry_count c + 1.
Proof.
  intros Hd Hc Hop Hid.
  assert (E : exists message,
             syncChange c w = (Threw message, w)
             /\ (forall p, JSON_parse P (Change.payload c) = inr p ->
                   message = "Cannot update: missing Supabase ID")).
  { unfold syncChange. destruct (JSON_parse P (Change.payload c)) as [err|p].
    - exists err. split; [reflexivity | intros p Hp; discriminate].
    - rewrite Hop. unfold handleUpdate. rewrite Hid.
      eexists. split; [reflexivity | intros; reflexivity]. }
  destruct E as (message & E & Hm). exists message.
  split; [exact E|]. split; [exact Hm|]. split; [|split].
  - rewrite (@processChange_failure P c r w w d message Hd E). reflexivity.
  - unfold record_error. apply in_map_iff. exists c. rewrite Z.eqb_refl. auto.
  - reflexivity.
Qed.

End PushFailure.

Lemma push_failure_isolated_witness :
  (db Scenario.cut_off_world = Some Scenario.offline_db
   /\ NoDup (map Change.id (sync_queue Scenario.offline_db))
   /\ In Scenario.insert_U1 (sync_queue Scenario.offline_db)
   /\ syncChange Scenario.insert_U1 Scenario.cut_off_world
        = (Threw "Network request failed",
           @set_remote Scenario.unreachable
             [Scripted.InsertCall offices (Change.payload Scenario.insert_U1)]
             Scenario.cut_off_world))
  /\ exists d',
       forEach [Scenario.insert_U1; Scenario.update_U1]
           (processChange (P:=Scenario.unreachable))
           (mkResult true 0 0 [], Scenario.cut_off_world)
         = forEach [Scenario.update_U1] (processChange (P:=Scenario.unreachable))
             (mkResult true 0 1 ["offices: Network request failed"],
              set_db d'
                (@set_remote Scenario.unreachable
                   [Scripted.InsertCall offices (Change.payload Scenario.insert_U1)]
                   Scenario.cut_off_world))
       /\ offices_tbl d' = [Scenario.office_U1]
       /\ In (bump_retry "Network request failed" Scenario.insert_U1) (sync_queue d').
Proof.
  assert (H1 : db Scenario.cut_off_world = Some Scenario.offline_db) by reflexivity.
  assert (H2 : NoDup (map Change.id (sync_queue Scenario.offline_db))).
  { simpl. repeat constructor; simpl; intuition discriminate. }
  assert (H3 : In Scenario.insert_U1 (sync_queue Scenario.offline_db))
    by (simpl; auto).
  assert (H4 : syncChange Scenario.insert_U1 Scenario.cut_off_world
               = (Threw "Network request failed",
                  @set_remote Scenario.unreachable
                    [Scripted.InsertCall offices (Change.payload Scenario.insert_U1)]
                    Scenario.cut_off_world)) by reflexivity.
  split; [exact (conj H1 (conj H2 (conj H3 H4)))|].
  destruct (@push_failure_isolated Scenario.unreachable Scenario.insert_U1
              [Scenario.update_U1] (mkResult true 0 0 []) _ _ _ _ H1 H2 H3 H4)
    as (d' & E & _ & _ & _ & Ho & _ & _ & Hin & _).
  exists d'. split; [exact E|]. split; [exact Ho | exact Hin].
Defined.

Lemma update_without_remote_id_witness :
  (db Scenario.idle_world = Some Scenario.offline_db
   /\ In Scenario.update_U1 (sync_queue Scenario.offline_db)
   /\ Change.operation Scenario.update_U1 = UPDATE
   /\ Change.entity_supabase_id Scenario.update_U1 = None)
  /\ exists message,
       syncChange Scenario.update_U1 Scenario.idle_world
         = (Threw message, Scenario.idle_world)
       /\ In (bump_retry message Scenario.update_U1)
            (record_error (Change.id Scenario.update_U1) message
               (sync_queue Scenario.offline_db)).
Proof.
  split; [repeat split; simpl; auto|].
  destruct (@update_without_remote_id Scenario.quiet Scenario.update_U1
              (mkResult true 0 0 []) Scenario.idle_world Scenario.offline_db
              eq_refl (or_intror (or_introl eq_refl)) eq_refl eq_refl)
    as (message & E & _ & _ & Hin & _).
  exists message. split; [exact E | exact Hin].
Defined.

(* ------------------------------------------------------------------ *)
(** * Pull: the statements row by row *)

Lemma active_truthy r : active r = negb (truthy_str (Row.deleted_at r)).
Proof.
  unfold active, truthy_str. destruct (Row.deleted_at r) as [s|]; [|reflexivity].
  rewrite negb_involutive. reflexivity.
Qed.

Lemma conflict_sym e a b : conflict e a b = conflict e b a.
Proof.
  unfold conflict.
  rewrite (Z.eqb_sym (Row.id a)), (String.eqb_sym (Row.uuid a)).
  f_equal.
  destruct (Row.supabase_id a), (Row.supabase_id b); try reflexivity.
  apply Z.eqb_sym.
Qed.

Lemma distinct_by_unique {A : Type} (c : A -> A -> bool) (l : list A) a b :
  (forall x y, c x y = c y x) ->
  distinct_by c l = true -> In a l -> In b l -> c a b = true -> a = b.
Proof.
  intros Hsym. induction l as [|x t IH]; simpl; intros Hd Ha Hb Hc; [contradiction|].
  apply andb_true_iff in Hd. destruct Hd as [Hx Ht].
  rewrite forallb_forall in Hx.
  destruct Ha as [->|Ha], Hb as [->|Hb]; auto.
  - apply Hx in Hb. rewrite Hc in Hb. discriminate.
  - apply Hx in Ha. rewrite Hsym, Hc in Ha. discriminate.
Qed.

(** [uuid] is a key of a table that satisfies its constraints. *)
Lemma table_ok_uuid_key e rows a b :
  table_ok e rows = true -> In a rows -> In b rows ->
  Row.uuid a = Row.uuid b -> a = b.
Proof.
  intros Hok Ha Hb E.
  apply (@distinct_by_unique _ (conflict e) rows a b (conflict_sym e) Hok Ha Hb).
  unfold conflict. rewrite E, String.eqb_refl, orb_true_r. reflexivity.
Qed.

Lemma uuid_is_eq u r : uuid_is u r = true <-> u = Some (Row.uuid r).
Proof.
  unfold uuid_is, opt_eqb. destruct u as [s|]; split; intros H; try discriminate.
  - apply String.eqb_eq in H. congruence.
  - inversion H; subst. apply String.eqb_refl.
Qed.

(** The rows of an [UPDATE], old against new. *)
Lemma update_rows_Forall2 wh st rows rows' :
  update_rows wh st rows = Some rows' ->
  Forall2 (fun r r' => if wh r then st r = Some r' else r' = r) rows rows'.
Proof.
  revert rows'. induction rows as [|r rest IH]; simpl; intros rows' H.
  - inversion H; constructor.
  - destruct (update_rows wh st rest) as [rest'|]; [|discriminate].
    destruct (wh r) eqn:E.
    + destruct (st r) as [r'|] eqn:Es; [|discriminate].
      inversion H; subst. constructor; [rewrite E; exact Es | apply IH; reflexivity].
    + inversion H; subst. constructor; [rewrite E; reflexivity | apply IH; reflexivity].
Qed.

Lemma Forall2_refl_eq {A : Type} (R : A -> A -> Prop) (l : list A) :
  (forall a, In a l -> R a a) -> Forall2 R l l.
Proof.
  induction l as [|a t IH]; intros H; constructor.
  - apply H; left; reflexivity.
  - apply IH. intros b Hb. apply H; right; exact Hb.
Qed.

Lemma sql_update_rows e wh st d d' :
  sql_update e wh st d = Ok d' ->
  Forall2 (fun r r' => if wh r then st r = Some r' else r' = r)
          (table e d) (table e d').
Proof.
  unfold sql_update. intros H.
  destruct (existsb wh (table e d)) eqn:Ex.
  - destruct (update_rows wh st (table e d)) as [rows'|] eqn:Eu; [|discriminate].
    destruct (table_ok e rows' && fk_ok (set_table e rows' d)); inversion H; subst.
    rewrite table_set_table. apply update_rows_Forall2, Eu.
  - inversion H; subst. apply Forall2_refl_eq. intros a Ha.
    destruct (wh a) eqn:Ea; [|reflexivity].
    exfalso. assert (existsb wh (table e d') = true)
      by (apply existsb_exists; exists a; auto).
    congruence.
Qed.

Lemma Forall2_In_l {A B : Type} (R : A -> B -> Prop) l l' a :
  Forall2 R l l' -> In a l -> exists b, In b l' /\ R a b.
Proof.
  induction 1 as [|x y t t' Hxy Ht IH]; simpl; intros Ha; [contradiction|].
  destruct Ha as [->|Ha].
  - exists y; auto.
  - destruct (IH Ha) as (b & Hb & Hr). exists b; auto.
Qed.

Lemma Forall2_In_r {A B : Type} (R : A -> B -> Prop) l l' b :
  Forall2 R l l' -> In b l' -> exists a, In a l /\ R a b.
Proof.
  induction 1 as [|x y t t' Hxy Ht IH]; simpl; intros Hb; [contradiction|].
  destruct Hb as [->|Hb].
  - exists x; auto.
  - destruct (IH Hb) as (a & Ha & Hr). exists a; auto.
Qed.

(** The table after an [INSERT OR IGNORE]: unchanged, or one row longer. *)
Lemma sql_insert_or_ignore_rows e row d d' :
  sql_insert_or_ignore e row d = Ok d' ->
  table e d' = table e d
  \/ exists r, row (next_rowid e d) = Some r
               /\ existsb (conflict e r) (table e d) = false
               /\ table e d' = table e d ++ [r].
Proof.
  unfold sql_insert_or_ignore. intros H.
  destruct (row (next_rowid e d)) as [r|];
    [|inversion H; left; apply table_set_sequence].
  destruct (existsb (conflict e r) (table e d)) eqn:Ec;
    [inversion H; left; apply table_set_sequence|].
  destruct (fk_ok _); inversion H; subst.
  right. exists r. rewrite table_set_sequence, table_set_table. auto.
Qed.

(* ------------------------------------------------------------------ *)
(** * Pull: the loop as a sequence of statements *)

Section PullRun.

Variable P : Platform.

Lemma set_db_same (w : World P) d : db w = Some d -> set_db d w = w.
Proof. destruct w; simpl; intros ->; reflexivity. Qed.

Lemma mergeRemoteItem_run e localItems i (w : World P) d :
  db w = Some d ->
  mergeRemoteItem e localItems i w =
    match merge_statement P e localItems i d with
    | Ok d' => (Ok tt, set_db d' w)
    | Threw m => (Threw m, w)
    end.
Proof.
  intros Hd. unfold mergeRemoteItem, merge_statement,
    insertRemoteItem, updateLocalFromRemote.
  destruct (truthy_str (RemoteItem.deleted_at i)).
  - destruct (find_local localItems i) as [l|].
    + destruct (negb (truthy_str (Row.deleted_at l))).
      * apply runAsync_run, Hd.
      * unfold ret. rewrite (set_db_same _ Hd). reflexivity.
    + unfold ret. rewrite (set_db_same _ Hd). reflexivity.
  - destruct (find_local localItems i) as [l|].
    + destruct (remote_wins P i l).
      * apply runAsync_run, Hd.
      * unfold ret. rewrite (set_db_same _ Hd). reflexivity.
    + apply runAsync_run, Hd.
Qed.

Lemma forEach_merge_run e localItems items : forall (w : World P) d,
  db w = Some d ->
  exists d1,
    forEach items (mergeRemoteItem e localItems) w =
      (match merge_all P e localItems items d with
       | Ok _ => Ok tt
       | Threw m => Threw m
       end, set_db d1 w)
    /\ forall d', merge_all P e localItems items d = Ok d' -> d1 = d'.
Proof.
  induction items as [|i rest IH]; intros w d Hd; simpl.
  - exists d. unfold ret. rewrite (set_db_same _ Hd).
    split; [reflexivity | intros d' H; inversion H; reflexivity].
  - unfold bind. rewrite (mergeRemoteItem_run e localItems i _ Hd).
    destruct (merge_statement P e localItems i d) as [d2|m].
    + destruct (IH (set_db d2 w) d2 eq_refl) as (d1 & E & H1).
      exists d1. rewrite E. split; [destruct w; reflexivity | exact H1].
    + exists d. rewrite (set_db_same _ Hd).
      split; [reflexivity | intros d' H; discriminate].
Qed.

(** [mergeRemoteItems] commits the store the statements lead to, or
    throws and leaves the world as it found it. *)
Lemma mergeRemoteItems_run e items (w : World P) d :
  db w = Some d ->
  mergeRemoteItems e items w =
    match merge_all P e (filter active (table e d)) items d with
    | Ok d' => (Ok tt, set_db d' w)
    | Threw m => (Threw m, w)
    end.
Proof.
  intros Hd. unfold mergeRemoteItems, bind, getDb. rewrite Hd.
  unfold withTransactionAsync.
  destruct (forEach_merge_run e (filter active (table e d)) items _ Hd)
    as (d1 & E & H1).
  rewrite E.
  destruct (merge_all P e (filter active (table e d)) items d) as [d'|m].
  - rewrite (H1 d' eq_refl). reflexivity.
  - destruct w; simpl in *. rewrite Hd. reflexivity.
Qed.

(** [fetchEntityChanges] is the fetch followed by [mergeRemoteItems] on
    the records fetched; a failed fetch throws before the store is read. *)
Lemma fetchEntityChanges_run e (w : World P) :
  fetchEntityChanges e w =
    match supabase_select P e (remote_st w) with
    | (inl error, r) => (Threw error, set_remote r w)
    | (inr items, r) => mergeRemoteItems e items (set_remote r w)
    end.
Proof.
  unfold fetchEntityChanges, bind, remote_call.
  destruct (supabase_select P e (remote_st w)) as [[error|items] r]; reflexivity.
Qed.

End PullRun.

(* ------------------------------------------------------------------ *)
(** * The pull reconciler: the properties *)

Section PullClaims.

Variable P : Platform.

Lemma assign_from_remote_frame e i r r' :
  assign_from_remote e i r = Some r' ->
  same_identity r r'
  /\ Row.is_synced r' = 1
  /\ (e <> students -> student_columns r' = student_columns r).
Proof.
  unfold assign_from_remote, same_identity, student_columns. intros H.
  destruct (RemoteItem.name i) as [n|]; [|discriminate].
  destruct (js_or (RemoteItem.updated_at i) (RemoteItem.created_at i)) as [u|];
    [|discriminate].
  destruct e.
  - inversion H; subst; simpl; repeat split; reflexivity.
  - inversion H; subst; simpl; repeat split; reflexivity.
  - destruct (RemoteItem.office_id i) as [o|]; [|discriminate].
    destruct (RemoteItem.level_id i) as [l|]; [|discriminate].
    inversion H; subst; simpl; repeat split; try reflexivity.
    intros Hne; congruence.
Qed.

(** C10, frame of the remote-wins overwrite: after
    [updateLocalFromRemote], whether it returns or throws, the queue and the
    other tables are as before, and every row of the table is matched, in
    order, by a row with the same [id], [uuid], [supabase_id],
    [created_at], [deleted_at] and [operation_type]; a row with another
    [uuid] is not changed at all, a row it writes gets [is_synced = 1], and
    outside [students] the student-only columns keep their value.  So only
    the business columns, [updated_at] and [is_synced] can differ. *)
Theorem remote_overwrite_frame (e : entity) (i : RemoteItem.t)
    (w w' : World P) (d : LocalDb) (o : outcome unit) :
  db w = Some d ->
  updateLocalFromRemote e i w = (o, w') ->
  exists d',
    w' = set_db d' w
    /\ sync_queue d' = sync_queue d
    /\ (forall e', e' <> e -> table e' d' = table e' d)
    /\ Forall2
         (fun r r' =>
            same_identity r r'
            /\ (uuid_is (RemoteItem.uuid i) r = false -> r' = r)
            /\ (uuid_is (RemoteItem.uuid i) r = true -> r' <> r ->
                Row.is_synced r' = 1)
            /\ (e <> students -> student_columns r' = student_columns r))
         (table e d) (table e d').
Proof.
  intros Hd. unfold updateLocalFromRemote. rewrite (runAsync_run _ w Hd).
  assert (Hsame : forall r : Row.t, same_identity r r)
    by (intros r; unfold same_identity; repeat split; reflexivity).
  destruct (sql_update e (uuid_is (RemoteItem.uuid i)) (assign_from_remote e i) d)
    as [d'|m] eqn:E; intros H; inversion H; subst.
  - exists d'. split; [reflexivity|].
    split; [eapply sql_update_queue; eauto|].
    split; [intros e' Hne; eapply sql_update_other_table; eauto|].
    apply sql_update_rows in E.
    eapply Forall2_impl; [|exact E]. simpl. intros r r' Hr.
    destruct (uuid_is (RemoteItem.uuid i) r) eqn:Eu.
    + apply assign_from_remote_frame in Hr. destruct Hr as (H1 & H2 & H3).
      repeat split; auto; try apply H1. discriminate.
    + subst r'. repeat split; auto. discriminate.
  - exists d. split; [symmetry; apply set_db_same, Hd|].
    split; [reflexivity|]. split; [reflexivity|].
    apply Forall2_refl_eq. intros r _. repeat split; auto. congruence.
Qed.


(** What one statement of the loop does to a given row: nothing, the
    tombstone, or the remote version.  The last two only to a row with the
    remote record's [uuid], and only when the snapshot holds an active row
    with that [uuid] (for the remote version: one the remote record wins
    over). *)
Lemma merge_statement_row e localItems i d d' l :
  merge_statement P e localItems i d = Ok d' ->
  In l (table e d) ->
  exists l',
    In l' (table e d')
    /\ (l' = l
        \/ (uuid_is (RemoteItem.uuid i) l = true
            /\ truthy_str (RemoteItem.deleted_at i) = true
            /\ (exists l0, find_local localItems i = Some l0
                           /\ truthy_str (Row.deleted_at l0) = false)
            /\ l' = with_tombstone (RemoteItem.deleted_at i) l)
        \/ (uuid_is (RemoteItem.uuid i) l = true
            /\ truthy_str (RemoteItem.deleted_at i) = false
            /\ (exists l0, find_local localItems i = Some l0
                           /\ remote_wins P i l0 = true)
            /\ assign_from_remote e i l = Some l')).
Proof.
  unfold merge_statement. intros H Hl.
  assert (Hnop : forall d0 : LocalDb, Ok d0 = Ok d' -> In l (table e d0) ->
                 exists l', In l' (table e d') /\ (l' = l \/ False))
    by (intros d0 E Hin; inversion E; subst; exists l; auto).
  destruct (truthy_str (RemoteItem.deleted_at i)) eqn:Et.
  - destruct (find_local localItems i) as [l0|] eqn:Ef.
    + destruct (negb (truthy_str (Row.deleted_at l0))) eqn:En.
      * apply sql_update_rows in H.
        destruct (Forall2_In_l l H Hl) as (l' & Hl' & Hr).
        exists l'. split; [exact Hl'|].
        destruct (uuid_is (RemoteItem.uuid i) l) eqn:Eu; [|left; exact Hr].
        right; left. inversion Hr; subst. repeat split; auto.
        exists l0. split; [reflexivity|]. apply negb_true_iff, En.
      * destruct (Hnop d H Hl) as (l' & H1 & [H2|[]]). exists l'; auto.
    + destruct (Hnop d H Hl) as (l' & H1 & [H2|[]]). exists l'; auto.
  - destruct (find_local localItems i) as [l0|] eqn:Ef.
    + destruct (remote_wins P i l0) eqn:Eg.
      * apply sql_update_rows in H.
        destruct (Forall2_In_l l H Hl) as (l' & Hl' & Hr).
        exists l'. split; [exact Hl'|].
        destruct (uuid_is (RemoteItem.uuid i) l) eqn:Eu; [|left; exact Hr].
        right; right. repeat split; auto. exists l0; auto.
      * destruct (Hnop d H Hl) as (l' & H1 & [H2|[]]). exists l'; auto.
    + apply sql_insert_or_ignore_rows in H.
      destruct H as [->|(r & _ & _ & E)]; [exists l; auto|].
      exists l. rewrite E. split; [apply in_or_app; auto | auto].
Qed.

Lemma merge_statement_queue e localItems i d d' :
  merge_statement P e localItems i d = Ok d' -> sync_queue d' = sync_queue d.
Proof.
  unfold merge_statement. intros H.
  destruct (truthy_str (RemoteItem.deleted_at i)).
  - destruct (find_local localItems i) as [l0|]; [|inversion H; reflexivity].
    destruct (negb (truthy_str (Row.deleted_at l0))); [|inversion H; reflexivity].
    eapply sql_update_queue; eauto.
  - destruct (find_local localItems i) as [l0|].
    + destruct (remote_wins P i l0); [|inversion H; reflexivity].
      eapply sql_update_queue; eauto.
    + eapply sql_insert_or_ignore_queue; eauto.
Qed.

(** The snapshot's row for a remote record is the table's row with that
    [uuid]. *)
Lemma find_local_key e d i l0 l :
  table_ok e (table e d) = true ->
  find_local (filter active (table e d)) i = Some l0 ->
  In l (table e d) ->
  uuid_is (RemoteItem.uuid i) l = true ->
  l0 = l /\ active l = true.
Proof.
  intros Hok Hf Hl Hu. unfold find_local in Hf.
  apply find_some in Hf. destruct Hf as [Hin Hu0].
  apply filter_In in Hin. destruct Hin as [Hin Ha].
  apply uuid_is_eq in Hu. apply uuid_is_eq in Hu0.
  assert (l0 = l) by (eapply table_ok_uuid_key; eauto; congruence).
  subst. auto.
Qed.

Lemma truthy_int_zero l :
  Row.is_synced l = 0 -> truthy_int (Some (Row.is_synced l)) = false.
Proof. intros ->. reflexivity. Qed.

(** An unsynced row is kept as it is by every statement of the loop,
    unless it is active and the remote record is a tombstone for it. *)
Lemma merge_all_keeps_row e d0 l items : forall d d',
  table_ok e (table e d0) = true ->
  In l (table e d0) ->
  Row.is_synced l = 0 ->
  (active l = false
   \/ forall i, In i items -> RemoteItem.uuid i = Some (Row.uuid l) ->
                truthy_str (RemoteItem.deleted_at i) = false) ->
  merge_all P e (filter active (table e d0)) items d = Ok d' ->
  In l (table e d) ->
  In l (table e d') /\ sync_queue d' = sync_queue d.
Proof.
  induction items as [|i rest IH]; simpl; intros d d' Hok Hl0 Hs Hc H Hl.
  - inversion H; subst; auto.
  - destruct (merge_statement P e (filter active (table e d0)) i d) as [d1|m] eqn:E;
      [|discriminate].
    assert (Hl1 : In l (table e d1)).
    { edestruct merge_statement_row as (l' & Hl' & Hcase); [exact E | exact Hl |].
      destruct Hcase as [->|[(Hu & Ht & (l1 & Hf & _) & _)|(Hu & Ht & (l1 & Hf & Hg) & _)]];
        [exact Hl'| |]; exfalso.
      - edestruct find_local_key as [Heq Ha];
          [exact Hok | exact Hf | exact Hl0 | exact Hu |].
        destruct Hc as [Hc|Hc]; [congruence|].
        rewrite (Hc i (or_introl eq_refl)) in Ht; [discriminate|].
        apply uuid_is_eq, Hu.
      - edestruct find_local_key as [Heq Ha];
          [exact Hok | exact Hf | exact Hl0 | exact Hu |].
        subst l1. unfold remote_wins in Hg. rewrite (truthy_int_zero _ Hs), andb_false_r in Hg.
        discriminate. }
    destruct (IH d1 d' Hok Hl0 Hs) as [H1 H2]; auto.
    + destruct Hc as [Hc|Hc]; [left; exact Hc | right].
      intros j Hj. apply Hc. right; exact Hj.
    + split; [exact H1|]. rewrite H2. eapply merge_statement_queue; eauto.
Qed.

(** The same for the whole transaction of [fetchEntityChanges], whether it
    commits or throws. *)
Lemma merge_keeps_unpushed (e : entity) (items : list RemoteItem.t)
    (w w' : World P) (d : LocalDb) (l : Row.t) (o : outcome unit) :
  db w = Some d ->
  table_ok e (table e d) = true ->
  In l (table e d) ->
  Row.is_synced l = 0 ->
  (active l = false
   \/ forall i, In i items -> RemoteItem.uuid i = Some (Row.uuid l) ->
                truthy_str (RemoteItem.deleted_at i) = false) ->
  mergeRemoteItems e items w = (o, w') ->
  exists d', db w' = Some d' /\ In l (table e d') /\ sync_queue d' = sync_queue d.
Proof.
  intros Hd Hok Hl Hs Hc. rewrite (mergeRemoteItems_run e items w Hd).
  destruct (merge_all P e (filter active (table e d)) items d) as [d'|m] eqn:E;
    intros H; inversion H; subst.
  - exists d'. split; [reflexivity|].
    eapply merge_all_keeps_row; eauto.
  - exists d. auto.
Qed.


(** With a non-empty [updated_at] on both sides, the times compared are
    those of the two [updated_at] texts. *)
Lemma remoteTime_updated_at i u :
  RemoteItem.updated_at i = Some u -> u <> EmptyString ->
  remoteTime P i = Date_parse P u.
Proof.
  intros Hu Hne. unfold remoteTime, js_or, truthy_str, Date_getTime. rewrite Hu.
  apply String.eqb_neq in Hne. rewrite Hne. simpl. rewrite Hne. reflexivity.
Qed.

Lemma localTime_updated_at (l : Row.t) :
  Row.updated_at l <> EmptyString ->
  localTime P l = Date_parse P (Row.updated_at l).
Proof.
  intros Hne. unfold localTime, js_or, truthy_str, Date_getTime.
  apply String.eqb_neq in Hne. rewrite Hne. simpl. rewrite Hne. reflexivity.
Qed.

Lemma remote_wins_inv i l :
  remote_wins P i l = true ->
  time_gt (remoteTime P i) (localTime P l) = true /\ Row.is_synced l <> 0.
Proof.
  unfold remote_wins. intros H. apply andb_true_iff in H. destruct H as [H1 H2].
  split; [exact H1|]. intros E. rewrite (truthy_int_zero _ E) in H2. discriminate.
Qed.

(** The loop, for the table's row [l] of the snapshot: the row that stands
    for it keeps its content unless a remote record won over [l]. *)
Lemma merge_all_guard e d0 l all items : forall d d',
  table_ok e (table e d0) = true ->
  In l (table e d0) ->
  (forall i, In i items -> In i all) ->
  merge_all P e (filter active (table e d0)) items d = Ok d' ->
  (exists l', In l' (table e d) /\ Row.id l' = Row.id l /\ Row.uuid l' = Row.uuid l
     /\ (content l' = content l
         \/ exists i, In i all /\ RemoteItem.uuid i = Some (Row.uuid l)
                      /\ truthy_str (RemoteItem.deleted_at i) = false
                      /\ remote_wins P i l = true /\ active l = true)) ->
  exists l', In l' (table e d') /\ Row.id l' = Row.id l /\ Row.uuid l' = Row.uuid l
     /\ (content l' = content l
         \/ exists i, In i all /\ RemoteItem.uuid i = Some (Row.uuid l)
                      /\ truthy_str (RemoteItem.deleted_at i) = false
                      /\ remote_wins P i l = true /\ active l = true).
Proof.
  induction items as [|i rest IH]; simpl; intros d d' Hok Hl0 Hsub H HK.
  - inversion H; subst; exact HK.
  - destruct (merge_statement P e (filter active (table e d0)) i d) as [d1|m] eqn:E;
      [|discriminate].
    apply (IH d1 d' Hok Hl0); [intros j Hj; apply Hsub; right; exact Hj | exact H |].
    destruct HK as (l' & Hl' & Hid & Hu & Hc).
    edestruct merge_statement_row as (l2 & Hl2 & Hcase); [exact E | exact Hl' |].
    destruct Hcase as [->|[(Hu2 & Ht & _ & ->)|(Hu2 & Ht & (l1 & Hf & Hg) & Ha)]].
    + exists l'. auto.
    + exists (with_tombstone (RemoteItem.deleted_at i) l'). auto.
    + exists l2. split; [exact Hl2|].
      destruct (assign_from_remote_frame _ _ _ Ha) as ((Hi2 & Huu2 & _) & _).
      split; [congruence|]. split; [congruence|]. right.
      assert (Hul : uuid_is (RemoteItem.uuid i) l = true).
      { apply uuid_is_eq. apply uuid_is_eq in Hu2. congruence. }
      edestruct find_local_key as [Heq Hact];
        [exact Hok | exact Hf | exact Hl0 | exact Hul |].
      subst l1. exists i. split; [apply Hsub; left; reflexivity|].
      split; [apply uuid_is_eq, Hul|]. repeat split; assumption.
Qed.

(** The guard, for the whole transaction of [fetchEntityChanges]. *)
Lemma merge_conflict_guard (e : entity) (items : list RemoteItem.t)
    (w w' : World P) (d : LocalDb) (l : Row.t) (o : outcome unit) :
  db w = Some d ->
  table_ok e (table e d) = true ->
  In l (table e d) ->
  mergeRemoteItems e items w = (o, w') ->
  exists d' l',
    db w' = Some d' /\ In l' (table e d')
    /\ Row.id l' = Row.id l /\ Row.uuid l' = Row.uuid l
    /\ (content l' = content l
        \/ exists i, In i items /\ RemoteItem.uuid i = Some (Row.uuid l)
                     /\ truthy_str (RemoteItem.deleted_at i) = false
                     /\ time_gt (remoteTime P i) (localTime P l) = true
                     /\ Row.is_synced l <> 0 /\ active l = true)
    /\ (Row.is_synced l = 0 -> content l' = content l).
Proof.
  intros Hd Hok Hl. rewrite (mergeRemoteItems_run e items w Hd).
  assert (Hfin : forall d' l',
            In l' (table e d') /\ Row.id l' = Row.id l /\ Row.uuid l' = Row.uuid l
            /\ (content l' = content l
                \/ exists i, In i items /\ RemoteItem.uuid i = Some (Row.uuid l)
                             /\ truthy_str (RemoteItem.deleted_at i) = false
                             /\ remote_wins P i l = true /\ active l = true) ->
            In l' (table e d')
            /\ Row.id l' = Row.id l /\ Row.uuid l' = Row.uuid l
            /\ (content l' = content l
                \/ exists i, In i items /\ RemoteItem.uuid i = Some (Row.uuid l)
                     /\ truthy_str (RemoteItem.deleted_at i) = false
                     /\ time_gt (remoteTime P i) (localTime P l) = true
                     /\ Row.is_synced l <> 0 /\ active l = true)
            /\ (Row.is_synced l = 0 -> content l' = content l)).
  { intros d' l' (H1 & H2 & H3 & H4). repeat split; auto.
    - destruct H4 as [H4|(i & Hi & Hu & Ht & Hg & Ha)]; [left; exact H4 | right].
      apply remote_wins_inv in Hg. destruct Hg as [Hg1 Hg2].
      exists i. repeat split; assumption.
    - intros Hs. destruct H4 as [H4|(i & Hi & Hu & Ht & Hg & Ha)]; [exact H4|].
      apply remote_wins_inv in Hg. destruct Hg as [_ Hg2]. contradiction. }
  destruct (merge_all P e (filter active (table e d)) items d) as [d'|m] eqn:E;
    intros H; inversion H; subst.
  - edestruct merge_all_guard as (l' & HK);
      [exact Hok | exact Hl | intros i Hi; exact Hi | exact E
      | exists l; repeat split; auto |].
    exists d', l'. split; [reflexivity|]. apply (Hfin d'). exact HK.
  - exists d, l. split; [exact Hd|]. apply (Hfin d). repeat split; auto.
Qed.


(** ** Running the pull twice *)

Lemma time_gt_irrefl x : time_gt x x = false.
Proof. destruct x as [z|]; simpl; [apply Z.ltb_irrefl | reflexivity]. Qed.

(** A row that carries the remote record's time does not lose to it:
    [updated_at] is the text the remote time was parsed from, and the empty
    text parses to NaN. *)
Lemma same_time_does_not_win i (r : Row.t) u :
  js_or (RemoteItem.updated_at i) (RemoteItem.created_at i) = Some u ->
  Row.updated_at r = u ->
  remote_wins P i r = false.
Proof.
  intros Hj Hu. unfold remote_wins, remoteTime, localTime. rewrite Hj, Hu.
  unfold js_or at 1. simpl truthy_str.
  destruct (String.eqb u EmptyString) eqn:E; simpl.
  - rewrite E. reflexivity.
  - rewrite time_gt_irrefl. reflexivity.
Qed.

Lemma assign_from_remote_settles e i r r' :
  assign_from_remote e i r = Some r' -> remote_wins P i r' = false.
Proof.
  unfold assign_from_remote. intros H.
  destruct (RemoteItem.name i) as [n|]; [|discriminate].
  destruct (js_or (RemoteItem.updated_at i) (RemoteItem.created_at i)) as [u|] eqn:Ej;
    [|discriminate].
  apply (same_time_does_not_win i r' Ej).
  destruct e.
  - inversion H; reflexivity.
  - inversion H; reflexivity.
  - destruct (RemoteItem.office_id i); [|discriminate].
    destruct (RemoteItem.level_id i); [|discriminate].
    inversion H; reflexivity.
Qed.

Lemma row_of_remote_inv e i k r :
  row_of_remote e i k = Some r ->
  RemoteItem.uuid i = Some (Row.uuid r)
  /\ js_or (RemoteItem.updated_at i) (RemoteItem.created_at i)
       = Some (Row.updated_at r).
Proof.
  unfold row_of_remote. intros H.
  destruct (RemoteItem.uuid i) as [u|]; [|discriminate].
  destruct (RemoteItem.name i) as [n|]; [|discriminate].
  destruct (RemoteItem.created_at i) as [c|]; [|discriminate].
  destruct (js_or (RemoteItem.updated_at i) (Some c)) as [up|]; [|discriminate].
  destruct e.
  - inversion H; subst; simpl; auto.
  - inversion H; subst; simpl; auto.
  - destruct (RemoteItem.office_id i); [|discriminate].
    destruct (RemoteItem.level_id i); [|discriminate].
    inversion H; subst; simpl; auto.
Qed.

Lemma Forall2_filter_eq (f : Row.t -> bool) (Q : Row.t -> Row.t -> Prop) rows rows' :
  Forall2 Q rows rows' ->
  (forall r r', Q r r' -> (f r = true -> r' = r) /\ (f r = false -> f r' = false)) ->
  filter f rows' = filter f rows.
Proof.
  intros HF HQ. induction HF as [|x y t t' Hxy Ht IH]; simpl; [reflexivity|].
  destruct (HQ x y Hxy) as [H1 H2].
  destruct (f x) eqn:E.
  - rewrite (H1 eq_refl), E, IH. reflexivity.
  - rewrite (H2 eq_refl), IH. reflexivity.
Qed.

Lemma uuid_is_same_uuid u r r' :
  Row.uuid r' = Row.uuid r -> uuid_is u r' = uuid_is u r.
Proof. unfold uuid_is. intros ->. reflexivity. Qed.

(** An [UPDATE ... WHERE uuid = v] that keeps [uuid] leaves the rows of any
    other [uuid] as they are. *)
Lemma sql_update_other_uuid e v st u d d' :
  (forall r r', st r = Some r' -> Row.uuid r' = Row.uuid r) ->
  v <> u ->
  sql_update e (uuid_is v) st d = Ok d' ->
  filter (uuid_is u) (table e d') = filter (uuid_is u) (table e d).
Proof.
  intros Hst Hne H. apply sql_update_rows in H.
  eapply Forall2_filter_eq; [exact H|]. simpl. intros r r' Hr.
  destruct (uuid_is v r) eqn:Ev.
  - split.
    + intros Hu. apply uuid_is_eq in Ev. apply uuid_is_eq in Hu. congruence.
    + intros Hu. rewrite (uuid_is_same_uuid u r r' (Hst _ _ Hr)). exact Hu.
  - subst r'. auto.
Qed.

(** A statement of the loop leaves alone the rows whose [uuid] is not the
    remote record's, and adds none. *)
Lemma merge_statement_other_uuid e localItems i u d d' :
  RemoteItem.uuid i <> u ->
  merge_statement P e localItems i d = Ok d' ->
  filter (uuid_is u) (table e d') = filter (uuid_is u) (table e d).
Proof.
  unfold merge_statement. intros Hne H.
  destruct (truthy_str (RemoteItem.deleted_at i)).
  - destruct (find_local localItems i) as [l0|]; [|inversion H; reflexivity].
    destruct (negb (truthy_str (Row.deleted_at l0))); [|inversion H; reflexivity].
    eapply sql_update_other_uuid; [|exact Hne|exact H].
    intros r r' Hr. inversion Hr; reflexivity.
  - destruct (find_local localItems i) as [l0|].
    + destruct (remote_wins P i l0); [|inversion H; reflexivity].
      eapply sql_update_other_uuid; [|exact Hne|exact H].
      intros r r' Hr. apply assign_from_remote_frame in Hr. apply Hr.
    + apply sql_insert_or_ignore_rows in H.
      destruct H as [->|(r & Hr & _ & E)]; [reflexivity|].
      rewrite E, filter_app. simpl.
      apply row_of_remote_inv in Hr. destruct Hr as [Hu _].
      destruct (uuid_is u r) eqn:Eu; [|apply app_nil_r].
      apply uuid_is_eq in Eu. congruence.
Qed.

Lemma merge_all_other_uuid e localItems u items : forall d d',
  (forall j, In j items -> RemoteItem.uuid j <> u) ->
  merge_all P e localItems items d = Ok d' ->
  filter (uuid_is u) (table e d') = filter (uuid_is u) (table e d).
Proof.
  induction items as [|i rest IH]; simpl; intros d d' Hne H.
  - inversion H; reflexivity.
  - destruct (merge_statement P e localItems i d) as [d1|m] eqn:E; [|discriminate].
    rewrite (IH d1 d'); [|intros j Hj; apply Hne; right; exact Hj | exact H].
    eapply merge_statement_other_uuid; [|exact E]. apply Hne. left; reflexivity.
Qed.


(** The statement for record [i], run while the rows with its [uuid] are
    still those of the snapshot's store, settles [i]. *)
Lemma merge_statement_settles e d0 i d d' :
  table_ok e (table e d0) = true ->
  filter (uuid_is (RemoteItem.uuid i)) (table e d)
    = filter (uuid_is (RemoteItem.uuid i)) (table e d0) ->
  merge_statement P e (filter active (table e d0)) i d = Ok d' ->
  settled P e i d'.
Proof.
  intros Hok Hsame H.
  (* an active row of [d] with the record's uuid is in the snapshot *)
  assert (Hsnap : forall row,
            In row (filter (uuid_is (RemoteItem.uuid i)) (table e d)) ->
            active row = true ->
            In row (table e d0) /\ uuid_is (RemoteItem.uuid i) row = true
            /\ In row (filter active (table e d0))).
  { intros row Hin Ha. rewrite Hsame in Hin. apply filter_In in Hin.
    destruct Hin as [H1 H2]. repeat split; auto. apply filter_In; auto. }
  assert (Hnone : find_local (filter active (table e d0)) i = None ->
                  forall row,
                    In row (filter (uuid_is (RemoteItem.uuid i)) (table e d)) ->
                    active row = true -> False).
  { intros Hf row Hin Ha. destruct (Hsnap row Hin Ha) as (_ & Hu & Hs).
    unfold find_local in Hf.
    pose proof (find_none _ _ Hf row Hs) as Hn. congruence. }
  unfold merge_statement in H. unfold settled.
  destruct (truthy_str (RemoteItem.deleted_at i)) eqn:Et.
  - destruct (find_local (filter active (table e d0)) i) as [l0|] eqn:Ef.
    + assert (Hl0 : active l0 = true).
      { unfold find_local in Ef. apply find_some in Ef. destruct Ef as [Ef _].
        apply filter_In in Ef. apply Ef. }
      rewrite active_truthy in Hl0. rewrite Hl0 in H.
      apply sql_update_rows in H.
      intros row Hin Ha. exfalso. apply filter_In in Hin. destruct Hin as [Hin Hu].
      destruct (Forall2_In_r row H Hin) as (r & Hr & Hrel).
      destruct (uuid_is (RemoteItem.uuid i) r) eqn:Eu.
      * inversion Hrel; subst. rewrite active_truthy in Ha. simpl in Ha.
        rewrite Et in Ha. discriminate.
      * subst. congruence.
    + inversion H; subst. intros row Hin Ha. exfalso. eapply Hnone; eauto.
  - destruct (find_local (filter active (table e d0)) i) as [l0|] eqn:Ef.
    + destruct (remote_wins P i l0) eqn:Eg.
      * apply sql_update_rows in H.
        intros row Hin Ha. split; [reflexivity|].
        apply filter_In in Hin. destruct Hin as [Hin Hu].
        destruct (Forall2_In_r row H Hin) as (r & Hr & Hrel).
        destruct (uuid_is (RemoteItem.uuid i) r) eqn:Eu.
        -- eapply assign_from_remote_settles; eauto.
        -- subst. congruence.
      * inversion H; subst. intros row Hin Ha. split; [reflexivity|].
        destruct (Hsnap row Hin Ha) as (Hr0 & Hu & _).
        edestruct find_local_key as [Heq _];
          [exact Hok | exact Ef | exact Hr0 | exact Hu |].
        subst. exact Eg.
    + apply sql_insert_or_ignore_rows in H.
      destruct H as [->|(r & Hr & _ & E)];
        intros row Hin Ha; split; try reflexivity.
      * exfalso. eapply Hnone; eauto.
      * rewrite E, filter_app in Hin. apply in_app_or in Hin.
        destruct Hin as [Hin|Hin]; [exfalso; eapply Hnone; eauto|].
        simpl in Hin. destruct (uuid_is (RemoteItem.uuid i) r); [|contradiction].
        destruct Hin as [<-|[]].
        apply row_of_remote_inv in Hr. destruct Hr as [_ Hj].
        eapply same_time_does_not_win; eauto.
Qed.

(** After the loop over records with pairwise distinct [uuid]s, every
    record is settled. *)
Lemma merge_all_settles e d0 items : forall d d',
  table_ok e (table e d0) = true ->
  NoDup (map RemoteItem.uuid items) ->
  (forall j, In j items ->
     filter (uuid_is (RemoteItem.uuid j)) (table e d)
       = filter (uuid_is (RemoteItem.uuid j)) (table e d0)) ->
  merge_all P e (filter active (table e d0)) items d = Ok d' ->
  forall i, In i items -> settled P e i d'.
Proof.
  induction items as [|i rest IH]; simpl; intros d d' Hok Hn Hsame H j Hj;
    [contradiction|].
  destruct (merge_statement P e (filter active (table e d0)) i d) as [d1|m] eqn:E;
    [|discriminate].
  inversion Hn as [|? ? Hni Hnr]; subst.
  assert (Hrest : forall k, In k rest -> RemoteItem.uuid k <> RemoteItem.uuid i).
  { intros k Hk Eq. apply Hni. rewrite <- Eq. apply in_map; exact Hk. }
  destruct Hj as [<-|Hj].
  - assert (Hs : settled P e i d1).
    { eapply merge_statement_settles;
        [exact Hok | apply Hsame; left; reflexivity | exact E]. }
    unfold settled in *.
    rewrite (merge_all_other_uuid _ _ _ _ Hrest H). exact Hs.
  - apply (IH d1 d' Hok Hnr); auto.
    intros k Hk. rewrite <- (Hsame k (or_intror Hk)).
    eapply merge_statement_other_uuid; [|exact E].
    intros Eq. apply (Hrest k Hk). congruence.
Qed.

(** The rowid [AUTOINCREMENT] hands out is larger than every rowid in the
    table. *)
Lemma largest_id_above rows x : In x rows -> Row.id x <= largest_id rows.
Proof.
  unfold largest_id. induction rows as [|y t IH]; cbn [fold_right In]; [contradiction|].
  intros [->|H].
  - apply Z.le_max_l.
  - specialize (IH H).
    pose proof (Z.le_max_r (Row.id y) (fold_right (fun r m => Z.max (Row.id r) m) 0 t)).
    lia.
Qed.

Lemma next_rowid_fresh e d x : In x (table e d) -> Row.id x < next_rowid e d.
Proof.
  intros H. apply largest_id_above in H. unfold next_rowid.
  pose proof (Z.le_max_r (sequence e d) (largest_id (table e d))). lia.
Qed.

(** The row built for a remote record: what does not depend on the rowid. *)
Lemma row_of_remote_row e i k r :
  row_of_remote e i k = Some r ->
  Row.id r = k /\ Row.deleted_at r = None
  /\ Row.supabase_id r = RemoteItem.id i
  /\ Row.is_synced r = 1 /\ Row.operation_type r = None.
Proof.
  unfold row_of_remote. intros H.
  destruct (RemoteItem.uuid i) as [u|]; [|discriminate].
  destruct (RemoteItem.name i) as [n|]; [|discriminate].
  destruct (RemoteItem.created_at i) as [c|]; [|discriminate].
  destruct (js_or (RemoteItem.updated_at i) (Some c)) as [up|]; [|discriminate].
  destruct e.
  - inversion H; subst; simpl; auto.
  - inversion H; subst; simpl; auto.
  - destruct (RemoteItem.office_id i); [|discriminate].
    destruct (RemoteItem.level_id i); [|discriminate].
    inversion H; subst; simpl; auto.
Qed.

Lemma row_of_remote_keys e i k k' r r' :
  row_of_remote e i k = Some r -> row_of_remote e i k' = Some r' ->
  Row.uuid r' = Row.uuid r /\ Row.supabase_id r' = Row.supabase_id r.
Proof.
  intros H H'.
  destruct (@row_of_remote_inv e i k r H) as [Hu _].
  destruct (@row_of_remote_inv e i k' r' H') as [Hu' _].
  destruct (@row_of_remote_row e i k r H) as (_ & _ & Hs & _).
  destruct (@row_of_remote_row e i k' r' H') as (_ & _ & Hs' & _).
  split; congruence.
Qed.

Lemma row_of_remote_none e i k k' :
  row_of_remote e i k = None -> row_of_remote e i k' = None.
Proof.
  unfold row_of_remote.
  destruct (RemoteItem.uuid i) as [u|]; [|reflexivity].
  destruct (RemoteItem.name i) as [n|]; [|reflexivity].
  destruct (RemoteItem.created_at i) as [c|]; [|reflexivity].
  destruct (js_or (RemoteItem.updated_at i) (Some c)) as [up|]; [|reflexivity].
  destruct e; try discriminate.
  destruct (RemoteItem.office_id i); [|reflexivity].
  destruct (RemoteItem.level_id i); [|reflexivity].
  discriminate.
Qed.

(** A row that shares its [uuid] or its remote identifier with a new row
    keeps the new row out, and only such a row or one with the same rowid
    does. *)
Lemma conflict_keys e r x :
  conflict e r x = true <->
  Row.id r = Row.id x \/ Row.uuid x = Row.uuid r
  \/ exists s, Row.supabase_id x = Some s /\ Row.supabase_id r = Some s.
Proof.
  unfold conflict. split.
  - intros H. apply orb_true_iff in H. destruct H as [H|H].
    + apply orb_true_iff in H. destruct H as [H|H].
      * left. apply Z.eqb_eq, H.
      * right; left. apply String.eqb_eq in H. auto.
    + right; right.
      destruct (Row.supabase_id r) as [a|]; [|discriminate].
      destruct (Row.supabase_id x) as [b|]; [|discriminate].
      apply Z.eqb_eq in H. subst. exists b; auto.
  - intros [H|[H|(s & H1 & H2)]].
    + rewrite H, Z.eqb_refl. reflexivity.
    + rewrite H, String.eqb_refl, orb_true_r. reflexivity.
    + rewrite H1, H2, Z.eqb_refl. apply orb_true_r.
Qed.

(** What an [INSERT OR IGNORE] did, with the reason of a skip. *)
Lemma sql_insert_or_ignore_cases e row d d' :
  sql_insert_or_ignore e row d = Ok d' ->
  (table e d' = table e d
   /\ (row (next_rowid e d) = None
       \/ exists r, row (next_rowid e d) = Some r
                    /\ existsb (conflict e r) (table e d) = true))
  \/ exists r, row (next_rowid e d) = Some r
               /\ existsb (conflict e r) (table e d) = false
               /\ table e d' = table e d ++ [r].
Proof.
  unfold sql_insert_or_ignore. intros H.
  destruct (row (next_rowid e d)) as [r|];
    [|inversion H; left; split; [apply table_set_sequence | left; reflexivity]].
  destruct (existsb (conflict e r) (table e d)) eqn:Ec.
  - inversion H. left. split; [apply table_set_sequence|].
    right. exists r. auto.
  - destruct (fk_ok _); inversion H; subst.
    right. exists r. rewrite table_set_sequence, table_set_table. auto.
Qed.

(** Every statement of the loop keeps the rows, with their [uuid] and
    their remote identifier. *)
Lemma merge_statement_key e localItems i d d' x :
  merge_statement P e localItems i d = Ok d' ->
  In x (table e d) ->
  exists x', In x' (table e d')
             /\ Row.uuid x' = Row.uuid x /\ Row.supabase_id x' = Row.supabase_id x.
Proof.
  intros H Hx.
  destruct (@merge_statement_row e localItems i d d' x H Hx) as (x' & Hx' & Hcase).
  exists x'. split; [exact Hx'|].
  destruct Hcase as [->|[(_ & _ & _ & ->)|(_ & _ & _ & Ha)]]; auto.
  apply assign_from_remote_frame in Ha. destruct Ha as ((_ & Hu & Hs & _) & _).
  auto.
Qed.

Lemma blocked_kept e localItems i j d d' :
  merge_statement P e localItems j d = Ok d' -> blocked e i d -> blocked e i d'.
Proof.
  intros H Hb k r Hr. destruct (Hb k r Hr) as (x & Hx & Hkey).
  destruct (@merge_statement_key e localItems j d d' x H Hx) as (x' & Hx' & Hu & Hs).
  exists x'. split; [exact Hx'|]. rewrite Hu, Hs. exact Hkey.
Qed.

(** The statement for record [i], run while the rows with its [uuid] are
    still those of the snapshot's store, places [i]. *)
Lemma merge_statement_places e d0 i d d' :
  filter (uuid_is (RemoteItem.uuid i)) (table e d)
    = filter (uuid_is (RemoteItem.uuid i)) (table e d0) ->
  merge_statement P e (filter active (table e d0)) i d = Ok d' ->
  placed e i d'.
Proof.
  intros Hsame H. unfold placed.
  destruct (truthy_str (RemoteItem.deleted_at i)) eqn:Et; [right; left; reflexivity|].
  unfold merge_statement in H. rewrite Et in H.
  destruct (find_local (filter active (table e d0)) i) as [l0|] eqn:Ef.
  - left. unfold find_local in Ef. apply find_some in Ef. destruct Ef as [Hin Hu].
    apply filter_In in Hin. destruct Hin as [Hin Ha].
    assert (Hl0 : In l0 (table e d)).
    { assert (Hf : In l0 (filter (uuid_is (RemoteItem.uuid i)) (table e d0)))
        by (apply filter_In; auto).
      rewrite <- Hsame in Hf. apply filter_In in Hf. apply Hf. }
    destruct (remote_wins P i l0).
    + apply sql_update_rows in H.
      destruct (Forall2_In_l l0 H Hl0) as (l' & Hl' & Hr). rewrite Hu in Hr.
      exists l'. split; [exact Hl'|].
      apply assign_from_remote_frame in Hr.
      destruct Hr as ((_ & Huu & _ & _ & Hdel & _) & _).
      split.
      * rewrite (uuid_is_same_uuid _ l0 l' Huu). exact Hu.
      * unfold active. rewrite Hdel. exact Ha.
    + inversion H; subst. exists l0. auto.
  - apply sql_insert_or_ignore_cases in H.
    destruct H as [(Ht & [Hnone|(r & Hr & Hc)])|(r & Hr & _ & E)].
    + right; right. intros k r Hr.
      rewrite (row_of_remote_none e i _ k Hnone) in Hr. discriminate.
    + right; right. intros k r' Hr'.
      apply existsb_exists in Hc. destruct Hc as (x & Hx & Hc).
      apply conflict_keys in Hc.
      destruct (row_of_remote_keys _ _ _ _ Hr Hr') as [Hu Hs].
      exists x. rewrite Ht. split; [exact Hx|].
      destruct Hc as [Hid|[Hc|Hc]].
      * exfalso. destruct (row_of_remote_row _ _ _ Hr) as (Hk & _).
        pose proof (next_rowid_fresh e d x Hx). lia.
      * left. congruence.
      * right. rewrite Hs. exact Hc.
    + left. exists r. rewrite E. split; [apply in_or_app; right; left; reflexivity|].
      destruct (row_of_remote_inv _ _ _ Hr) as [Hu _].
      destruct (row_of_remote_row _ _ _ Hr) as (_ & Hdel & _).
      split; [apply uuid_is_eq, Hu|]. unfold active. rewrite Hdel. reflexivity.
Qed.

Lemma placed_kept e localItems i j d d' :
  RemoteItem.uuid j <> RemoteItem.uuid i ->
  merge_statement P e localItems j d = Ok d' -> placed e i d -> placed e i d'.
Proof.
  intros Hne H [(row & Hin & Hu & Ha)|[Ht|Hb]].
  - left. exists row. split; [|auto].
    assert (Hf : In row (filter (uuid_is (RemoteItem.uuid i)) (table e d)))
      by (apply filter_In; auto).
    rewrite <- (merge_statement_other_uuid _ _ _ _ Hne H) in Hf.
    apply filter_In in Hf. apply Hf.
  - right; left. exact Ht.
  - right; right. eapply blocked_kept; eauto.
Qed.

(** After the loop over records with pairwise distinct [uuid]s, every
    record is placed. *)
Lemma merge_all_places e d0 items : forall d d',
  NoDup (map RemoteItem.uuid items) ->
  (forall j, In j items ->
     filter (uuid_is (RemoteItem.uuid j)) (table e d)
       = filter (uuid_is (RemoteItem.uuid j)) (table e d0)) ->
  merge_all P e (filter active (table e d0)) items d = Ok d' ->
  forall i, In i items -> placed e i d'.
Proof.
  induction items as [|i rest IH]; simpl; intros d d' Hn Hsame H j Hj;
    [contradiction|].
  destruct (merge_statement P e (filter active (table e d0)) i d) as [d1|m] eqn:E;
    [|discriminate].
  inversion Hn as [|? ? Hni Hnr]; subst.
  assert (Hrest : forall k, In k rest -> RemoteItem.uuid k <> RemoteItem.uuid i).
  { intros k Hk Eq. apply Hni. rewrite <- Eq. apply in_map; exact Hk. }
  destruct Hj as [<-|Hj].
  - assert (Hp : placed e i d1).
    { eapply merge_statement_places; [apply Hsame; left; reflexivity | exact E]. }
    clear - Hp H Hrest. revert d1 Hp H.
    induction rest as [|k rest IHr]; simpl; intros d1 Hp H.
    + inversion H; subst; exact Hp.
    + destruct (merge_statement P e (filter active (table e d0)) k d1) as [d2|m] eqn:E2;
        [|discriminate].
      apply (IHr (fun k' Hk' => Hrest k' (or_intror Hk')) d2); [|exact H].
      eapply placed_kept; [|exact E2|exact Hp]. apply Hrest. left; reflexivity.
  - apply (IH d1 d' Hnr); auto.
    intros k Hk. rewrite <- (Hsame k (or_intror Hk)).
    eapply merge_statement_other_uuid; [|exact E].
    intros Eq. apply (Hrest k Hk). congruence.
Qed.

(** On a store whose table [e] is the one where record [i] is settled and
    placed, the statement for [i] writes no row. *)
Lemma merge_statement_at_rest e i d1 d :
  settled P e i d1 -> placed e i d1 ->
  table e d = table e d1 ->
  exists d',
    merge_statement P e (filter active (table e d1)) i d = Ok d'
    /\ (forall e', table e' d' = table e' d)
    /\ sync_queue d' = sync_queue d.
Proof.
  intros Hs Hp Ht. unfold merge_statement.
  assert (Hfound : forall l0, find_local (filter active (table e d1)) i = Some l0 ->
             truthy_str (RemoteItem.deleted_at i) = false
             /\ remote_wins P i l0 = false).
  { intros l0 Hf. unfold find_local in Hf. apply find_some in Hf.
    destruct Hf as [Hin Hu]. apply filter_In in Hin. destruct Hin as [Hin Ha].
    apply Hs; [apply filter_In; auto | exact Ha]. }
  destruct (truthy_str (RemoteItem.deleted_at i)) eqn:Et.
  - destruct (find_local (filter active (table e d1)) i) as [l0|];
      [|exists d; auto].
    destruct (Hfound l0 eq_refl) as [Hf _]. discriminate.
  - destruct (find_local (filter active (table e d1)) i) as [l0|] eqn:Ef.
    + destruct (Hfound l0 eq_refl) as [_ Hg]. rewrite Hg. exists d; auto.
    + assert (Hb : blocked e i d1).
      { destruct Hp as [(row & Hin & Hu & Ha)|[Ht'|Hb]]; [|congruence|exact Hb].
        exfalso. unfold find_local in Ef.
        assert (Hsnap : In row (filter active (table e d1))) by (apply filter_In; auto).
        pose proof (find_none _ _ Ef row Hsnap). congruence. }
      exists (set_sequence e (next_rowid e d) d).
      split; [|split; [intros e'; apply table_set_sequence
                      | apply sync_queue_set_sequence]].
      unfold sql_insert_or_ignore.
      destruct (row_of_remote e i (next_rowid e d)) as [r|] eqn:Er; [|reflexivity].
      destruct (Hb _ _ Er) as (x & Hx & Hkey).
      assert (Hc : existsb (conflict e r) (table e d) = true).
      { apply existsb_exists. exists x. rewrite Ht. split; [exact Hx|].
        apply conflict_keys. right. exact Hkey. }
      rewrite Hc. reflexivity.
Qed.

Lemma merge_all_at_rest e items d1 : forall d,
  (forall i, In i items -> settled P e i d1 /\ placed e i d1) ->
  table e d = table e d1 ->
  exists d',
    merge_all P e (filter active (table e d1)) items d = Ok d'
    /\ (forall e', table e' d' = table e' d)
    /\ sync_queue d' = sync_queue d.
Proof.
  induction items as [|i rest IH]; simpl; intros d Hall Ht.
  - exists d. auto.
  - destruct (Hall i (or_introl eq_refl)) as [Hs Hp].
    destruct (merge_statement_at_rest d Hs Hp Ht) as (d2 & E & Htab & Hq).
    rewrite E.
    destruct (IH d2) as (d' & E' & Htab' & Hq').
    + intros j Hj. apply Hall. right; exact Hj.
    + rewrite Htab. exact Ht.
    + exists d'. split; [exact E'|]. split.
      * intros e'. rewrite Htab'. apply Htab.
      * rewrite Hq'. exact Hq.
Qed.

(** A second transaction against the same records, after a first one
    that committed, returns and writes no row. *)
Lemma merge_idempotent (e : entity) (items : list RemoteItem.t)
    (w w1 : World P) (d : LocalDb) :
  db w = Some d ->
  table_ok e (table e d) = true ->
  NoDup (map RemoteItem.uuid items) ->
  mergeRemoteItems e items w = (Ok tt, w1) ->
  exists d1 d2,
    db w1 = Some d1
    /\ (forall w2 : World P, db w2 = Some d1 ->
          mergeRemoteItems e items w2 = (Ok tt, set_db d2 w2))
    /\ (forall e', table e' d2 = table e' d1)
    /\ sync_queue d2 = sync_queue d1.
Proof.
  intros Hd Hok Hn Hrun.
  rewrite (mergeRemoteItems_run e items w Hd) in Hrun.
  destruct (merge_all P e (filter active (table e d)) items d) as [d1|m] eqn:E;
    inversion Hrun; subst.
  destruct (@merge_all_at_rest e items d1 d1) as (d2 & E2 & Htab & Hq).
  - intros i Hi. split.
    + eapply merge_all_settles; eauto.
    + eapply merge_all_places; eauto.
  - reflexivity.
  - exists d1, d2. split; [reflexivity|]. split; [|auto].
    intros w2 Hd2. rewrite (mergeRemoteItems_run e items w2 Hd2), E2. reflexivity.
Qed.

(** ** An unsynced row *)

(** Through the loop, a row with [is_synced = 0] stays as it is, or, when
    it is active and a record with its [uuid] is a tombstone, stands with
    that tombstone applied. *)
Lemma merge_all_unsynced e d0 l all items : forall d d',
  table_ok e (table e d0) = true ->
  In l (table e d0) ->
  Row.is_synced l = 0 ->
  (forall i, In i items -> In i all) ->
  merge_all P e (filter active (table e d0)) items d = Ok d' ->
  (In l (table e d)
   \/ exists i, In i all /\ RemoteItem.uuid i = Some (Row.uuid l)
                /\ truthy_str (RemoteItem.deleted_at i) = true /\ active l = true
                /\ In (with_tombstone (RemoteItem.deleted_at i) l) (table e d)) ->
  In l (table e d')
  \/ exists i, In i all /\ RemoteItem.uuid i = Some (Row.uuid l)
               /\ truthy_str (RemoteItem.deleted_at i) = true /\ active l = true
               /\ In (with_tombstone (RemoteItem.deleted_at i) l) (table e d').
Proof.
  induction items as [|i rest IH]; simpl; intros d d' Hok Hl0 Hs Hsub H HK.
  - inversion H; subst; exact HK.
  - destruct (merge_statement P e (filter active (table e d0)) i d) as [d1|m] eqn:E;
      [|discriminate].
    apply (IH d1 d' Hok Hl0 Hs); [intros j Hj; apply Hsub; right; exact Hj | exact H |].
    assert (Hstep : forall x, In x (table e d) -> Row.uuid x = Row.uuid l ->
              (forall t, with_tombstone t x = with_tombstone t l) ->
              In x (table e d1)
              \/ (RemoteItem.uuid i = Some (Row.uuid l)
                  /\ truthy_str (RemoteItem.deleted_at i) = true /\ active l = true
                  /\ In (with_tombstone (RemoteItem.deleted_at i) l) (table e d1))).
    { intros x Hx Hux Hwt.
      destruct (@merge_statement_row e _ i d d1 x E Hx) as (x' & Hx' & Hcase).
      assert (Hkey : uuid_is (RemoteItem.uuid i) x = true ->
                forall l1, find_local (filter active (table e d0)) i = Some l1 ->
                           l1 = l /\ active l = true).
      { intros Hu l1 Hf.
        assert (Hul : uuid_is (RemoteItem.uuid i) l = true).
        { rewrite <- (uuid_is_same_uuid _ l x Hux). exact Hu. }
        eapply find_local_key; eauto. }
      destruct Hcase as [->|[(Hu & Ht & (l1 & Hf & _) & ->)|(Hu & Ht & (l1 & Hf & Hg) & _)]].
      - left. exact Hx'.
      - right. destruct (Hkey Hu l1 Hf) as [_ Ha].
        split; [|split; [exact Ht|split; [exact Ha|]]].
        + apply uuid_is_eq in Hu. congruence.
        + rewrite <- Hwt. exact Hx'.
      - exfalso. destruct (Hkey Hu l1 Hf) as [-> _].
        apply remote_wins_inv in Hg. destruct Hg as [_ Hg]. contradiction. }
    destruct HK as [Hl|(j & Hj & Hu & Ht & Ha & Hin)].
    + destruct (Hstep l Hl eq_refl (fun t => eq_refl)) as [H1|(H1 & H2 & H3 & H4)];
        [left; exact H1 | right].
      exists i. split; [apply Hsub; left; reflexivity|]. auto.
    + destruct (Hstep _ Hin eq_refl (fun t => eq_refl)) as [H1|(H1 & H2 & H3 & H4)].
      * right. exists j. auto.
      * right. exists i. split; [apply Hsub; left; reflexivity|]. auto.
Qed.

(** The same for the whole transaction, whether it commits or throws. *)
Lemma merge_unsynced (e : entity) (items : list RemoteItem.t)
    (w w' : World P) (d : LocalDb) (l : Row.t) (o : outcome unit) :
  db w = Some d ->
  table_ok e (table e d) = true ->
  In l (table e d) ->
  Row.is_synced l = 0 ->
  mergeRemoteItems e items w = (o, w') ->
  exists d' l',
    db w' = Some d' /\ In l' (table e d')
    /\ (l' = l
        \/ exists i, In i items /\ RemoteItem.uuid i = Some (Row.uuid l)
                     /\ truthy_str (RemoteItem.deleted_at i) = true
                     /\ active l = true
                     /\ l' = with_tombstone (RemoteItem.deleted_at i) l).
Proof.
  intros Hd Hok Hl Hs. rewrite (mergeRemoteItems_run e items w Hd).
  destruct (merge_all P e (filter active (table e d)) items d) as [d'|m] eqn:E;
    intros H; inversion H; subst.
  - destruct (@merge_all_unsynced e d l items items d d' Hok Hl Hs
                (fun i Hi => Hi) E (or_introl Hl))
      as [H1|(i & Hi & Hu & Ht & Ha & Hin)].
    + exists d', l. split; [reflexivity|]. auto.
    + exists d', (with_tombstone (RemoteItem.deleted_at i) l).
      split; [reflexivity|]. split; [exact Hin|]. right. exists i. auto.
  - exists d, l. auto.
Qed.

(** ** The properties of [fetchEntityChanges] *)

Lemma fetched (e : entity) (items : list RemoteItem.t) (w : World P) r :
  supabase_select P e (remote_st w) = (inr items, r) ->
  fetchEntityChanges e w = mergeRemoteItems e items (set_remote r w).
Proof. intros H. rewrite fetchEntityChanges_run, H. reflexivity. Qed.

(** C1, amended: conflict guard of the pull reconciler: after
    [fetchEntityChanges] has fetched the remote records [items], every row
    [l] of the table is still there (same [id], same [uuid]), and its
    content, the business columns and [updated_at], has been replaced by a
    remote version only if [items] holds a record with the row's [uuid]
    that is not a tombstone and whose time is strictly greater than the
    row's ([remoteTime > localTime], each the parsed
    [updated_at || created_at]), and the row was active with [is_synced]
    set.  A row with [is_synced = 0] is left exactly as it is, whatever the
    remote timestamps, with one exception: when it is active and [items]
    holds a tombstone with its [uuid], the row is marked deleted and synced
    ([deleted_at] of the tombstone, [is_synced = 1], [operation_type] NULL)
    and keeps all its other columns. *)
Theorem pull_conflict_guard (e : entity) (items : list RemoteItem.t)
    (w w' : World P) (r : Remote P) (d : LocalDb) (l : Row.t) (o : outcome unit) :
  db w = Some d ->
  table_ok e (table e d) = true ->
  In l (table e d) ->
  supabase_select P e (remote_st w) = (inr items, r) ->
  fetchEntityChanges e w = (o, w') ->
  exists d' l',
    db w' = Some d' /\ In l' (table e d')
    /\ Row.id l' = Row.id l /\ Row.uuid l' = Row.uuid l
    /\ (content l' = content l
        \/ exists i, In i items /\ RemoteItem.uuid i = Some (Row.uuid l)
                     /\ truthy_str (RemoteItem.deleted_at i) = false
                     /\ time_gt (remoteTime P i) (localTime P l) = true
                     /\ Row.is_synced l <> 0 /\ active l = true)
    /\ (Row.is_synced l = 0 ->
          l' = l
          \/ exists i, In i items /\ RemoteItem.uuid i = Some (Row.uuid l)
                       /\ truthy_str (RemoteItem.deleted_at i) = true
                       /\ active l = true
                       /\ l' = with_tombstone (RemoteItem.deleted_at i) l).
Proof.
  intros Hd Hok Hl Hf Hrun. rewrite (fetched e w Hf) in Hrun.
  assert (Hd0 : db (set_remote r w) = Some d) by exact Hd.
  destruct (Z.eq_dec (Row.is_synced l) 0) as [Hs|Hs].
  - destruct (@merge_unsynced e items (set_remote r w) w' d l o Hd0 Hok Hl Hs Hrun)
      as (d' & l' & H1 & H2 & H3).
    exists d', l'. split; [exact H1|]. split; [exact H2|].
    assert (Hsame : Row.id l' = Row.id l /\ Row.uuid l' = Row.uuid l
                    /\ content l' = content l).
    { destruct H3 as [->|(i & _ & _ & _ & _ & ->)]; repeat split. }
    destruct Hsame as (Hi & Hu & Hc).
    split; [exact Hi|]. split; [exact Hu|]. split; [left; exact Hc|].
    intros _. exact H3.
  - destruct (@merge_conflict_guard e items (set_remote r w) w' d l o Hd0 Hok Hl Hrun)
      as (d' & l' & H1 & H2 & H3 & H4 & H5 & _).
    exists d', l'. repeat split; auto. intros E. contradiction.
Qed.

(** C8, amended: pull and unpushed local mutations: a row with
    [is_synced = 0] (whatever its [operation_type]: a pending insert, update
    or deletion) is left entirely unchanged by [fetchEntityChanges], and the
    queue is left as it was, for every list of remote records fetched,
    provided the row is soft-deleted (as a pending deletion is) or no remote
    record with its [uuid] carries a tombstone.  This holds whether the run
    commits or throws. *)
Theorem pull_keeps_unpushed (e : entity) (items : list RemoteItem.t)
    (w w' : World P) (r : Remote P) (d : LocalDb) (l : Row.t) (o : outcome unit) :
  db w = Some d ->
  table_ok e (table e d) = true ->
  In l (table e d) ->
  Row.is_synced l = 0 ->
  (active l = false
   \/ forall i, In i items -> RemoteItem.uuid i = Some (Row.uuid l) ->
                truthy_str (RemoteItem.deleted_at i) = false) ->
  supabase_select P e (remote_st w) = (inr items, r) ->
  fetchEntityChanges e w = (o, w') ->
  exists d', db w' = Some d' /\ In l (table e d') /\ sync_queue d' = sync_queue d.
Proof.
  intros Hd Hok Hl Hs Hc Hf Hrun. rewrite (fetched e w Hf) in Hrun.
  eapply merge_keeps_unpushed; [|exact Hok|exact Hl|exact Hs|exact Hc|exact Hrun].
  exact Hd.
Qed.

(** C9, amended: pull idempotence: when the remote records fetched carry
    pairwise distinct [uuid]s and a first [fetchEntityChanges] has
    committed, a second [fetchEntityChanges] that fetches the same records
    returns and writes nothing: every row of every table and the queue are
    exactly as the first run left them, and so are the flags; the backend
    has seen one more fetch.  (An [INSERT OR IGNORE] that the first run
    skipped is skipped again; it only uses up a rowid.) *)
Theorem pull_idempotent (e : entity) (items : list RemoteItem.t)
    (w w1 : World P) (r1 r2 : Remote P) (d : LocalDb) :
  db w = Some d ->
  table_ok e (table e d) = true ->
  NoDup (map RemoteItem.uuid items) ->
  supabase_select P e (remote_st w) = (inr items, r1) ->
  fetchEntityChanges e w = (Ok tt, w1) ->
  supabase_select P e (remote_st w1) = (inr items, r2) ->
  exists d1 d2,
    db w1 = Some d1
    /\ fetchEntityChanges e w1 = (Ok tt, set_db d2 (set_remote r2 w1))
    /\ (forall e', table e' d2 = table e' d1)
    /\ sync_queue d2 = sync_queue d1.
Proof.
  intros Hd Hok Hn Hf1 Hrun Hf2.
  rewrite (fetched e w Hf1) in Hrun.
  assert (Hd0 : db (set_remote r1 w) = Some d) by exact Hd.
  destruct (@merge_idempotent e items (set_remote r1 w) w1 d Hd0 Hok Hn Hrun)
    as (d1 & d2 & H1 & H2 & H3 & H4).
  exists d1, d2. split; [exact H1|]. split; [|split; [exact H3|exact H4]].
  rewrite (fetched e w1 Hf2). apply H2. exact H1.
Qed.

End PullClaims.

(* ------------------------------------------------------------------ *)
(** * The pull properties on the scenarios *)

Lemma remote_overwrite_frame_witness :
  exists w',
    (db Scenario.pull_world = Some Scenario.pull_db
     /\ updateLocalFromRemote offices Scenario.remote_U2 Scenario.pull_world
          = (Ok tt, w'))
    /\ exists d',
         w' = set_db d' Scenario.pull_world
         /\ sync_queue d' = sync_queue Scenario.pull_db
         /\ table offices d'
              = [Scenario.office_U1;
                 Row.mk 2 "U2" "Branch (renamed)" None None None None None
                   (Some 20) 1 None "2024-01-01T09:00:00Z"
                   "2024-01-03T09:00:00Z" None].
Proof.
  eexists. split; [split; reflexivity|].
  destruct (@remote_overwrite_frame Scenario.newer offices Scenario.remote_U2
              Scenario.pull_world _ Scenario.pull_db (Ok tt) eq_refl eq_refl)
    as (d' & Hw & Hq & _ & _).
  exists d'. split; [exact Hw|]. split; [exact Hq|].
  apply (f_equal (@db Scenario.newer)) in Hw. simpl in Hw.
  inversion Hw; subst. reflexivity.
Defined.

Lemma pull_conflict_guard_witness :
  exists w',
    (db Scenario.pull_world = Some Scenario.pull_db
     /\ table_ok offices (table offices Scenario.pull_db) = true
     /\ In Scenario.office_U1 (table offices Scenario.pull_db)
     /\ Row.is_synced Scenario.office_U1 = 0
     /\ time_gt (remoteTime Scenario.newer Scenario.remote_U1)
                (localTime Scenario.newer Scenario.office_U1) = true
     /\ fetchEntityChanges offices Scenario.pull_world = (Ok tt, w'))
    /\ exists d', db w' = Some d' /\ In Scenario.office_U1 (table offices d').
Proof.
  eexists. split.
  { split; [reflexivity|]. split; [reflexivity|]. split; [left; reflexivity|].
    split; [reflexivity|]. split; [reflexivity | vm_compute; reflexivity]. }
  destruct (@pull_conflict_guard Scenario.newer offices
              [Scenario.remote_U1; Scenario.remote_U2]
              Scenario.pull_world _ _ Scenario.pull_db Scenario.office_U1 (Ok tt)
              eq_refl eq_refl (or_introl eq_refl) eq_refl eq_refl)
    as (d' & l' & H1 & H2 & _ & _ & _ & H6).
  exists d'. split; [exact H1|].
  destruct (H6 eq_refl) as [->|(i & Hi & _ & Ht & _)]; [exact H2|].
  exfalso. destruct Hi as [<-|[<-|[]]]; discriminate Ht.
Defined.

(** C1, as stated, fails: an office edited locally and not pushed
    ([is_synced = 0], [operation_type = UPDATE]) is rewritten by pull when
    the backend returns a tombstone with its [uuid]: the row gets the
    remote [deleted_at], [is_synced = 1] and [operation_type = NULL],
    while its two edits are still waiting in the queue. *)
Lemma pull_tombstones_unsynced_edit :
  Row.is_synced Scenario.office_U2_edited = 0
  /\ Row.operation_type Scenario.office_U2_edited = Some UPDATE
  /\ In Scenario.office_U2_edited (table offices Scenario.same_second_db)
  /\ exists w' d',
       fetchEntityChanges offices Scenario.edited_world = (Ok tt, w')
       /\ db w' = Some d'
       /\ table offices d'
          = [Row.mk 2 "U2" "Branch B" None None None None None (Some 20) 1 None
               "2024-01-01T09:00:00Z" "2024-01-02T10:06:40Z"
               (Some "2024-01-04T09:00:00Z")]
       /\ ~ In Scenario.office_U2_edited (table offices d')
       /\ sync_queue d' = [Scenario.edit_A; Scenario.edit_B].
Proof.
  split; [reflexivity|]. split; [reflexivity|]. split; [left; reflexivity|].
  eexists _, _. split; [vm_compute; reflexivity|]. split; [reflexivity|].
  split; [reflexivity|]. split; [|reflexivity].
  simpl. intros [H|[]]. discriminate H.
Qed.

(** C8, as stated, fails: an office created offline and not pushed
    ([operation_type = INSERT], [is_synced = 0]) is rewritten by pull when
    the backend returns a tombstone with its [uuid]: the row gets the
    remote [deleted_at], [is_synced = 1] and [operation_type = NULL]. *)
Lemma pull_tombstones_unpushed_insert :
  Row.operation_type Scenario.office_U1 = Some INSERT
  /\ Row.is_synced Scenario.office_U1 = 0
  /\ In Scenario.office_U1 (table offices Scenario.pull_db)
  /\ exists w' d',
       fetchEntityChanges offices Scenario.deleted_U1_world = (Ok tt, w')
       /\ db w' = Some d'
       /\ ~ In Scenario.office_U1 (table offices d')
       /\ In (Row.mk 1 "U1" "Main office" None None None None None None 1 None
                "2024-01-01T10:00:00Z" "2024-01-01T10:00:00Z"
                (Some "2024-01-05T10:00:00Z"))
             (table offices d').
Proof.
  split; [reflexivity|]. split; [reflexivity|]. split; [left; reflexivity|].
  eexists _, _. split; [vm_compute; reflexivity|]. split; [reflexivity|]. split.
  - simpl. intros [H|[H|[]]]; discriminate H.
  - left; reflexivity.
Qed.

Lemma pull_keeps_unpushed_witness :
  exists w',
    (db Scenario.pull_world = Some Scenario.pull_db
     /\ Row.is_synced Scenario.office_U1 = 0
     /\ Row.operation_type Scenario.office_U1 = Some INSERT
     /\ fetchEntityChanges offices Scenario.pull_world = (Ok tt, w'))
    /\ exists d',
         db w' = Some d' /\ In Scenario.office_U1 (table offices d')
         /\ sync_queue d' = sync_queue Scenario.pull_db.
Proof.
  eexists. split; [repeat split; try reflexivity; vm_compute; reflexivity|].
  apply (@pull_keeps_unpushed Scenario.newer offices
           [Scenario.remote_U1; Scenario.remote_U2]
           Scenario.pull_world _ [Scripted.SelectCall offices]
           Scenario.pull_db Scenario.office_U1 (Ok tt));
    try reflexivity.
  - left; reflexivity.
  - right. intros i [<-|[<-|[]]] H; [reflexivity | discriminate H].
Defined.

(** C9, as stated, fails: the backend returns two records with one
    [uuid].  The first run inserts the first and skips the second (the
    snapshot taken before the loop does not hold the new row, and the
    [INSERT OR IGNORE] meets its [uuid]); the second run, which fetches the
    same records, finds the row and overwrites it with the second
    record. *)
Lemma pull_second_run_updates :
  ~ NoDup (map RemoteItem.uuid [Scenario.remote_A; Scenario.remote_A_later])
  /\ exists w1 w2 d1 d2,
       fetchEntityChanges offices Scenario.twice_world = (Ok tt, w1)
       /\ fetchEntityChanges offices w1 = (Ok tt, w2)
       /\ db w1 = Some d1 /\ db w2 = Some d2
       /\ table offices d1
          = [Row.mk 1 "A" "North" None None None None None (Some 12) 1 None
               "2024-01-02T00:00:00Z" "2024-01-02T00:00:00Z" None]
       /\ table offices d2
          = [Row.mk 1 "A" "North (renamed)" None None None None None (Some 12) 1
               None "2024-01-02T00:00:00Z" "2024-01-03T00:00:00Z" None]
       /\ table offices d2 <> table offices d1.
Proof.
  split.
  { simpl. intros H. inversion H as [|? ? Hin _]. apply Hin. left; reflexivity. }
  eexists _, _, _, _. split; [vm_compute; reflexivity|].
  split; [vm_compute; reflexivity|].
  split; [reflexivity|]. split; [reflexivity|].
  split; [reflexivity|]. split; [reflexivity|].
  simpl. intros H. inversion H.
Qed.

Lemma pull_idempotent_witness :
  exists w1 d1 d2,
    (db Scenario.pull_world = Some Scenario.pull_db
     /\ table_ok offices (table offices Scenario.pull_db) = true
     /\ NoDup (map RemoteItem.uuid [Scenario.remote_U1; Scenario.remote_U2])
     /\ fetchEntityChanges offices Scenario.pull_world = (Ok tt, w1)
     /\ db w1 <> db Scenario.pull_world)
    /\ db w1 = Some d1
    /\ fetchEntityChanges offices w1
         = (Ok tt,
            set_db d2
              (@set_remote Scenario.newer
                 [Scripted.SelectCall offices; Scripted.SelectCall offices] w1))
    /\ table offices d2 = table offices d1
    /\ sync_queue d2 = sync_queue d1.
Proof.
  assert (Hn : NoDup (map RemoteItem.uuid [Scenario.remote_U1; Scenario.remote_U2])).
  { simpl. repeat constructor; simpl; intuition discriminate. }
  eexists.
  destruct (@pull_idempotent Scenario.newer offices
              [Scenario.remote_U1; Scenario.remote_U2]
              Scenario.pull_world _ [Scripted.SelectCall offices]
              [Scripted.SelectCall offices; Scripted.SelectCall offices]
              Scenario.pull_db eq_refl eq_refl Hn eq_refl eq_refl eq_refl)
    as (d1 & d2 & H1 & H2 & H3 & H4).
  exists d1, d2. split.
  { split; [reflexivity|]. split; [reflexivity|]. split; [exact Hn|].
    split; [vm_compute; reflexivity|].
    intros H. simpl in H. inversion H. }
  split; [exact H1|]. split; [exact H2|]. split; [apply H3 | exact H4].
Defined.

(* ------------------------------------------------------------------ *)
(** * The order of the push loop *)

Lemma StronglySorted_app_pair {A : Type} (R : A -> A -> Prop) l1 x l2 y l3 :
  StronglySorted R (l1 ++ x :: l2 ++ y :: l3) -> R x y.
Proof.
  induction l1 as [|a t IH]; simpl; intros H.
  - apply StronglySorted_inv in H. destruct H as [_ H].
    rewrite Forall_forall in H. apply H. apply in_or_app. right; left; reflexivity.
  - apply StronglySorted_inv in H. apply IH, H.
Qed.

Section Order.

Variable P : Platform.

(** C3, amended: queue processing order: the push loop of a cycle runs
    over the selected entries from left to right, and of two queue entries
    below the retry limit (of the same entity type or not) the one with the
    strictly earlier [timestamp] is processed before the other, never after
    it.  Nothing is claimed for entries with equal timestamps. *)
Theorem queue_processing_order (r : SyncResult) (w : World P) (d : LocalDb)
    (a b : Change.t) :
  OrderByContract (order_by_timestamp P) ->
  db w = Some d ->
  In a (sync_queue d) -> In b (sync_queue d) ->
  Change.retry_count a < maxRetries -> Change.retry_count b < maxRetries ->
  Change.timestamp a < Change.timestamp b ->
  syncCycle (r, w) =
    (forEach (select_pending P (sync_queue d)) (processChange (P:=P)) ;;
     liftW (fetchRemoteChanges (P:=P)) ;;
     modify_result (fun r => set_success (failed r =? 0) r)) (r, w)
  /\ processed_before P (sync_queue d) a b
  /\ ~ processed_before P (sync_queue d) b a.
Proof.
  intros HO Hd Ha Hb Hra Hrb Hlt.
  split; [apply syncCycle_unfold, Hd|].
  assert (Hno : ~ processed_before P (sync_queue d) b a).
  { intros (l1 & l2 & l3 & E).
    pose proof (order_sorted HO (filter pending (sync_queue d))) as Hs.
    unfold select_pending in E. rewrite E in Hs.
    apply StronglySorted_app_pair in Hs. unfold timestamp_le in Hs. lia. }
  split; [|exact Hno].
  assert (Hia : In a (select_pending P (sync_queue d)))
    by (apply select_pending_in; auto).
  assert (Hib : In b (select_pending P (sync_queue d)))
    by (apply select_pending_in; auto).
  apply in_split in Hia. destruct Hia as (l1 & l2 & E).
  rewrite E in Hib. apply in_app_or in Hib. destruct Hib as [Hib|[Hib|Hib]].
  - exfalso. apply Hno. apply in_split in Hib. destruct Hib as (m1 & m2 & E1).
    exists m1, m2, l2. rewrite E, E1, <- app_assoc. reflexivity.
  - subst. lia.
  - apply in_split in Hib. destruct Hib as (m1 & m2 & E1).
    exists l1, m1, m2. rewrite E, E1. reflexivity.
Qed.

End Order.

(** C3, as stated, fails on entries of one second: with an engine that
    keeps the contract of [ORDER BY timestamp ASC], two edits of the same
    office enqueued in the same second are pushed in the reverse of their
    creation order, the later edit first. *)
Lemma same_second_entries_reordered :
  OrderByContract (order_by_timestamp Scenario.indexed)
  /\ Change.entity Scenario.edit_A = Change.entity Scenario.edit_B
  /\ Change.timestamp Scenario.edit_A = Change.timestamp Scenario.edit_B
  /\ Change.id Scenario.edit_A < Change.id Scenario.edit_B
  /\ select_pending Scenario.indexed (sync_queue Scenario.same_second_db)
       = [Scenario.edit_B; Scenario.edit_A]
  /\ ~ processed_before Scenario.indexed (sync_queue Scenario.same_second_db)
         Scenario.edit_A Scenario.edit_B
  /\ exists r w',
       syncAll Scenario.same_second_world = (Ok r, w')
       /\ remote_st w'
            = [Scripted.UpdateCall offices (Change.payload Scenario.edit_B) 20;
               Scripted.UpdateCall offices (Change.payload Scenario.edit_A) 20;
               Scripted.SelectCall levels; Scripted.SelectCall offices;
               Scripted.SelectCall students].
Proof.
  split; [exact by_timestamp_after_retry_index_contract|].
  split; [reflexivity|]. split; [reflexivity|]. split; [reflexivity|].
  split; [reflexivity|]. split.
  - intros (l1 & l2 & l3 & E).
    change (select_pending Scenario.indexed (sync_queue Scenario.same_second_db))
      with [Scenario.edit_B; Scenario.edit_A] in E.
    destruct l1 as [|x l1]; simpl in E.
    + inversion E.
    + apply (f_equal (@List.length Change.t)) in E. simpl in E.
      rewrite length_app in E. simpl in E. rewrite length_app in E. simpl in E. lia.
  - eexists _, _. split; [vm_compute; reflexivity | reflexivity].
Qed.

Lemma queue_processing_order_witness :
  (OrderByContract (order_by_timestamp Scenario.quiet)
   /\ db Scenario.idle_world = Some Scenario.offline_db
   /\ Change.timestamp Scenario.insert_U1 < Change.timestamp Scenario.update_U1)
  /\ processed_before Scenario.quiet (sync_queue Scenario.offline_db)
       Scenario.insert_U1 Scenario.update_U1.
Proof.
  assert (H1 : OrderByContract (order_by_timestamp Scenario.quiet))
    by exact by_timestamp_contract.
  assert (H2 : Change.timestamp Scenario.insert_U1 < Change.timestamp Scenario.update_U1)
    by (simpl; lia).
  split; [exact (conj H1 (conj eq_refl H2))|].
  apply (@queue_processing_order Scenario.quiet (mkResult true 0 0 [])
           Scenario.idle_world Scenario.offline_db
           Scenario.insert_U1 Scenario.update_U1 H1 eq_refl);
    simpl; auto; unfold maxRetries; lia.
Defined.

(* ------------------------------------------------------------------ *)
(** * Push: what a successful entry writes *)

Section PushEffects.

Variable P : Platform.




End PushEffects.

(* ------------------------------------------------------------------ *)
(** * Marking rows synced cannot break a constraint *)

Lemma update_rows_total wh (f : Row.t -> Row.t) rows :
  update_rows wh (fun r => Some (f r)) rows
  = Some (map (fun r => if wh r then f r else r) rows).
Proof.
  induction rows as [|r rest IH]; simpl; [reflexivity|].
  rewrite IH. destruct (wh r); reflexivity.
Qed.


Lemma existsb_map_same {A : Type} (p : A -> bool) (f : A -> A) (l : list A) :
  (forall a, p (f a) = p a) -> existsb p (map f l) = existsb p l.
Proof.
  intros Hp. induction l as [|x t IH]; simpl; [reflexivity|].
  rewrite Hp, IH. reflexivity.
Qed.

Lemma forallb_map_same {A : Type} (p : A -> bool) (f : A -> A) (l : list A) :
  (forall a, p (f a) = p a) -> forallb p (map f l) = forallb p l.
Proof.
  intros Hp. induction l as [|x t IH]; simpl; [reflexivity|].
  rewrite Hp, IH. reflexivity.
Qed.

Lemma forallb_pointwise {A : Type} (p q : A -> bool) (l : list A) :
  (forall a, p a = q a) -> forallb p l = forallb q l.
Proof.
  intros H. induction l as [|x t IH]; simpl; [reflexivity|].
  rewrite H, IH. reflexivity.
Qed.

Lemma set_table_same e d : set_table e (table e d) d = d.
Proof. destruct d, e; reflexivity. Qed.

Lemma map_unselected (wh : Row.t -> bool) (f : Row.t -> Row.t) rows :
  existsb wh rows = false -> map (fun r => if wh r then f r else r) rows = rows.
Proof.
  induction rows as [|r rest IH]; simpl; intros H; [reflexivity|].
  apply orb_false_iff in H. destruct H as [H1 H2].
  rewrite H1, (IH H2). reflexivity.
Qed.


Section PushLocalDelete.

Variable P : Platform.


End PushLocalDelete.

(* ------------------------------------------------------------------ *)
(** * The flags through a cycle *)

Section Flags.

Variable P : Platform.
Variables online syncing : bool.

Lemma flags_getDb : preserves (flags_are online syncing) (@getDb P).
Proof.
  intros w o w' H Hw. unfold getDb in H. destruct (db w); inversion H; subst; exact Hw.
Qed.

Lemma flags_runAsync stmt : preserves (flags_are online syncing) (@runAsync P stmt).
Proof.
  intros w o w' H Hw. unfold runAsync, bind, getDb in H.
  destruct (db w) as [d|]; [|inversion H; subst; exact Hw].
  destruct (stmt d); inversion H; subst; exact Hw.
Qed.

Lemma flags_remote_call (A : Type) (f : Remote P -> A * Remote P) :
  preserves (flags_are online syncing) (remote_call f).
Proof.
  intros w o w' H Hw. unfold remote_call in H.
  destruct (f (remote_st w)). inversion H; subst; exact Hw.
Qed.

Lemma flags_withTransactionAsync (A : Type) (task : M (World P) A) :
  preserves (flags_are online syncing) task ->
  preserves (flags_are online syncing) (withTransactionAsync task).
Proof.
  intros Ht w o w' H Hw. unfold withTransactionAsync in H.
  destruct (task w) as [[a|e] w1] eqn:E; inversion H; subst.
  - eapply Ht; eauto.
  - exact (Ht _ _ _ E Hw).
Qed.

Lemma flags_syncChange c : preserves (flags_are online syncing) (@syncChange P c).
Proof.
  unfold syncChange.
  destruct (JSON_parse P (Change.payload c)); [apply preserves_throw|].
  destruct (Change.operation c).
  - unfold handleInsert. apply preserves_bind; [apply flags_remote_call|].
    intros [err|k]; [apply preserves_throw | apply flags_runAsync].
  - unfold handleUpdate. destruct (Change.entity_supabase_id c) as [k|];
      [|apply preserves_throw].
    destruct (truthy_int (Some k)); [|apply preserves_throw].
    apply preserves_bind; [apply flags_remote_call|].
    intros [err|]; [apply preserves_throw | apply flags_runAsync].
  - unfold handleDelete. destruct (Change.entity_supabase_id c) as [k|];
      [|apply flags_runAsync].
    destruct (truthy_int (Some k)); [|apply flags_runAsync].
    apply preserves_bind; [apply flags_remote_call|].
    intros [err|]; [apply preserves_throw | apply flags_runAsync].
Qed.

Lemma flags_fetchRemoteChanges :
  preserves (flags_are online syncing) (@fetchRemoteChanges P).
Proof.
  unfold fetchRemoteChanges. apply preserves_forEach. intros e _.
  apply preserves_try_catch; [|intros; apply preserves_ret].
  unfold fetchEntityChanges. apply preserves_bind; [apply flags_remote_call|].
  intros [err|items]; [apply preserves_throw|].
  unfold mergeRemoteItems. apply preserves_bind; [apply flags_getDb|]. intros d.
  apply flags_withTransactionAsync, preserves_forEach. intros i _.
  unfold mergeRemoteItem, insertRemoteItem, updateLocalFromRemote.
  destruct (truthy_str (RemoteItem.deleted_at i)).
  - destruct (find_local _ i) as [l|]; [|apply preserves_ret].
    destruct (negb _); [apply flags_runAsync | apply preserves_ret].
  - destruct (find_local _ i) as [l|]; [|apply flags_runAsync].
    destruct (remote_wins P i l); [apply flags_runAsync | apply preserves_ret].
Qed.

Lemma flags_syncCycle :
  preserves (fun s : SyncResult * World P => flags_are online syncing (snd s))
            (@syncCycle P).
Proof.
  unfold syncCycle. apply preserves_bind.
  { apply preserves_liftW, preserves_bind; [apply flags_getDb|].
    intros d. apply preserves_ret. }
  intros changes. apply preserves_bind.
  { apply preserves_forEach. intros c _. unfold processChange.
    apply preserves_try_catch.
    - apply preserves_bind; [apply preserves_liftW, flags_syncChange|].
      intros _. apply preserves_bind; [|intros; apply preserves_modify_result].
      apply preserves_liftW, flags_runAsync.
    - intros m. apply preserves_bind; [|intros; apply preserves_modify_result].
      apply preserves_liftW, flags_runAsync. }
  intros _. apply preserves_bind; [|intros; apply preserves_modify_result].
  apply preserves_liftW, flags_fetchRemoteChanges.
Qed.

End Flags.

Section CycleExtras.

Variable P : Platform.

Lemma syncAll_flags (w w' : World P) o :
  syncAll w = (o, w') ->
  isOnline w' = isOnline w /\ syncInProgress w' = syncInProgress w.
Proof.
  unfold syncAll. destruct (syncInProgress w) eqn:Es.
  { intros H; inversion H; subst; auto. }
  destruct (isOnline w) eqn:Eo; simpl.
  2:{ intros H; inversion H; subst; auto. }
  destruct (syncCycle (mkResult true 0 0 [], set_syncInProgress true w))
    as [oc [r2 w2]] eqn:E.
  assert (Hf : flags_are true true w2).
  { apply (@flags_syncCycle P true true _ _ _ E). split; [exact Eo | reflexivity]. }
  destruct Hf as [Hf _].
  destruct oc; intros H; inversion H; subst; simpl; auto.
Qed.

(** X4, the lock is always released: [syncAll] returns with [isOnline]
    and [syncInProgress] as it found them, whether the call was rejected,
    ran its cycle, or caught an exception of the cycle; so a call that found
    the manager idle leaves it idle. *)
Theorem syncAll_restores_flags (w w' : World P) (o : outcome SyncResult) :
  syncAll w = (o, w') ->
  isOnline w' = isOnline w /\ syncInProgress w' = syncInProgress w.
Proof. apply syncAll_flags. Qed.

(** X5, the connectivity listener: an event sets [isOnline] to the
    reported value (false when unknown) and never touches
    [syncInProgress]; it starts a cycle only on the offline-to-online edge,
    and then exactly one [syncAll] with [isOnline] set; on any other event
    the backend and the store are untouched. *)
Theorem onNetInfo_edge (isConnected : option bool) (w w' : World P)
    (o : outcome (option SyncResult)) :
  onNetInfo isConnected w = (o, w') ->
  isOnline w' = match isConnected with Some b => b | None => false end
  /\ syncInProgress w' = syncInProgress w
  /\ if negb (isOnline w) && match isConnected with Some b => b | None => false end
     then exists r, syncAll (set_isOnline true w) = (Ok r, w') /\ o = Ok (Some r)
     else o = Ok None /\ remote_st w' = remote_st w /\ db w' = db w.
Proof.
  unfold onNetInfo. simpl.
  destruct (negb (isOnline w) && match isConnected with Some b => b | None => false end)
    eqn:Edge.
  - apply andb_true_iff in Edge. destruct Edge as [_ Hc]. rewrite Hc.
    destruct (syncAll (set_isOnline true w)) as [[r|m] w2] eqn:E;
      intros H; inversion H; subst;
      destruct (syncAll_flags _ E) as [H1 H2]; simpl in *.
    + repeat split; auto. exists r; auto.
    + exfalso. revert E. unfold syncAll.
      destruct (syncInProgress (set_isOnline true w)); [discriminate|].
      destruct (negb (isOnline (set_isOnline true w))); [discriminate|].
      destruct (syncCycle _) as [[|] [? ?]]; discriminate.
  - intros H; inversion H; subst. simpl. repeat split; reflexivity.
Qed.

End CycleExtras.

(* ------------------------------------------------------------------ *)
(** * What a cycle leaves in the queue *)

Section QueueAfterCycle.

Variable P : Platform.

(** One iteration, with the store it starts from and the store it leaves. *)
Lemma processChange_queue c r (w : World P) d :
  db w = Some d ->
  exists r' w' d',
    processChange c (r, w) = (Ok tt, (r', w')) /\ db w' = Some d'
    /\ ((r' = count_synced r
         /\ sync_queue d'
            = filter (fun x => negb (Change.id x =? Change.id c)) (sync_queue d))
        \/ (exists message,
              r' = count_failed (failure_line c message) r
              /\ sync_queue d' = record_error (Change.id c) message (sync_queue d))).
Proof.
  intros Hd. destruct (syncChange c w) as [[[]|message] w1] eqn:E.
  - assert (H1 : on_db (fun d0 => sync_queue d0 = sync_queue d) w1).
    { eapply (@preserves_syncChange P (fun d0 => sync_queue d0 = sync_queue d));
        [apply (entity_blind_queue (fun q => q = sync_queue d)) | exact E |].
      exists d; auto. }
    destruct H1 as (d1 & Hd1 & Hq1).
    eexists _, _, _. split; [eapply processChange_success; eassumption|].
    split; [reflexivity|]. left. split; [reflexivity|]. simpl. rewrite Hq1. reflexivity.
  - eexists _, _, _. split; [eapply processChange_failure; eassumption|].
    split; [reflexivity|]. right. exists message. split; reflexivity.
Qed.

(** After the loop, an entry still below the retry limit is there only if
    some push of the loop failed. *)
Lemma push_loop_pending (f0 : Z) (l : list Change.t) : forall r (w : World P) d,
  db w = Some d ->
  f0 <= failed r ->
  (forall x, In x (sync_queue d) -> pending x = true ->
             In (Change.id x) (map Change.id l) \/ f0 < failed r) ->
  exists r' w' d',
    forEach l (processChange (P:=P)) (r, w) = (Ok tt, (r', w')) /\ db w' = Some d'
    /\ forall x, In x (sync_queue d') -> pending x = true -> f0 < failed r'.
Proof.
  induction l as [|c rest IH]; intros r w d Hd Hf Hinv.
  - exists r, w, d. split; [reflexivity|]. split; [exact Hd|].
    intros x Hx Hp. destruct (Hinv x Hx Hp) as [[]|H]; exact H.
  - destruct (processChange_queue c r w Hd) as (r1 & w1 & d1 & E1 & Hd1 & Hcase).
    cbn [forEach]. unfold bind at 1. rewrite E1.
    destruct Hcase as [[-> Hq]|(message & -> & Hq)].
    + apply (IH _ w1 d1 Hd1); [exact Hf|].
      intros x Hx Hp. rewrite Hq in Hx. apply filter_In in Hx. destruct Hx as [Hx Hne].
      destruct (Hinv x Hx Hp) as [[Heq|Hin]|H]; auto.
      apply negb_true_iff, Z.eqb_neq in Hne. congruence.
    + apply (IH _ w1 d1 Hd1); [simpl; lia|].
      intros x _ _. right. simpl. lia.
Qed.

(** X6, a successful sync drains the queue: when [syncAll] returns
    [success = true], no entry below the retry limit is left, so
    [getPendingSyncCount] right after it returns 0. *)
Theorem sync_success_drains_queue (w w' : World P) (r : SyncResult) :
  OrderByContract (order_by_timestamp P) ->
  syncAll w = (Ok r, w') ->
  success r = true ->
  getPendingSyncCount w' = (Ok 0, w').
Proof.
  intros HO. unfold syncAll.
  destruct (syncInProgress w); [intros H; inversion H; subst; discriminate|].
  destruct (negb (isOnline w)); [intros H; inversion H; subst; discriminate|].
  destruct (db w) as [d|] eqn:Hd.
  2:{ unfold syncCycle, bind at 1, liftW at 1, bind at 1, getDb. simpl.
      rewrite Hd. simpl. intros H; inversion H; subst; discriminate. }
  assert (Hd1 : db (set_syncInProgress true w) = Some d) by exact Hd.
  rewrite (@syncCycle_unfold P _ _ d Hd1).
  destruct (@push_loop_pending 0 (select_pending P (sync_queue d))
              (mkResult true 0 0 []) (set_syncInProgress true w) d Hd1)
    as (r1 & w1 & d1 & E1 & Hw1 & Hpend).
  { simpl; lia. }
  { intros x Hx Hp. left. apply in_map.
    apply (@select_pending_in P _ _ HO). split; [exact Hx|].
    unfold pending in Hp. apply Z.ltb_lt in Hp. exact Hp. }
  unfold bind at 1. rewrite E1. unfold bind, liftW, modify_result. simpl.
  destruct (fetchRemoteChanges w1) as [o2 w2] eqn:E2.
  assert (H2 : on_db (fun d0 => sync_queue d0 = sync_queue d1) w2).
  { eapply (@preserves_fetchRemoteChanges P (fun d0 => sync_queue d0 = sync_queue d1));
      [apply (pull_blind_queue (fun q => q = sync_queue d1)) | exact E2 |].
    exists d1; auto. }
  destruct H2 as (d2 & Hd2 & Hq2).
  destruct o2 as [[]|m]; intros H; inversion H; subst; simpl; intros Hs;
    [|discriminate].
  apply Z.eqb_eq in Hs.
  unfold getPendingSyncCount, bind, getDb. simpl. rewrite Hd2.
  assert (Hnone : filter pending (sync_queue d2) = []).
  { destruct (filter pending (sync_queue d2)) as [|x t] eqn:Ef; [reflexivity|].
    assert (Hx : In x (filter pending (sync_queue d2))) by (rewrite Ef; left; reflexivity).
    apply filter_In in Hx. destruct Hx as [Hx Hp]. rewrite Hq2 in Hx.
    specialize (Hpend x Hx Hp). lia. }
  rewrite Hnone. destruct w2; reflexivity.
Qed.

(** The loop never adds an entry, and gives an entry a new try at most
    once. *)
Lemma push_loop_provenance (q0 : list Change.t) (l : list Change.t) :
  forall r (w : World P) d,
  db w = Some d ->
  NoDup (map Change.id q0) ->
  NoDup (map Change.id l) ->
  (forall c, In c l -> In c q0 /\ pending c = true) ->
  (forall x, In x (sync_queue d) ->
     exists y, In y q0
               /\ (x = y
                   \/ exists m, x = bump_retry m y /\ pending y = true
                                /\ ~ In (Change.id y) (map Change.id l))) ->
  exists r' w' d',
    forEach l (processChange (P:=P)) (r, w) = (Ok tt, (r', w')) /\ db w' = Some d'
    /\ forall x, In x (sync_queue d') ->
         exists y, In y q0
                   /\ (x = y \/ exists m, x = bump_retry m y /\ pending y = true).
Proof.
  intros r w d. revert r w d.
  induction l as [|c rest IH]; intros r w d Hd Hq0 Hl Hsel Hinv.
  - exists r, w, d. split; [reflexivity|]. split; [exact Hd|].
    intros x Hx. destruct (Hinv x Hx) as (y & Hy & [->|(m & -> & Hp & _)]);
      exists y; eauto.
  - inversion Hl as [|? ? Hc Hrest]; subst.
    destruct (processChange_queue c r w Hd) as (r1 & w1 & d1 & E1 & Hd1 & Hcase).
    cbn [forEach]. unfold bind at 1. rewrite E1.
    apply (IH r1 w1 d1 Hd1 Hq0 Hrest);
      [intros c0 Hc0; apply Hsel; right; exact Hc0|].
    destruct Hcase as [[_ Hq]|(message & _ & Hq)]; intros x Hx; rewrite Hq in Hx.
    + apply filter_In in Hx. destruct Hx as [Hx _].
      destruct (Hinv x Hx) as (y & Hy & [->|(m & -> & Hp & Hn)]); exists y;
        (split; [exact Hy|]); [left; reflexivity | right].
      exists m. repeat split; auto. intros Hin. apply Hn. right; exact Hin.
    + unfold record_error in Hx. apply in_map_iff in Hx.
      destruct Hx as (x0 & Hx0 & Hin0).
      destruct (Hinv x0 Hin0) as (y & Hy & Hy').
      destruct (Change.id x0 =? Change.id c) eqn:Eid; subst x.
      * apply Z.eqb_eq in Eid.
        destruct Hy' as [->|(m & -> & Hp & Hn)].
        -- destruct (Hsel c (or_introl eq_refl)) as [Hcq Hcp].
           assert (y = c) by (apply (NoDup_map_eq Change.id q0 y c Hq0 Hy Hcq Eid)).
           subst y.
           exists c. split; [exact Hcq|]. right. exists message.
           split; [reflexivity|]. split; [exact Hcp | exact Hc].
        -- exfalso. apply Hn. left. simpl in Eid. congruence.
      * exists y. split; [exact Hy|].
        destruct Hy' as [->|(m & -> & Hp & Hn)]; [left; reflexivity | right].
        exists m. repeat split; auto. intros Hin. apply Hn. right; exact Hin.
Qed.

(** X7, a cycle only consumes the queue: after [syncAll] every queue entry
    is an entry that was there before, either untouched or given one more
    try ([retry_count + 1] and a [last_error]); only entries below the retry
    limit get a new try, at most one per cycle, and nothing is ever added. *)
Theorem cycle_only_consumes_queue (w w' : World P) (d : LocalDb) (r : SyncResult) :
  OrderByContract (order_by_timestamp P) ->
  db w = Some d ->
  NoDup (map Change.id (sync_queue d)) ->
  syncAll w = (Ok r, w') ->
  exists d',
    db w' = Some d'
    /\ forall x, In x (sync_queue d') ->
         exists y, In y (sync_queue d)
                   /\ (x = y
                       \/ exists message,
                            x = bump_retry message y
                            /\ Change.retry_count y < maxRetries).
Proof.
  intros HO Hd Hn. unfold syncAll.
  assert (Hsame : forall x, In x (sync_queue d) ->
            exists y, In y (sync_queue d)
                      /\ (x = y \/ exists message, x = bump_retry message y
                                    /\ Change.retry_count y < maxRetries))
    by (intros x Hx; exists x; auto).
  destruct (syncInProgress w); [intros H; inversion H; subst; eauto|].
  destruct (negb (isOnline w)); [intros H; inversion H; subst; eauto|].
  assert (Hd1 : db (set_syncInProgress true w) = Some d) by exact Hd.
  rewrite (@syncCycle_unfold P _ _ d Hd1).
  assert (Hsel : NoDup (map Change.id (select_pending P (sync_queue d)))).
  { unfold select_pending.
    eapply Permutation_NoDup;
      [apply Permutation_map, Permutation_sym, (order_perm HO)|].
    apply queue_ids_filter, Hn. }
  destruct (@push_loop_provenance (sync_queue d) (select_pending P (sync_queue d))
              (mkResult true 0 0 []) (set_syncInProgress true w) d Hd1 Hn Hsel)
    as (r1 & w1 & d1 & E1 & Hw1 & Hprov).
  { intros c Hc. apply (@select_pending_in P _ _ HO) in Hc. destruct Hc as [H1 H2].
    split; [exact H1|]. unfold pending. apply Z.ltb_lt. exact H2. }
  { intros x Hx. exists x. auto. }
  unfold bind at 1. rewrite E1. unfold bind, liftW, modify_result. simpl.
  destruct (fetchRemoteChanges w1) as [o2 w2] eqn:E2.
  assert (H2 : on_db (fun d0 => sync_queue d0 = sync_queue d1) w2).
  { eapply (@preserves_fetchRemoteChanges P (fun d0 => sync_queue d0 = sync_queue d1));
      [apply (pull_blind_queue (fun q => q = sync_queue d1)) | exact E2 |].
    exists d1; auto. }
  destruct H2 as (d2 & Hd2 & Hq2).
  assert (Hfinal : forall x, In x (sync_queue d2) ->
            exists y, In y (sync_queue d)
                      /\ (x = y \/ exists message, x = bump_retry message y
                                    /\ Change.retry_count y < maxRetries)).
  { intros x Hx. rewrite Hq2 in Hx.
    destruct (Hprov x Hx) as (y & Hy & [->|(m & -> & Hp)]); exists y;
      (split; [exact Hy|]); [left; reflexivity | right].
    exists m. split; [reflexivity|]. unfold pending in Hp. apply Z.ltb_lt. exact Hp. }
  destruct o2; intros H; inversion H; subst; exists d2; simpl; auto.
Qed.

End QueueAfterCycle.

(* ------------------------------------------------------------------ *)
(** * Pull: what it writes, and what it never does *)

Section PullExtras.

Variable P : Platform.

(** X8, pull never throws and never touches the queue: whatever the
    backend answers for the three entity types, [fetchRemoteChanges]
    returns, and the queue is exactly as before; changes that come from the
    backend are never enqueued for a push. *)
Theorem pull_never_enqueues (w w' : World P) (d : LocalDb) (o : outcome unit) :
  db w = Some d ->
  fetchRemoteChanges w = (o, w') ->
  o = Ok tt /\ exists d', db w' = Some d' /\ sync_queue d' = sync_queue d.
Proof.
  intros Hd H. split.
  - destruct (@fetchRemoteChanges_returns P w) as (w2 & E). congruence.
  - assert (H2 : on_db (fun d0 => sync_queue d0 = sync_queue d) w').
    { eapply (@preserves_fetchRemoteChanges P (fun d0 => sync_queue d0 = sync_queue d));
        [apply (pull_blind_queue (fun q => q = sync_queue d)) | exact H |].
      exists d; auto. }
    exact H2.
Qed.

Lemma fetchEntityChanges_threw e (w w' : World P) m :
  fetchEntityChanges e w = (Threw m, w') -> db w' = db w.
Proof.
  rewrite fetchEntityChanges_run.
  destruct (supabase_select P e (remote_st w)) as [[err|items] r].
  - intros H; inversion H; reflexivity.
  - unfold mergeRemoteItems, bind, getDb. simpl.
    destruct (db w) as [d|] eqn:Hd; [|intros H; inversion H; subst; exact Hd].
    unfold withTransactionAsync.
    destruct (forEach items _ _) as [[[]|m1] w1]; intros H; inversion H; subst.
    simpl; first [reflexivity | exact Hd | symmetry; exact Hd].
Qed.

(** X9, a failed pull of one entity type is all-or-nothing and does not
    stop the others: [fetchRemoteChanges] pulls levels, offices and students
    in this order, each from the state the previous one left; a pull that
    throws (the fetch failed, or a statement of the merge failed and the
    transaction rolled back) leaves the local store exactly as it found
    it. *)
Theorem pull_failure_isolated (w : World P) :
  exists o1 w1 o2 w2 o3 w3,
    fetchEntityChanges levels w = (o1, w1)
    /\ fetchEntityChanges offices w1 = (o2, w2)
    /\ fetchEntityChanges students w2 = (o3, w3)
    /\ fetchRemoteChanges w = (Ok tt, w3)
    /\ (forall m, o1 = Threw m -> db w1 = db w)
    /\ (forall m, o2 = Threw m -> db w2 = db w1)
    /\ (forall m, o3 = Threw m -> db w3 = db w2).
Proof.
  destruct (fetchEntityChanges levels w) as [o1 w1] eqn:E1.
  destruct (fetchEntityChanges offices w1) as [o2 w2] eqn:E2.
  destruct (fetchEntityChanges students w2) as [o3 w3] eqn:E3.
  exists o1, w1, o2, w2, o3, w3.
  split; [reflexivity|]. split; [exact E2|]. split; [exact E3|].
  split.
  - unfold fetchRemoteChanges. cbn [forEach]. unfold bind, try_catch, ret.
    rewrite E1. destruct o1 as [[]|m1]; rewrite E2;
      destruct o2 as [[]|m2]; rewrite E3; destruct o3 as [[]|m3]; reflexivity.
  - split; [|split]; intros m ->; eapply fetchEntityChanges_threw; eauto.
Qed.

Lemma merge_all_app e localItems l1 l2 d :
  merge_all P e localItems (l1 ++ l2) d =
    match merge_all P e localItems l1 d with
    | Ok d1 => merge_all P e localItems l2 d1
    | Threw m => Threw m
    end.
Proof.
  revert d. induction l1 as [|i rest IH]; intros d; simpl; [reflexivity|].
  destruct (merge_statement P e localItems i d); [apply IH | reflexivity].
Qed.

(** Among records with distinct [uuid]s, the rows with the [uuid] of
    record [i] are written by the statement for [i] alone. *)
Lemma merge_all_step_of e localItems items i d d' :
  NoDup (map RemoteItem.uuid items) ->
  In i items ->
  merge_all P e localItems items d = Ok d' ->
  exists d1 d2,
    filter (uuid_is (RemoteItem.uuid i)) (table e d1)
      = filter (uuid_is (RemoteItem.uuid i)) (table e d)
    /\ merge_statement P e localItems i d1 = Ok d2
    /\ filter (uuid_is (RemoteItem.uuid i)) (table e d')
       = filter (uuid_is (RemoteItem.uuid i)) (table e d2)
    /\ exists pre,
         (forall j, In j pre -> In j items /\ j <> i)
         /\ merge_all P e localItems pre d = Ok d1.
Proof.
  intros Hn Hi H. apply in_split in Hi. destruct Hi as (pre & post & ->).
  rewrite map_app in Hn. simpl in Hn.
  assert (Hpre : forall j, In j pre -> RemoteItem.uuid j <> RemoteItem.uuid i).
  { intros j Hj E. apply NoDup_remove_2 in Hn. apply Hn.
    apply in_or_app. left. rewrite <- E. apply in_map; exact Hj. }
  assert (Hpost : forall j, In j post -> RemoteItem.uuid j <> RemoteItem.uuid i).
  { intros j Hj E. apply NoDup_remove_2 in Hn. apply Hn.
    apply in_or_app. right. rewrite <- E. apply in_map; exact Hj. }
  rewrite merge_all_app in H.
  destruct (merge_all P e localItems pre d) as [d1|m] eqn:E1; [|discriminate].
  simpl in H.
  destruct (merge_statement P e localItems i d1) as [d2|m] eqn:E2; [|discriminate].
  exists d1, d2. split; [|split; [exact E2|split]].
  - exact (@merge_all_other_uuid P e localItems _ pre d d1 Hpre E1).
  - exact (@merge_all_other_uuid P e localItems _ post d2 d' Hpost H).
  - exists pre. split; [|exact E1].
    intros j Hj. split; [apply in_or_app; left; exact Hj|].
    intros Ej. apply (Hpre j Hj). rewrite Ej. reflexivity.
Qed.

Lemma find_local_present e d i l :
  table_ok e (table e d) = true ->
  In l (table e d) -> active l = true ->
  RemoteItem.uuid i = Some (Row.uuid l) ->
  find_local (filter active (table e d)) i = Some l.
Proof.
  intros Hok Hl Ha Hu.
  assert (Hul : uuid_is (RemoteItem.uuid i) l = true) by (apply uuid_is_eq, Hu).
  destruct (find_local (filter active (table e d)) i) as [l0|] eqn:Ef.
  - edestruct find_local_key as [Heq _]; [exact Hok | exact Ef | exact Hl | exact Hul |].
    congruence.
  - unfold find_local in Ef.
    assert (Hin : In l (filter active (table e d))) by (apply filter_In; auto).
    pose proof (find_none _ _ Ef l Hin). congruence.
Qed.


Lemma pull_commit e items (w w' : World P) r d :
  db w = Some d ->
  supabase_select P e (remote_st w) = (inr items, r) ->
  fetchEntityChanges e w = (Ok tt, w') ->
  exists d', db w' = Some d'
             /\ merge_all P e (filter active (table e d)) items d = Ok d'.
Proof.
  intros Hd Hf Hrun. rewrite (fetched e w Hf) in Hrun.
  rewrite (@mergeRemoteItems_run P e items (set_remote r w) d Hd) in Hrun.
  destruct (merge_all P e (filter active (table e d)) items d) as [d'|m];
    inversion Hrun; subst.
  exists d'. split; reflexivity.
Qed.

(** The row of [l] after the loop, when the statement for the one record
    with its [uuid] is an [UPDATE ... WHERE uuid = ?] that keeps [uuid]. *)
Lemma merge_all_rewrites e items i d d' l st :
  NoDup (map RemoteItem.uuid items) ->
  In i items ->
  In l (table e d) ->
  RemoteItem.uuid i = Some (Row.uuid l) ->
  merge_all P e (filter active (table e d)) items d = Ok d' ->
  (forall d1, merge_statement P e (filter active (table e d)) i d1
              = sql_update e (uuid_is (RemoteItem.uuid i)) st d1) ->
  (forall r r', st r = Some r' -> Row.uuid r' = Row.uuid r) ->
  exists l', st l = Some l' /\ In l' (table e d').
Proof.
  intros Hn Hi Hl Hu H Hst Hkeep.
  destruct (@merge_all_step_of e _ items i d d' Hn Hi H) as (d1 & d2 & H1 & H2 & H3 & _).
  assert (Hul : uuid_is (RemoteItem.uuid i) l = true) by (apply uuid_is_eq, Hu).
  assert (Hl1 : In l (table e d1)).
  { assert (Hin : In l (filter (uuid_is (RemoteItem.uuid i)) (table e d)))
      by (apply filter_In; auto).
    rewrite <- H1 in Hin. apply filter_In in Hin. apply Hin. }
  rewrite Hst in H2. apply sql_update_rows in H2.
  destruct (Forall2_In_l l H2 Hl1) as (l' & Hl' & Hr).
  rewrite Hul in Hr. exists l'. split; [exact Hr|].
  assert (Hin : In l' (filter (uuid_is (RemoteItem.uuid i)) (table e d2))).
  { apply filter_In. split; [exact Hl'|].
    rewrite (uuid_is_same_uuid _ l l' (Hkeep _ _ Hr)). exact Hul. }
  rewrite <- H3 in Hin. apply filter_In in Hin. apply Hin.
Qed.

(** X10, a remote tombstone is applied to the active local row: when the
    pull commits and the fetched records (with distinct [uuid]s) hold a
    tombstone for the [uuid] of an active row, the table afterwards holds
    that row with [deleted_at] set to the remote one, [is_synced = 1] and
    [operation_type] NULL, all other columns as they were; the row is no
    longer active.  This does not depend on the row's [is_synced] or on
    any timestamp. *)
Theorem pull_applies_tombstone (e : entity) (items : list RemoteItem.t)
    (w w' : World P) (r : Remote P) (d : LocalDb) (i : RemoteItem.t) (l : Row.t) :
  db w = Some d ->
  table_ok e (table e d) = true ->
  supabase_select P e (remote_st w) = (inr items, r) ->
  NoDup (map RemoteItem.uuid items) ->
  In i items ->
  truthy_str (RemoteItem.deleted_at i) = true ->
  In l (table e d) -> active l = true ->
  RemoteItem.uuid i = Some (Row.uuid l) ->
  fetchEntityChanges e w = (Ok tt, w') ->
  exists d', db w' = Some d'
    /\ In (with_tombstone (RemoteItem.deleted_at i) l) (table e d')
    /\ active (with_tombstone (RemoteItem.deleted_at i) l) = false.
Proof.
  intros Hd Hok Hf Hn Hi Ht Hl Ha Hu Hrun.
  destruct (pull_commit e w Hd Hf Hrun) as (d' & Hd' & Hm).
  exists d'. split; [exact Hd'|]. split.
  - edestruct (@merge_all_rewrites e items i d d' l
                 (fun r0 => Some (with_tombstone (RemoteItem.deleted_at i) r0)))
      as (l' & E & Hin); try eassumption.
    + intros d1. unfold merge_statement. rewrite Ht.
      rewrite (@find_local_present e d i l Hok Hl Ha Hu).
      rewrite <- active_truthy, Ha. reflexivity.
    + intros r0 r' E. inversion E; reflexivity.
    + inversion E; subst. exact Hin.
  - rewrite active_truthy. simpl. rewrite Ht. reflexivity.
Qed.

(** X11, a strictly newer remote version replaces the content of a synced
    row: when the pull commits and the fetched records (with distinct
    [uuid]s) hold a live record for the [uuid] of an active row with
    [is_synced] set whose time is strictly smaller than the record's, the
    table afterwards holds the row rewritten by the assignments of
    [updateLocalFromRemote]. *)
Theorem pull_applies_newer_remote (e : entity) (items : list RemoteItem.t)
    (w w' : World P) (r : Remote P) (d : LocalDb) (i : RemoteItem.t) (l : Row.t) :
  db w = Some d ->
  table_ok e (table e d) = true ->
  supabase_select P e (remote_st w) = (inr items, r) ->
  NoDup (map RemoteItem.uuid items) ->
  In i items ->
  truthy_str (RemoteItem.deleted_at i) = false ->
  In l (table e d) -> active l = true ->
  RemoteItem.uuid i = Some (Row.uuid l) ->
  time_gt (remoteTime P i) (localTime P l) = true ->
  Row.is_synced l <> 0 ->
  fetchEntityChanges e w = (Ok tt, w') ->
  exists d' l', db w' = Some d'
    /\ assign_from_remote e i l = Some l'
    /\ In l' (table e d')
    /\ Row.is_synced l' = 1
    /\ js_or (RemoteItem.updated_at i) (RemoteItem.created_at i)
         = Some (Row.updated_at l').
Proof.
  intros Hd Hok Hf Hn Hi Ht Hl Ha Hu Hgt Hs Hrun.
  destruct (pull_commit e w Hd Hf Hrun) as (d' & Hd' & Hm).
  edestruct (@merge_all_rewrites e items i d d' l (assign_from_remote e i))
    as (l' & E & Hin); try eassumption.
  - intros d1. unfold merge_statement. rewrite Ht.
    rewrite (@find_local_present e d i l Hok Hl Ha Hu).
    unfold remote_wins, truthy_int. rewrite Hgt.
    destruct (Row.is_synced l =? 0) eqn:Ez;
      [apply Z.eqb_eq in Ez; contradiction|]. reflexivity.
  - intros r0 r' E. apply assign_from_remote_frame in E. apply E.
  - exists d', l'. split; [exact Hd'|]. split; [exact E|]. split; [exact Hin|].
    clear - E. unfold assign_from_remote in E.
    destruct (RemoteItem.name i); [|discriminate].
    destruct (js_or (RemoteItem.updated_at i) (RemoteItem.created_at i));
      [|discriminate].
    destruct e.
    + inversion E; subst; simpl; auto.
    + inversion E; subst; simpl; auto.
    + destruct (RemoteItem.office_id i); [|discriminate].
      destruct (RemoteItem.level_id i); [|discriminate].
      inversion E; subst; simpl; auto.
Qed.

Lemma merge_statement_keeps_deleted e d0 l i d d1 :
  table_ok e (table e d0) = true ->
  In l (table e d0) -> active l = false ->
  In l (table e d) ->
  merge_statement P e (filter active (table e d0)) i d = Ok d1 ->
  In l (table e d1).
Proof.
  intros Hok Hl0 Ha Hl H.
  destruct (uuid_is (RemoteItem.uuid i) l) eqn:Eu.
  - assert (Ef : find_local (filter active (table e d0)) i = None).
    { destruct (find_local (filter active (table e d0)) i) as [l0|] eqn:Ef;
        [|reflexivity].
      edestruct find_local_key as [_ Hact];
        [exact Hok | exact Ef | exact Hl0 | exact Eu |]. congruence. }
    unfold merge_statement in H. rewrite Ef in H.
    destruct (truthy_str (RemoteItem.deleted_at i)); [inversion H; subst; exact Hl|].
    apply sql_insert_or_ignore_rows in H.
    destruct H as [->|(r & _ & _ & E)]; [exact Hl|].
    rewrite E. apply in_or_app. left; exact Hl.
  - assert (Hne : RemoteItem.uuid i <> Some (Row.uuid l)).
    { intros E. apply uuid_is_eq in E. congruence. }
    pose proof (@merge_statement_other_uuid P e _ i _ d d1 Hne H) as Hf.
    assert (Hin : In l (filter (uuid_is (Some (Row.uuid l))) (table e d))).
    { apply filter_In. split; [exact Hl|]. apply uuid_is_eq. reflexivity. }
    rewrite <- Hf in Hin. apply filter_In in Hin. apply Hin.
Qed.

Lemma merge_all_keeps_deleted e d0 l items : forall d d',
  table_ok e (table e d0) = true ->
  In l (table e d0) -> active l = false ->
  In l (table e d) ->
  merge_all P e (filter active (table e d0)) items d = Ok d' ->
  In l (table e d').
Proof.
  induction items as [|i rest IH]; simpl; intros d d' Hok Hl0 Ha Hl H.
  - inversion H; subst; exact Hl.
  - destruct (merge_statement P e (filter active (table e d0)) i d) as [d1|m] eqn:E;
      [|discriminate].
    apply (IH d1 d' Hok Hl0 Ha); [|exact H].
    eapply merge_statement_keeps_deleted; eauto.
Qed.

(** X12, pull never resurrects or rewrites a soft-deleted row: a row whose
    [deleted_at] is set is left exactly as it is by [fetchEntityChanges],
    whatever the backend returns (live records, newer timestamps,
    tombstones) and whether the run commits or throws. *)
Theorem pull_keeps_soft_deleted (e : entity) (w w' : World P) (d : LocalDb)
    (l : Row.t) (o : outcome unit) :
  db w = Some d ->
  table_ok e (table e d) = true ->
  In l (table e d) -> active l = false ->
  fetchEntityChanges e w = (o, w') ->
  exists d', db w' = Some d' /\ In l (table e d').
Proof.
  intros Hd Hok Hl Ha Hrun. rewrite fetchEntityChanges_run in Hrun.
  destruct (supabase_select P e (remote_st w)) as [[err|items] r].
  - inversion Hrun; subst. exists d; auto.
  - rewrite (@mergeRemoteItems_run P e items (set_remote r w) d Hd) in Hrun.
    destruct (merge_all P e (filter active (table e d)) items d) as [d'|m] eqn:E;
      inversion Hrun; subst.
    + exists d'. split; [reflexivity|].
      eapply merge_all_keeps_deleted; eauto.
    + exists d; auto.
Qed.

(** Where the remote identifier of a row comes from: a row that was
    there before the statement, or the record the statement inserts. *)
Lemma merge_statement_origin e localItems j d d' x' :
  merge_statement P e localItems j d = Ok d' ->
  In x' (table e d') ->
  (exists x, In x (table e d) /\ Row.supabase_id x' = Row.supabase_id x)
  \/ Row.supabase_id x' = RemoteItem.id j.
Proof.
  unfold merge_statement. intros H Hx'.
  assert (Hupd : forall st,
            (forall a b, st a = Some b -> Row.supabase_id b = Row.supabase_id a) ->
            sql_update e (uuid_is (RemoteItem.uuid j)) st d = Ok d' ->
            exists x, In x (table e d) /\ Row.supabase_id x' = Row.supabase_id x).
  { intros st Hst Hu. apply sql_update_rows in Hu.
    destruct (Forall2_In_r x' Hu Hx') as (x & Hx & Hrel).
    exists x. split; [exact Hx|].
    destruct (uuid_is (RemoteItem.uuid j) x); [apply Hst, Hrel | subst; reflexivity]. }
  assert (Hnop : Ok d = Ok d' ->
            exists x, In x (table e d) /\ Row.supabase_id x' = Row.supabase_id x).
  { intros E. inversion E; subst. exists x'. auto. }
  destruct (truthy_str (RemoteItem.deleted_at j)).
  - destruct (find_local localItems j) as [l0|]; [|left; apply Hnop, H].
    destruct (negb (truthy_str (Row.deleted_at l0))); [|left; apply Hnop, H].
    left. apply (Hupd (fun r0 => Some (with_tombstone (RemoteItem.deleted_at j) r0)));
      [|exact H].
    intros a b E. inversion E; reflexivity.
  - destruct (find_local localItems j) as [l0|].
    + destruct (remote_wins P j l0); [|left; apply Hnop, H].
      left. apply (Hupd (assign_from_remote e j)); [|exact H].
      intros a b E. apply assign_from_remote_frame in E. apply E.
    + apply sql_insert_or_ignore_cases in H.
      destruct H as [(Ht & _)|(r0 & Hr & _ & E)].
      * left. exists x'. rewrite <- Ht. auto.
      * rewrite E in Hx'. apply in_app_or in Hx'. destruct Hx' as [Hx'|[<-|[]]].
        -- left. exists x'. auto.
        -- right. apply (row_of_remote_row _ _ _ Hr).
Qed.

Lemma merge_all_origin e localItems pre : forall d d1 x',
  merge_all P e localItems pre d = Ok d1 ->
  In x' (table e d1) ->
  (exists x, In x (table e d) /\ Row.supabase_id x' = Row.supabase_id x)
  \/ exists j, In j pre /\ Row.supabase_id x' = RemoteItem.id j.
Proof.
  induction pre as [|j rest IH]; simpl; intros d d1 x' H Hx'.
  - inversion H; subst. left. exists x'. auto.
  - destruct (merge_statement P e localItems j d) as [dj|m] eqn:E; [|discriminate].
    destruct (IH dj d1 x' H Hx') as [(x & Hx & Hs)|(k & Hk & Hs)].
    + destruct (@merge_statement_origin e localItems j d dj x E Hx)
        as [(x0 & Hx0 & Hs0)|Hs0].
      * left. exists x0. split; [exact Hx0 | congruence].
      * right. exists j. split; [left; reflexivity | congruence].
    + right. exists k. auto.
Qed.

(** X13, a record unknown locally is inserted as a synced row, at most
    once: when no row of the table has the [uuid] of a live fetched record
    (records with distinct [uuid]s) and the pull commits, the table
    afterwards holds either no row with that [uuid] (the [INSERT OR IGNORE]
    skipped it) or exactly one, the row of [insertRemoteItem]: the record's
    columns, [supabase_id] the record's [id], [is_synced = 1],
    [operation_type] and [deleted_at] NULL.  The row is there whenever the
    record has its [NOT NULL] columns and its remote identifier is held
    neither by a row of the table nor by another fetched record: nothing
    else makes the insert skip. *)
Theorem pull_inserts_unknown_as_synced (e : entity) (items : list RemoteItem.t)
    (w w' : World P) (r : Remote P) (d : LocalDb) (i : RemoteItem.t) :
  db w = Some d ->
  supabase_select P e (remote_st w) = (inr items, r) ->
  NoDup (map RemoteItem.uuid items) ->
  In i items ->
  truthy_str (RemoteItem.deleted_at i) = false ->
  (forall l, In l (table e d) -> RemoteItem.uuid i <> Some (Row.uuid l)) ->
  fetchEntityChanges e w = (Ok tt, w') ->
  exists d', db w' = Some d'
    /\ (filter (uuid_is (RemoteItem.uuid i)) (table e d') = []
        \/ inserted_from_remote e i d')
    /\ (row_of_remote e i 0 <> None ->
        (forall s, RemoteItem.id i = Some s ->
           (forall x, In x (table e d) -> Row.supabase_id x <> Some s)
           /\ (forall j, In j items -> RemoteItem.id j = Some s -> j = i)) ->
        inserted_from_remote e i d').
Proof.
  intros Hd Hf Hn Hi Ht Hnew Hrun.
  destruct (pull_commit e w Hd Hf Hrun) as (d' & Hd' & Hm).
  exists d'. split; [exact Hd'|].
  destruct (@merge_all_step_of e _ items i d d' Hn Hi Hm)
    as (d1 & d2 & H1 & H2 & H3 & pre & Hpre & Epre).
  assert (Hnone : filter (uuid_is (RemoteItem.uuid i)) (table e d) = []).
  { destruct (filter (uuid_is (RemoteItem.uuid i)) (table e d)) as [|x t] eqn:E;
      [reflexivity|].
    assert (Hx : In x (filter (uuid_is (RemoteItem.uuid i)) (table e d)))
      by (rewrite E; left; reflexivity).
    apply filter_In in Hx. destruct Hx as [Hx Hu].
    apply uuid_is_eq in Hu. exfalso. exact (Hnew x Hx Hu). }
  rewrite Hnone in H1.
  unfold merge_statement in H2. rewrite Ht in H2.
  assert (Ef : find_local (filter active (table e d)) i = None).
  { destruct (find_local (filter active (table e d)) i) as [l0|] eqn:Ef;
      [|reflexivity].
    unfold find_local in Ef. apply find_some in Ef. destruct Ef as [Hin Hu].
    apply filter_In in Hin. apply uuid_is_eq in Hu.
    exfalso. exact (Hnew l0 (proj1 Hin) Hu). }
  rewrite Ef in H2. apply sql_insert_or_ignore_cases in H2.
  (* the row, once it is inserted *)
  assert (Hins : forall row,
            row_of_remote e i (next_rowid e d1) = Some row ->
            table e d2 = table e d1 ++ [row] ->
            inserted_from_remote e i d').
  { intros row Hrow E. exists (next_rowid e d1), row.
    split; [exact Hrow|].
    destruct (row_of_remote_row _ _ _ Hrow) as (_ & Hdel & Hs & Hsy & Hop).
    destruct (row_of_remote_inv _ _ _ Hrow) as [Hu _].
    split; [|auto].
    rewrite H3, E, filter_app, H1. simpl.
    apply uuid_is_eq in Hu. rewrite Hu. reflexivity. }
  split.
  - destruct H2 as [(Htab & _)|(row & Hrow & _ & E)].
    + left. rewrite H3, Htab. exact H1.
    + right. apply (Hins row Hrow E).
  - intros Hcols Hid.
    destruct H2 as [(Htab & [Hnull|(row & Hrow & Hc)])|(row & Hrow & _ & E)].
    + exfalso. apply Hcols. apply (row_of_remote_none e i _ 0 Hnull).
    + exfalso. apply existsb_exists in Hc. destruct Hc as (x & Hx & Hc).
      apply conflict_keys in Hc.
      destruct (row_of_remote_row _ _ _ Hrow) as (Hk & _ & Hs & _).
      destruct (row_of_remote_inv _ _ _ Hrow) as [Hu _].
      destruct Hc as [Hc|[Hc|(s & Hxs & Hrs)]].
      * pose proof (next_rowid_fresh e d1 x Hx). lia.
      * assert (Hin : In x (filter (uuid_is (RemoteItem.uuid i)) (table e d1))).
        { apply filter_In. split; [exact Hx|]. apply uuid_is_eq. congruence. }
        rewrite H1 in Hin. exact Hin.
      * assert (His : RemoteItem.id i = Some s) by congruence.
        destruct (Hid s His) as [Hloc Hrem].
        destruct (@merge_all_origin e _ pre d d1 x Epre Hx)
          as [(x0 & Hx0 & Hs0)|(j & Hj & Hs0)].
        -- apply (Hloc x0 Hx0). congruence.
        -- destruct (Hpre j Hj) as [Hji Hne]. apply Hne.
           apply Hrem; [exact Hji | congruence].
    + apply (Hins row Hrow E).
Qed.

End PullExtras.

(* ------------------------------------------------------------------ *)
(** * The repositories: what a local mutation writes *)

(** Rewriting rows cannot break a uniqueness constraint when it creates no
    new collision. *)
Lemma table_ok_map e (f : Row.t -> Row.t) rows :
  (forall a b, conflict e (f a) (f b) = true -> conflict e a b = true) ->
  table_ok e rows = true -> table_ok e (map f rows) = true.
Proof.
  intros Hc. unfold table_ok. induction rows as [|x t IH]; simpl; [reflexivity|].
  intros H. apply andb_true_iff in H. destruct H as [H1 H2].
  apply andb_true_iff. split; [|apply IH, H2].
  apply forallb_forall. intros y Hy. apply in_map_iff in Hy.
  destruct Hy as (y0 & Ey & Hy0). subst y.
  rewrite forallb_forall in H1. specialize (H1 y0 Hy0).
  destruct (conflict e (f x) (f y0)) eqn:E; [|reflexivity].
  apply Hc in E. rewrite E in H1. discriminate.
Qed.

(** Rewriting rows of table [e] without touching [supabase_id],
    [office_id] and [level_id] keeps the foreign keys as they are. *)
Lemma fk_ok_map e (f : Row.t -> Row.t) d :
  (forall r, Row.supabase_id (f r) = Row.supabase_id r) ->
  (forall r, Row.office_id (f r) = Row.office_id r) ->
  (forall r, Row.level_id (f r) = Row.level_id r) ->
  fk_ok (set_table e (map f (table e d)) d) = fk_ok d.
Proof.
  intros Hs Ho Hl. unfold fk_ok. destruct e; simpl.
  - apply forallb_pointwise. intros s.
    destruct (Row.office_id s); [|reflexivity].
    destruct (Row.level_id s) as [l|]; [|reflexivity].
    f_equal. unfold has_supabase_id. apply existsb_map_same.
    intros a. rewrite Hs. reflexivity.
  - apply forallb_pointwise. intros s.
    destruct (Row.office_id s) as [o|]; [|reflexivity].
    destruct (Row.level_id s); [|reflexivity].
    f_equal. unfold has_supabase_id. apply existsb_map_same.
    intros a. rewrite Hs. reflexivity.
  - apply forallb_map_same. intros a. rewrite Ho, Hl. reflexivity.
Qed.

Lemma conflict_soft_deleted e (wh : Row.t -> bool) now a b :
  conflict e (if wh a then soft_deleted now a else a)
             (if wh b then soft_deleted now b else b) = true ->
  conflict e a b = true.
Proof.
  unfold conflict.
  destruct (wh a), (wh b); simpl; intros H;
    repeat (apply orb_true_iff in H; destruct H as [H|H]);
    rewrite ?H, ?orb_true_r; try reflexivity; try discriminate.
Qed.

(** On a store that satisfies its constraints the soft delete always
    succeeds. *)
Lemma sql_update_soft_deleted e wh now d :
  table_ok e (table e d) = true -> fk_ok d = true ->
  sql_update e wh (fun r => Some (soft_deleted now r)) d
  = Ok (set_table e (map (fun r => if wh r then soft_deleted now r else r)
                         (table e d)) d).
Proof.
  intros Hok Hfk. unfold sql_update.
  destruct (existsb wh (table e d)) eqn:Ex.
  - rewrite update_rows_total.
    rewrite (table_ok_map e _ _ (conflict_soft_deleted e wh now) Hok).
    rewrite fk_ok_map, Hfk; [reflexivity| | |]; intros r; destruct (wh r); reflexivity.
  - rewrite (map_unselected wh (soft_deleted now) _ Ex), set_table_same. reflexivity.
Qed.

Lemma table_with_entry e c d : table e (with_entry c d) = table e d.
Proof. destruct e; reflexivity. Qed.

Lemma next_queue_id_set_table e rows d :
  next_queue_id (set_table e rows d) = next_queue_id d.
Proof. destruct e; reflexivity. Qed.

Lemma next_queue_id_set_sequence e k d :
  next_queue_id (set_sequence e k d) = next_queue_id d.
Proof. destruct e; reflexivity. Qed.


Section RepositoryExtras.

Variable P : Platform.
Variable R : Runtime.
Variable repo : Repository P.

Lemma rollback_same (w : World P) :
  mkWorld P (remote_st w) (db w) (isOnline w) (syncInProgress w) = w.
Proof. destruct w; reflexivity. Qed.

Lemma getById_run id (w : World P) d :
  db w = Some d ->
  getById repo id w
  = (Ok (find (fun r => id_is (Some id) r && active r) (table (tableName repo) d)), w).
Proof. intros Hd. unfold getById, bind, getDb, ret. rewrite Hd. reflexivity. Qed.

Lemma update_not_found id item now defaults (w : World P) :
  getById repo id w = (Ok None, w) ->
  update R repo id item now defaults w = (Threw (not_found repo), w).
Proof.
  intros Hg. unfold update, bind, getDb, withTransactionAsync.
  destruct (db w) as [d|] eqn:Hd.
  - rewrite Hg. unfold throw. rewrite rollback_same. reflexivity.
  - unfold getById, bind, getDb in Hg. rewrite Hd in Hg. discriminate.
Qed.

Lemma delete_not_found id now defaults (w : World P) :
  getById repo id w = (Ok None, w) ->
  delete R repo id now defaults w = (Threw (not_found repo), w).
Proof.
  intros Hg. unfold delete, bind, getDb, withTransactionAsync.
  destruct (db w) as [d|] eqn:Hd.
  - rewrite Hg. unfold throw. rewrite rollback_same. reflexivity.
  - unfold getById, bind, getDb in Hg. rewrite Hd in Hg. discriminate.
Qed.

(** The run of [delete] on an active row. *)
Lemma delete_run id now defaults (w : World P) d ex :
  db w = Some d ->
  table_ok (tableName repo) (table (tableName repo) d) = true ->
  fk_ok d = true ->
  find (fun r => id_is (Some id) r && active r) (table (tableName repo) d) = Some ex ->
  delete R repo id now defaults w
  = (Ok tt,
     set_db
       (with_entry
          (Change.mk (next_queue_id d) (tableName repo) (Some id)
             (Some (Row.uuid ex)) (js_or_null (Row.supabase_id ex)) DELETE
             (JSON_stringify R (DeletedPayload now (Row.uuid ex) now))
             (q_timestamp defaults) 0 None (q_created_at defaults))
          (set_table (tableName repo)
             (map (fun r => if id_is (Some id) r then soft_deleted now r else r)
                  (table (tableName repo) d)) d)) w).
Proof.
  intros Hd Hok Hfk Hfind.
  unfold delete, bind, getDb, withTransactionAsync. rewrite Hd.
  rewrite (getById_run id w Hd), Hfind.
  rewrite (runAsync_run _ w Hd), (sql_update_soft_deleted _ _ _ _ Hok Hfk).
  unfold addToSyncQueue.
  erewrite runAsync_run; [|reflexivity].
  unfold sql_enqueue. rewrite next_queue_id_set_table.
  destruct w; reflexivity.
Qed.


Lemma find_after_soft_delete id now rows :
  now <> EmptyString ->
  find (fun r => id_is (Some id) r && active r)
       (map (fun r => if id_is (Some id) r then soft_deleted now r else r) rows)
  = None.
Proof.
  intros Hnow. induction rows as [|r rest IH]; simpl; [reflexivity|].
  destruct (id_is (Some id) r) eqn:E.
  - assert (Ei : id_is (Some id) (soft_deleted now r) = true) by exact E.
    rewrite Ei. unfold active. simpl.
    destruct (String.eqb now EmptyString) eqn:En;
      [apply String.eqb_eq in En; contradiction|]. simpl. exact IH.
  - rewrite E. simpl. exact IH.
Qed.

(** X15, a soft-deleted record is gone for the repository: after
    [delete(id)] has returned (at a time that is not the empty string),
    [getById(id)] finds nothing, and a second [delete(id)] or an
    [update(id, ...)] throws the "not found locally" error and leaves the
    store, the queue included, as it is. *)
Theorem deleted_row_is_gone (id : Z) (now : string) (defaults : QueueDefaults)
    (w : World P) (d : LocalDb) (ex : Row.t) :
  db w = Some d ->
  table_ok (tableName repo) (table (tableName repo) d) = true ->
  fk_ok d = true ->
  find (fun r => id_is (Some id) r && active r) (table (tableName repo) d) = Some ex ->
  now <> EmptyString ->
  exists w',
    delete R repo id now defaults w = (Ok tt, w')
    /\ getById repo id w' = (Ok None, w')
    /\ (forall now' defaults',
          delete R repo id now' defaults' w' = (Threw (not_found repo), w'))
    /\ (forall item now' defaults',
          update R repo id item now' defaults' w' = (Threw (not_found repo), w')).
Proof.
  intros Hd Hok Hfk Hfind Hnow.
  eexists. split; [exact (delete_run id now defaults w Hd Hok Hfk Hfind)|].
  match goal with |- getById _ _ ?w1 = _ /\ _ =>
    assert (Hg : getById repo id w1 = (Ok None, w1)) end.
  { erewrite getById_run; [|reflexivity].
    rewrite table_with_entry, table_set_table.
    rewrite (@find_after_soft_delete id now _ Hnow).
    reflexivity. }
  split; [exact Hg|]. split.
  - intros now' defaults'. apply delete_not_found, Hg.
  - intros item now' defaults'. apply update_not_found, Hg.
Qed.

(** X16, mutations of a record that is not there: when [getById(id)]
    finds nothing (no row with this [id], or a soft-deleted one),
    [update(id, ...)] and [delete(id)] throw the "not found locally" error
    of the repository, and nothing is written: no row, no queue entry. *)
Theorem mutating_missing_row_fails (id : Z) (item : Item.t) (now : string)
    (defaults : QueueDefaults) (w : World P) :
  getById repo id w = (Ok None, w) ->
  update R repo id item now defaults w = (Threw (not_found repo), w)
  /\ delete R repo id now defaults w = (Threw (not_found repo), w).
Proof.
  intros Hg. split; [apply update_not_found, Hg | apply delete_not_found, Hg].
Qed.

End RepositoryExtras.

Lemma fk_ok_set_sequence e k d : fk_ok (set_sequence e k d) = fk_ok d.
Proof. destruct e; reflexivity. Qed.

(** A new office or level cannot break a foreign key of [students]. *)
Lemma fk_ok_append e r d :
  e <> students -> fk_ok d = true ->
  fk_ok (set_table e (table e d ++ [r]) d) = true.
Proof.
  intros He Hfk. unfold fk_ok in *. rewrite forallb_forall in Hfk.
  apply forallb_forall. intros s Hs.
  destruct e; simpl in *; [| |contradiction].
  - specialize (Hfk s Hs). destruct (Row.office_id s); [|exact Hfk].
    destruct (Row.level_id s); [|exact Hfk].
    apply andb_true_iff in Hfk. destruct Hfk as [H1 H2].
    rewrite H1. simpl. unfold has_supabase_id in *.
    rewrite existsb_app, H2. reflexivity.
  - specialize (Hfk s Hs). destruct (Row.office_id s); [|exact Hfk].
    destruct (Row.level_id s); [|exact Hfk].
    apply andb_true_iff in Hfk. destruct Hfk as [H1 H2].
    rewrite H2, andb_true_r. unfold has_supabase_id in *.
    rewrite existsb_app, H1. reflexivity.
Qed.

Section NamedRepositories.

Variable P : Platform.
Variable R : Runtime.
Variable e : entity.
Variables display required duplicate : string.

Let named : Repository P := @namedRepository P R e display required duplicate.

Lemma find_duplicate_none excludeId n d :
  (forall r, In r (table e d) -> active r = true -> Row.name r <> n) ->
  find (fun r => String.eqb (Row.name r) n && not_excluded excludeId r && active r)
       (table e d) = None.
Proof.
  intros H.
  destruct (find _ (table e d)) as [r|] eqn:Ef; [|reflexivity].
  apply find_some in Ef. destruct Ef as [Hin Hr].
  apply andb_true_iff in Hr. destruct Hr as [Hr Ha].
  apply andb_true_iff in Hr. destruct Hr as [Hn _].
  apply String.eqb_eq in Hn. exfalso. exact (H r Hin Ha Hn).
Qed.

Lemma find_duplicate_some excludeId n d r :
  In r (table e d) -> active r = true -> Row.name r = n ->
  not_excluded excludeId r = true ->
  exists r0,
    find (fun r => String.eqb (Row.name r) n && not_excluded excludeId r && active r)
         (table e d) = Some r0.
Proof.
  intros Hin Ha Hn Hx.
  destruct (find _ (table e d)) as [r0|] eqn:Ef; [exists r0; reflexivity|].
  pose proof (find_none _ _ Ef r Hin) as H. simpl in H.
  rewrite Ha, Hx, andb_true_r, andb_true_r in H.
  apply String.eqb_neq in H. contradiction.
Qed.

(** X17, creating an office or a level offline: [insert] of a record
    with a non-blank name that no active row of the table has, and without
    a remote identifier, returns; the table gets one new row at its end
    with the rowid [AUTOINCREMENT] hands out (larger than every [id] in the
    table and than every rowid handed out before, also for rows a pull
    skipped), the fresh [uuid], the trimmed name, no
    [supabase_id], [is_synced = 0], [operation_type = INSERT] and both
    timestamps the time of the call; and the queue gets one new entry at
    its end, under the next queue [id], an [INSERT] addressing that row by
    [id] and [uuid], without
    remote identifier and with no retries yet.  Soft-deleted rows with the
    same name do not stand in the way. *)
Theorem insert_named_offline (item : Item.t) (now newUuid : string)
    (defaults : QueueDefaults) (w : World P) (d : LocalDb) (n : string) :
  e <> students ->
  db w = Some d ->
  fk_ok d = true ->
  trimmed_name R item = Some n -> n <> EmptyString ->
  truthy_int (Item.supabase_id item) = false ->
  (forall r, In r (table e d) -> active r = true -> Row.name r <> n) ->
  (forall r, In r (table e d) -> Row.uuid r <> newUuid) ->
  exists v d',
    insert R named item now newUuid defaults w = (Ok v, set_db d' w)
    /\ table e d'
       = table e d ++
           [Row.mk (next_rowid e d) newUuid n None None None None None None
              0 (Some INSERT) now now None]
    /\ (forall r, In r (table e d) -> Row.id r < next_rowid e d)
    /\ sequence e d < next_rowid e d
    /\ sequence e d' = next_rowid e d
    /\ (forall e', e' <> e -> table e' d' = table e' d)
    /\ sync_queue d'
       = sync_queue d ++
           [Change.mk (next_queue_id d) e (Some (next_rowid e d))
              (Some newUuid) None INSERT
              (JSON_stringify R (ItemPayload item newUuid now))
              (q_timestamp defaults) 0 None (q_created_at defaults)].
Proof.
  intros He Hd Hfk Hn Hne Hs Hname Huuid.
  assert (Hconf : existsb
            (conflict e (Row.mk (next_rowid e d) newUuid n None None None None
                           None None 0 (Some INSERT) now now None))
            (table e d) = false).
  { destruct (existsb _ (table e d)) eqn:Ex; [|reflexivity].
    apply existsb_exists in Ex. destruct Ex as (x & Hx & Hc).
    apply conflict_keys in Hc. simpl in Hc.
    destruct Hc as [Hc|[Hc|(s & _ & Hc)]].
    - pose proof (next_rowid_fresh e d x Hx). lia.
    - exfalso. exact (Huuid x Hx Hc).
    - discriminate Hc. }
  assert (Enb : String.eqb n EmptyString = false) by (apply String.eqb_neq, Hne).
  unfold insert, bind, getDb. rewrite Hd. unfold withTransactionAsync.
  subst named. cbn [checkDuplicates performInsert namedRepository tableName].
  unfold checkDuplicates_named. rewrite Hn, Enb.
  unfold bind, getDb. rewrite Hd.
  rewrite (@find_duplicate_none None n d Hname).
  unfold ret, runInsert, bind, getDb. rewrite Hd.
  unfold sql_insert, new_named_row. rewrite Hn, Hs.
  unfold js_or_null. rewrite Hs. rewrite Hconf.
  rewrite fk_ok_set_sequence, (@fk_ok_append e _ d He Hfk).
  cbn [negb]. unfold addToSyncQueue, runAsync, bind, getDb, set_db. cbn [db].
  cbn [tableName namedRepository].
  unfold sql_enqueue. rewrite next_queue_id_set_sequence, next_queue_id_set_table.
  eexists. eexists. split; [reflexivity|].
  split; [rewrite table_with_entry, table_set_sequence, table_set_table; reflexivity|].
  split; [intros r Hr; apply next_rowid_fresh, Hr|].
  split; [unfold next_rowid;
          pose proof (Z.le_max_l (sequence e d) (largest_id (table e d))); lia|].
  split; [destruct e; reflexivity|].
  split; [intros e' He'; rewrite table_with_entry, table_set_sequence;
          apply table_set_table_other, He'|].
  cbn [with_entry sync_queue].
  rewrite sync_queue_set_sequence, sync_queue_set_table. reflexivity.
Qed.

(** X18, names that are refused: [insert] of a record whose name is
    missing or blank after trimming throws the "name required" error, and
    [insert] of a record whose trimmed name is the name of an active row
    throws the "name exists" error; so does [update] when the active row
    with that name is another than the one updated.  In each case nothing
    is written. *)
Theorem named_duplicates_rejected (item : Item.t) (now newUuid : string)
    (defaults : QueueDefaults) (w : World P) (d : LocalDb) :
  db w = Some d ->
  ((trimmed_name R item = None \/ trimmed_name R item = Some EmptyString) ->
     insert R named item now newUuid defaults w = (Threw required, w))
  /\ (forall r, In r (table e d) -> active r = true ->
        trimmed_name R item = Some (Row.name r) -> Row.name r <> EmptyString ->
        insert R named item now newUuid defaults w = (Threw duplicate, w)
        /\ forall id ex,
             find (fun x => id_is (Some id) x && active x) (table e d) = Some ex ->
             Row.id r <> id ->
             update R named id item now defaults w = (Threw duplicate, w)).
Proof.
  intros Hd. split.
  - intros Hblank. unfold insert, bind, getDb. rewrite Hd.
    unfold withTransactionAsync.
    subst named. cbn [checkDuplicates namedRepository].
    unfold checkDuplicates_named.
    destruct Hblank as [E|E]; rewrite E; simpl; unfold throw;
      destruct w; simpl in Hd; subst; reflexivity.
  - intros r Hin Ha Hn Hne.
    assert (Enb : String.eqb (Row.name r) EmptyString = false)
      by (apply String.eqb_neq, Hne).
    split.
    + destruct (@find_duplicate_some None (Row.name r) d r Hin Ha eq_refl eq_refl)
        as (r0 & Ef).
      unfold insert, bind, getDb. rewrite Hd. unfold withTransactionAsync.
      subst named. cbn [checkDuplicates namedRepository].
      unfold checkDuplicates_named. rewrite Hn, Enb.
      unfold bind, getDb. rewrite Hd, Ef. unfold throw.
      destruct w; simpl in Hd; subst; reflexivity.
    + intros id ex Hex Hid.
      assert (Hx : not_excluded (Some id) r = true).
      { unfold not_excluded. destruct (truthy_int (Some id)); [|reflexivity].
        unfold id_is. simpl. apply negb_true_iff. apply Z.eqb_neq. exact Hid. }
      destruct (@find_duplicate_some (Some id) (Row.name r) d r Hin Ha eq_refl Hx)
        as (r0 & Ef).
      unfold update, bind, getDb. rewrite Hd. unfold withTransactionAsync.
      rewrite (getById_run named id w Hd).
      subst named. cbn [checkDuplicates namedRepository tableName].
      rewrite Hex.
      unfold checkDuplicates_named. rewrite Hn, Enb.
      unfold bind, getDb. rewrite Hd, Ef. unfold throw.
      destruct w; simpl in Hd; subst; reflexivity.
Qed.

(** X19, [mergeRemote] has no conflict guard: when an active row has the
    [uuid] of the remote record and [mergeRemote] returns, the row has been
    overwritten with the record's [name] and [updated_at || created_at] and
    marked synced ([is_synced = 1], [operation_type] NULL), whatever its
    [is_synced] and timestamps were; the queue is left as it is, so an
    entry waiting for the row stays in it. *)
Theorem mergeRemote_overwrites (i : RemoteItem.t) (now1 now2 : string)
    (w w' : World P) (d : LocalDb) (l : Row.t) :
  db w = Some d ->
  In l (table e d) -> active l = true ->
  RemoteItem.uuid i = Some (Row.uuid l) ->
  mergeRemote named i now1 now2 w = (Ok tt, w') ->
  exists d' l',
    db w' = Some d'
    /\ overwrite_named_row i l = Some l'
    /\ In l' (table e d')
    /\ Row.is_synced l' = 1 /\ Row.operation_type l' = None
    /\ sync_queue d' = sync_queue d.
Proof.
  intros Hd Hl Ha Hu Hrun.
  assert (Hul : uuid_is (RemoteItem.uuid i) l = true) by (apply uuid_is_eq, Hu).
  unfold mergeRemote, getByUuid in Hrun. unfold bind, getDb, ret in Hrun.
  rewrite Hd in Hrun.
  subst named. cbn [tableName namedRepository updateFromRemote insertFromRemote] in Hrun.
  cbn beta iota in Hrun. rewrite Hd in Hrun.
  destruct (find (fun r => uuid_is (RemoteItem.uuid i) r && active r) (table e d))
    as [l0|] eqn:Ef.
  - cbn beta iota in Hrun. rewrite (runAsync_run _ w Hd) in Hrun.
    destruct (sql_update e (uuid_is (RemoteItem.uuid i)) (overwrite_named_row i) d)
      as [d'|m] eqn:Eu; inversion Hrun; subst.
    pose proof (sql_update_queue _ _ _ _ Eu) as Hq.
    apply sql_update_rows in Eu.
    destruct (Forall2_In_l l Eu Hl) as (l' & Hl' & Hr). rewrite Hul in Hr.
    exists d', l'. split; [reflexivity|]. split; [exact Hr|]. split; [exact Hl'|].
    split; [|split; [|exact Hq]];
      unfold overwrite_named_row in Hr;
      destruct (RemoteItem.name i); try discriminate;
      destruct (js_or (RemoteItem.updated_at i) (RemoteItem.created_at i));
      try discriminate; inversion Hr; reflexivity.
  - pose proof (find_none _ _ Ef l Hl) as H. simpl in H.
    rewrite Hul, Ha in H. discriminate.
Qed.

End NamedRepositories.

Section UpdateBeforePush.

Variable P : Platform.
Variable R : Runtime.
Variable repo : Repository P.

(** X20, editing a record before its creation was pushed: when
    [update(id, ...)] returns for a row that has no remote identifier yet,
    the entry it has put at the end of the queue is an [UPDATE] without
    remote identifier (the identifier is read from the row when the entry
    is made), and pushing this entry throws in every state of the store
    and of the backend, without calling the backend; the entry can only
    fail until it is a dead letter. *)
Theorem update_before_push_is_unpushable (id : Z) (item : Item.t) (now : string)
    (defaults : QueueDefaults) (w w' : World P) (d : LocalDb) (ex : Row.t) :
  db w = Some d ->
  find (fun r => id_is (Some id) r && active r) (table (tableName repo) d) = Some ex ->
  truthy_int (Row.supabase_id ex) = false ->
  update R repo id item now defaults w = (Ok tt, w') ->
  exists d' q c,
    db w' = Some d'
    /\ sync_queue d' = q ++ [c]
    /\ Change.operation c = UPDATE
    /\ Change.entity_local_id c = Some id
    /\ Change.entity_uuid c = Some (Row.uuid ex)
    /\ Change.entity_supabase_id c = None
    /\ pending c = true
    /\ forall w2 : World P, exists m, syncChange c w2 = (Threw m, w2).
Proof.
  intros Hd Hfind Hs Hrun.
  unfold update, bind, getDb in Hrun. rewrite Hd in Hrun.
  unfold withTransactionAsync in Hrun.
  rewrite (getById_run repo id w Hd), Hfind in Hrun.
  destruct (checkDuplicates repo item (Some id) w) as [[[]|m1] w1];
    [|discriminate].
  destruct (performUpdate repo id item now w1) as [[[]|m2] w2];
    [|discriminate].
  unfold addToSyncQueue, runAsync, bind, getDb in Hrun.
  destruct (db w2) as [d2|] eqn:Hd2; [|discriminate].
  unfold sql_enqueue in Hrun.
  inversion Hrun; subst. clear Hrun.
  eexists. exists (sync_queue d2). eexists.
  split; [reflexivity|]. split; [reflexivity|].
  split; [reflexivity|]. split; [reflexivity|]. split; [reflexivity|].
  assert (Hnone : js_or_null (Row.supabase_id ex) = None).
  { unfold js_or_null. rewrite Hs. reflexivity. }
  split; [exact Hnone|]. split; [reflexivity|].
  intros w3. unfold syncChange. cbn [Change.payload Change.operation Change.entity].
  destruct (JSON_parse P _) as [err|payload].
  - exists err. reflexivity.
  - unfold handleUpdate. cbn [Change.entity_supabase_id]. rewrite Hnone.
    eexists. reflexivity.
Qed.

(** X22, a store that was not initialised: while [initDb] has not run,
    every method of a repository and [getPendingSyncCount] throw the error
    of [getDb] and change nothing. *)
Theorem uninitialised_store_throws (id : Z) (item : Item.t) (now newUuid : string)
    (defaults : QueueDefaults) (w : World P) :
  db w = None ->
  insert R repo item now newUuid defaults w
    = (Threw "Database not initialized. Call initDb() first.", w)
  /\ update R repo id item now defaults w
     = (Threw "Database not initialized. Call initDb() first.", w)
  /\ delete R repo id now defaults w
     = (Threw "Database not initialized. Call initDb() first.", w)
  /\ getById repo id w = (Threw "Database not initialized. Call initDb() first.", w)
  /\ getPendingSyncCount w
     = (Threw "Database not initialized. Call initDb() first.", w).
Proof.
  intros Hd.
  unfold insert, update, delete, getById, getPendingSyncCount, bind, getDb.
  rewrite Hd. repeat split.
Qed.

End UpdateBeforePush.

Section Students.

Variable P : Platform.
Variable R : Runtime.

(** X21, a student needs an office and a level the backend knows: the
    foreign keys of [students] point to [offices(supabase_id)] and
    [levels(supabase_id)], so [insert] of a student throws, and writes
    nothing, unless its [office_id] is the remote identifier of an office
    row and its [level_id] the remote identifier of a level row; an office
    or level created offline cannot receive students before it has been
    pushed. *)
Theorem student_needs_pushed_office (item : Item.t) (now newUuid : string)
    (defaults : QueueDefaults) (w : World P) (d : LocalDb) :
  db w = Some d ->
  (forall o l, Item.office_id item = Some o -> Item.level_id item = Some l ->
     has_supabase_id o (offices_tbl d) && has_supabase_id l (levels_tbl d) = false) ->
  exists m,
    insert R (@studentsRepository P R) item now newUuid defaults w = (Threw m, w).
Proof.
  intros Hd Hfk.
  unfold insert, bind, getDb. rewrite Hd. unfold withTransactionAsync.
  cbn [checkDuplicates performInsert studentsRepository tableName].
  destruct (checkDuplicates_students R item None w) as [[[]|m1] w1] eqn:Ec.
  - assert (w1 = w).
    { unfold checkDuplicates_students in Ec.
      destruct (trimmed_name R item); [|discriminate].
      destruct (String.eqb s EmptyString); [discriminate|].
      destruct (negb (truthy_int (Item.office_id item))); [discriminate|].
      destruct (negb (truthy_int (Item.level_id item))); [discriminate|].
      unfold bind, getDb in Ec. rewrite Hd in Ec.
      destruct (find _ (students_tbl d)); inversion Ec; reflexivity. }
    subst w1.
    unfold runInsert, bind, getDb. rewrite Hd.
    unfold sql_insert.
    destruct (new_student_row R item newUuid now (next_rowid students d))
      as [row|] eqn:Er.
    + destruct (existsb (conflict students row) (table students d)).
      * eexists. unfold throw. clear Ec. destruct w; simpl in Hd; subst; reflexivity.
      * assert (Hbad : fk_ok (set_table students (table students d ++ [row]) d) = false).
        { unfold fk_ok. cbn [set_table students_tbl offices_tbl levels_tbl table].
          rewrite forallb_app. cbn [forallb].
          unfold new_student_row in Er.
          destruct (trimmed_name R item); [|discriminate].
          destruct (Item.office_id item) as [o|]; [|discriminate].
          destruct (Item.level_id item) as [l|]; [|discriminate].
          inversion Er; subst. cbn [Row.office_id Row.level_id].
          rewrite (Hfk o l eq_refl eq_refl). apply andb_false_r. }
        rewrite fk_ok_set_sequence, Hbad. eexists. unfold throw. clear Ec. destruct w; simpl in Hd; subst; reflexivity.
    + eexists. unfold throw. clear Ec. destruct w; simpl in Hd; subst; reflexivity.
  - assert (w1 = w).
    { unfold checkDuplicates_students in Ec. unfold throw in Ec.
      destruct (trimmed_name R item); [|inversion Ec; reflexivity].
      destruct (String.eqb s EmptyString); [inversion Ec; reflexivity|].
      destruct (negb (truthy_int (Item.office_id item))); [inversion Ec; reflexivity|].
      destruct (negb (truthy_int (Item.level_id item))); [inversion Ec; reflexivity|].
      unfold bind, getDb in Ec. rewrite Hd in Ec.
      destruct (find _ (students_tbl d)); inversion Ec; reflexivity. }
    subst w1. exists m1. rewrite rollback_same. reflexivity.
Qed.

End Students.

(* ------------------------------------------------------------------ *)
(** * The further properties on the scenarios *)




Lemma syncAll_restores_flags_witness :
  exists o w',
    syncAll Scenario.cut_off_world = (o, w')
    /\ isOnline w' = true /\ syncInProgress w' = false.
Proof.
  destruct (syncAll Scenario.cut_off_world) as [o w'] eqn:E.
  exists o, w'. split; [reflexivity|].
  exact (@syncAll_restores_flags Scenario.unreachable Scenario.cut_off_world w' o E).
Defined.

Lemma onNetInfo_edge_witness :
  exists o w',
    onNetInfo (Some true) Scenario.asleep_world = (o, w')
    /\ isOnline w' = true
    /\ syncInProgress w' = false
    /\ exists r,
         syncAll (set_isOnline true Scenario.asleep_world) = (Ok r, w')
         /\ o = Ok (Some r).
Proof.
  destruct (onNetInfo (Some true) Scenario.asleep_world) as [o w'] eqn:E.
  exists o, w'. split; [reflexivity|].
  exact (@onNetInfo_edge Scenario.quiet (Some true) Scenario.asleep_world w' o E).
Defined.

Lemma sync_success_drains_queue_witness :
  exists r w',
    syncAll Scenario.pull_world = (Ok r, w')
    /\ success r = true
    /\ getPendingSyncCount w' = (Ok 0, w').
Proof.
  eexists _, _. split; [vm_compute; reflexivity|]. split; [reflexivity|].
  eapply (@sync_success_drains_queue Scenario.newer Scenario.pull_world _ _
           by_timestamp_contract); [vm_compute; reflexivity | reflexivity].
Defined.

Lemma cycle_only_consumes_queue_witness :
  exists r w' d',
    syncAll Scenario.cut_off_world = (Ok r, w')
    /\ db w' = Some d'
    /\ forall x, In x (sync_queue d') ->
         exists y, In y (sync_queue Scenario.offline_db)
                   /\ (x = y
                       \/ exists message,
                            x = bump_retry message y
                            /\ Change.retry_count y < maxRetries).
Proof.
  assert (Hn : NoDup (map Change.id (sync_queue Scenario.offline_db))).
  { simpl. repeat constructor; simpl; intuition discriminate. }
  destruct (syncAll Scenario.cut_off_world) as [[r|m] w'] eqn:E;
    [|vm_compute in E; discriminate E].
  destruct (@cycle_only_consumes_queue Scenario.unreachable Scenario.cut_off_world
              w' Scenario.offline_db r by_timestamp_contract eq_refl Hn E)
    as (d' & H1 & H2).
  exists r, w', d'. split; [reflexivity|]. split; [exact H1|exact H2].
Defined.

Lemma pull_never_enqueues_witness :
  exists o w',
    fetchRemoteChanges Scenario.pull_world = (o, w')
    /\ o = Ok tt
    /\ exists d', db w' = Some d' /\ sync_queue d' = [Scenario.insert_U1].
Proof.
  destruct (fetchRemoteChanges Scenario.pull_world) as [o w'] eqn:E.
  exists o, w'. split; [reflexivity|].
  exact (@pull_never_enqueues Scenario.newer Scenario.pull_world w'
           Scenario.pull_db o eq_refl E).
Defined.

Lemma pull_applies_tombstone_witness :
  exists w' d',
    fetchEntityChanges offices Scenario.deleted_U1_world = (Ok tt, w')
    /\ db w' = Some d'
    /\ In (with_tombstone (Some "2024-01-05T10:00:00Z") Scenario.office_U1)
          (table offices d').
Proof.
  assert (Hn : NoDup (map RemoteItem.uuid [Scenario.remote_U1_deleted])).
  { simpl. repeat constructor; simpl; intuition discriminate. }
  eexists. 
  destruct (@pull_applies_tombstone Scenario.deleted_U1 offices
              [Scenario.remote_U1_deleted] Scenario.deleted_U1_world _ _
              Scenario.pull_db Scenario.remote_U1_deleted Scenario.office_U1
              eq_refl eq_refl eq_refl Hn (or_introl eq_refl) eq_refl
              (or_introl eq_refl) eq_refl eq_refl eq_refl)
    as (d' & H1 & H2 & _).
  exists d'. split; [vm_compute; reflexivity|]. split; [exact H1|exact H2].
Defined.

Lemma pull_applies_newer_remote_witness :
  exists w' d',
    fetchEntityChanges offices Scenario.pull_world = (Ok tt, w')
    /\ db w' = Some d'
    /\ In (Row.mk 2 "U2" "Branch (renamed)" None None None None None (Some 20) 1
             None "2024-01-01T09:00:00Z" "2024-01-03T09:00:00Z" None)
          (table offices d').
Proof.
  assert (Hn : NoDup (map RemoteItem.uuid [Scenario.remote_U1; Scenario.remote_U2])).
  { simpl. repeat constructor; simpl; intuition discriminate. }
  eexists.
  destruct (@pull_applies_newer_remote Scenario.newer offices
              [Scenario.remote_U1; Scenario.remote_U2] Scenario.pull_world _ _
              Scenario.pull_db Scenario.remote_U2 Scenario.office_U2
              eq_refl eq_refl eq_refl Hn (or_intror (or_introl eq_refl)) eq_refl
              (or_intror (or_introl eq_refl)) eq_refl eq_refl eq_refl
              ltac:(discriminate) eq_refl)
    as (d' & l' & H1 & H2 & H3 & _).
  exists d'. split; [vm_compute; reflexivity|]. split; [exact H1|].
  vm_compute in H2. inversion H2; subst l'. exact H3.
Defined.

Lemma pull_keeps_soft_deleted_witness :
  exists o w' d',
    fetchEntityChanges offices Scenario.closed_world = (o, w')
    /\ db w' = Some d'
    /\ In Scenario.closed_U2 (table offices d').
Proof.
  destruct (fetchEntityChanges offices Scenario.closed_world) as [o w'] eqn:E.
  destruct (@pull_keeps_soft_deleted Scenario.newer offices Scenario.closed_world w'
              Scenario.closed_db Scenario.closed_U2 o
              eq_refl eq_refl (or_introl eq_refl) eq_refl E)
    as (d' & H1 & H2).
  exists o, w', d'. split; [reflexivity|]. split; [exact H1|exact H2].
Defined.

Lemma pull_inserts_unknown_as_synced_witness :
  exists w' d',
    fetchEntityChanges offices Scenario.closed_world = (Ok tt, w')
    /\ db w' = Some d'
    /\ inserted_from_remote offices Scenario.remote_U1 d'.
Proof.
  assert (Hn : NoDup (map RemoteItem.uuid [Scenario.remote_U1; Scenario.remote_U2])).
  { simpl. repeat constructor; simpl; intuition discriminate. }
  assert (Hnew : forall l, In l (table offices Scenario.closed_db) ->
                           RemoteItem.uuid Scenario.remote_U1 <> Some (Row.uuid l)).
  { intros l [<-|[]]. discriminate. }
  eexists.
  destruct (@pull_inserts_unknown_as_synced Scenario.newer offices
              [Scenario.remote_U1; Scenario.remote_U2] Scenario.closed_world _ _
              Scenario.closed_db Scenario.remote_U1
              eq_refl eq_refl Hn (or_introl eq_refl) eq_refl Hnew eq_refl)
    as (d' & H1 & _ & H3).
  exists d'. split; [vm_compute; reflexivity|]. split; [exact H1|].
  apply H3; [discriminate|].
  intros s Hs. inversion Hs; subst s. split.
  - intros x [<-|[]]. discriminate.
  - intros j [<-|[<-|[]]] Hj; [reflexivity | discriminate Hj].
Defined.

(** ** The repositories on the scenarios *)


Lemma deleted_row_is_gone_witness :
  exists w',
    delete Scripted.runtime (@officesRepository Scenario.quiet Scripted.runtime)
      1 "2024-01-01T10:00:09Z" Scenario.next_entry Scenario.idle_world
      = (Ok tt, w')
    /\ getById (@officesRepository Scenario.quiet Scripted.runtime) 1 w'
       = (Ok None, w').
Proof.
  destruct (@deleted_row_is_gone Scenario.quiet Scripted.runtime
              (@officesRepository Scenario.quiet Scripted.runtime)
              1 "2024-01-01T10:00:09Z" Scenario.next_entry Scenario.idle_world
              Scenario.offline_db Scenario.office_U1
              eq_refl eq_refl eq_refl eq_refl ltac:(discriminate))
    as (w' & H1 & H2 & _).
  exists w'. split; [exact H1|exact H2].
Defined.

Lemma mutating_missing_row_fails_witness :
  getById (@officesRepository Scenario.quiet Scripted.runtime) 5 Scenario.idle_world
    = (Ok None, Scenario.idle_world)
  /\ delete Scripted.runtime (@officesRepository Scenario.quiet Scripted.runtime)
       5 "2024-01-01T10:00:09Z" Scenario.next_entry Scenario.idle_world
     = (Threw (not_found (@officesRepository Scenario.quiet Scripted.runtime)),
        Scenario.idle_world).
Proof.
  split; [reflexivity|].
  exact (proj2 (@mutating_missing_row_fails Scenario.quiet Scripted.runtime
                  (@officesRepository Scenario.quiet Scripted.runtime)
                  5 Scenario.head_office "2024-01-01T10:00:09Z" Scenario.next_entry
                  Scenario.idle_world eq_refl)).
Defined.

Lemma insert_named_offline_witness :
  exists v d',
    insert Scripted.runtime (@officesRepository Scenario.quiet Scripted.runtime)
      Scenario.annex "2024-01-01T10:01:40Z" "U3" Scenario.next_entry
      Scenario.idle_world
      = (Ok v, set_db d' Scenario.idle_world)
    /\ table offices d'
       = [Scenario.office_U1;
          Row.mk 2 "U3" "Annex" None None None None None None 0 (Some INSERT)
            "2024-01-01T10:01:40Z" "2024-01-01T10:01:40Z" None]
    /\ List.length (sync_queue d') = 4%nat.
Proof.
  assert (Hname : forall r, In r (table offices Scenario.offline_db) ->
                            active r = true -> Row.name r <> "Annex").
  { intros r [<-|[]] _. discriminate. }
  assert (Huuid : forall r, In r (table offices Scenario.offline_db) ->
                            Row.uuid r <> "U3").
  { intros r [<-|[]]. discriminate. }
  destruct (@insert_named_offline Scenario.quiet Scripted.runtime offices
              "المركز" "يرجى إدخال اسم المركز" "اسم المركز موجود بالفعل"
              Scenario.annex "2024-01-01T10:01:40Z" "U3" Scenario.next_entry
              Scenario.idle_world Scenario.offline_db "Annex"
              ltac:(discriminate) eq_refl eq_refl eq_refl ltac:(discriminate)
              eq_refl Hname Huuid)
    as (v & d' & H1 & H2 & _ & _ & _ & _ & H4).
  exists v, d'. split; [exact H1|]. split; [exact H2|].
  rewrite H4. reflexivity.
Defined.

Lemma named_duplicates_rejected_witness :
  insert Scripted.runtime (@officesRepository Scenario.quiet Scripted.runtime)
    Scenario.main_again "2024-01-01T10:01:40Z" "U3" Scenario.next_entry
    Scenario.idle_world
  = (Threw "اسم المركز موجود بالفعل", Scenario.idle_world).
Proof.
  exact (proj1
           (proj2 (@named_duplicates_rejected Scenario.quiet Scripted.runtime offices
                     "المركز" "يرجى إدخال اسم المركز" "اسم المركز موجود بالفعل"
                     Scenario.main_again "2024-01-01T10:01:40Z" "U3"
                     Scenario.next_entry Scenario.idle_world Scenario.offline_db
                     eq_refl)
              Scenario.office_U1 (or_introl eq_refl) eq_refl eq_refl
              ltac:(discriminate))).
Defined.

Lemma mergeRemote_overwrites_witness :
  exists w' d',
    mergeRemote (@officesRepository Scenario.newer Scripted.runtime)
      Scenario.remote_U1 "2024-01-06T00:00:00Z" "2024-01-06T00:00:00Z"
      Scenario.pull_world = (Ok tt, w')
    /\ Row.is_synced Scenario.office_U1 = 0
    /\ db w' = Some d'
    /\ In (Row.mk 1 "U1" "Main office (remote)" None None None None None None 1
             None "2024-01-01T10:00:00Z" "2024-01-05T10:00:00Z" None)
          (table offices d')
    /\ sync_queue d' = [Scenario.insert_U1].
Proof.
  eexists.
  destruct (@mergeRemote_overwrites Scenario.newer Scripted.runtime offices
              "المركز" "يرجى إدخال اسم المركز" "اسم المركز موجود بالفعل"
              Scenario.remote_U1 "2024-01-06T00:00:00Z" "2024-01-06T00:00:00Z"
              Scenario.pull_world _ Scenario.pull_db Scenario.office_U1
              eq_refl (or_introl eq_refl) eq_refl eq_refl eq_refl)
    as (d' & l' & H1 & H2 & H3 & _ & _ & H6).
  exists d'. split; [vm_compute; reflexivity|]. split; [reflexivity|]. split; [exact H1|].
  split; [|exact H6].
  vm_compute in H2. inversion H2; subst l'. exact H3.
Defined.

Lemma update_before_push_is_unpushable_witness :
  exists w' d' q c,
    update Scripted.runtime (@officesRepository Scenario.quiet Scripted.runtime)
      1 Scenario.head_office "2024-01-01T10:01:40Z" Scenario.next_entry
      Scenario.idle_world = (Ok tt, w')
    /\ db w' = Some d'
    /\ sync_queue d' = q ++ [c]
    /\ Change.operation c = UPDATE
    /\ Change.entity_supabase_id c = None
    /\ exists m, syncChange c w' = (Threw m, w').
Proof.
  eexists.
  destruct (@update_before_push_is_unpushable Scenario.quiet Scripted.runtime
              (@officesRepository Scenario.quiet Scripted.runtime)
              1 Scenario.head_office "2024-01-01T10:01:40Z" Scenario.next_entry
              Scenario.idle_world _ Scenario.offline_db Scenario.office_U1
              eq_refl eq_refl eq_refl eq_refl)
    as (d' & q & c & H1 & H2 & H3 & _ & _ & H6 & _ & H8).
  exists d', q, c. split; [vm_compute; reflexivity|]. split; [exact H1|]. split; [exact H2|].
  split; [exact H3|]. split; [exact H6|]. apply H8.
Defined.

Lemma uninitialised_store_throws_witness :
  delete Scripted.runtime (@officesRepository Scenario.quiet Scripted.runtime)
    1 "2024-01-01T10:00:09Z" Scenario.next_entry Scenario.cold_world
  = (Threw "Database not initialized. Call initDb() first.", Scenario.cold_world).
Proof.
  exact (proj1 (proj2 (proj2
           (@uninitialised_store_throws Scenario.quiet Scripted.runtime
              (@officesRepository Scenario.quiet Scripted.runtime)
              1 Scenario.head_office "2024-01-01T10:00:09Z" "U3"
              Scenario.next_entry Scenario.cold_world eq_refl)))).
Defined.

Lemma student_needs_pushed_office_witness :
  exists m,
    insert Scripted.runtime (@studentsRepository Scenario.quiet Scripted.runtime)
      Scenario.pupil "2024-01-01T10:01:40Z" "U4" Scenario.next_entry
      Scenario.idle_world
    = (Threw m, Scenario.idle_world).
Proof.
  apply (@student_needs_pushed_office Scenario.quiet Scripted.runtime
           Scenario.pupil "2024-01-01T10:01:40Z" "U4" Scenario.next_entry
           Scenario.idle_world Scenario.offline_db eq_refl).
  intros o l Ho Hl. inversion Ho; inversion Hl; subst. reflexivity.
Defined.
